(** * FluidSDK: feedback attestation pipeline, IPFS gateway read and
      endpoint crawler, embedded from the TypeScript sources.

    Conventions of the embedding.
    - A JavaScript string is a [string] holding its UTF-8 bytes, so
      [TextEncoder.encode] and [ethers.toUtf8Bytes] are the byte list of
      the string.
    - A [Uint8Array] is a [list byte].
    - A JavaScript number that holds an integer is an integer [Z] (type
      [number], with [NaN] beside it); where the program converts to a
      double or adds and multiplies doubles, the result is rounded with
      [to_double], which changes nothing up to 2^53.  The one fractional
      input, the feedback score, is a rational.
    - A JavaScript object is an association list in insertion order with
      one binding per key.
    - Exceptions are the [Err] case of [result]; calls to the outside
      world (registry, pinning service, HTTP) are fields of a record of
      collaborators and every call is written to a log of events. *)

From Stdlib Require Import ZArith QArith Qround Lqa Ascii String List Lia.
From Stdlib.Strings Require Import Byte.
From stdpp Require Import base list strings.

Local Open Scope Z_scope.
Set Warnings "-register-all".

(** ** Errors and results *)

Inductive error :=
| UnsupportedNetwork      (* 'No default registries found for chainId ...' *)
| InvalidIdentifier       (* 'Invalid agentId format. Expected chainId:tokenId' *)
| InvalidIdentifierInPrepare (* 'Invalid agentId format in prepareFeedback' *)
| UnsupportedSigner       (* 'Unsupported signer type' *)
| InvalidPrivateKey       (* new ethers.Wallet(key) rejects the key *)
| RangeError              (* BigInt(x) on a number that is no integer *)
| EncodingError           (* ethers refuses a value for its ABI type *)
| InvalidHex              (* ethers.getBytes on a string that is no hex data *)
| TypeError               (* 'in' applied to a primitive *)
| RegistryReadFailed      (* getLastIndex rejects *)
| UploadFailed            (* uploadJson rejects *)
| SubmissionRejected      (* giveFeedback transaction rejects *)
| ConfirmationFailed      (* tx.wait() rejects *)
| ContentUnavailable.     (* 'Failed to retrieve data from all IPFS gateways' *)

Inductive result (A : Type) :=
| Ok (a : A)
| Err (e : error).
Arguments Ok {A} a.
Arguments Err {A} e.

Definition is_ok {A} (r : result A) : bool :=
  match r with Ok _ => true | Err _ => false end.

Definition of_option {A} (e : error) (o : option A) : result A :=
  match o with Some a => Ok a | None => Err e end.

#[global] Instance result_ret : MRet result := fun A a => Ok a.
#[global] Instance result_bind : MBind result := fun A B f m =>
  match m with Ok a => f a | Err e => Err e end.

(** ** Strings as JavaScript uses them *)

Module JsString.

(** [s.slice(n)] for [0 <= n]. *)
Fixpoint slice (n : nat) (s : string) : string :=
  match n, s with
  | O, _ => s
  | S n', String _ r => slice n' r
  | S _, EmptyString => EmptyString
  end.

Definition startsWith (s p : string) : bool := String.prefix p s.

(** [s.includes(sub)]. *)
Definition includes (s sub : string) : bool :=
  match String.index 0 sub s with Some _ => true | None => false end.

(** [s.split(c)] for a one-character separator: never the empty list. *)
Fixpoint split (c : ascii) (s : string) : list string :=
  match s with
  | EmptyString => [EmptyString]
  | String a r =>
      if Ascii.eqb a c then EmptyString :: split c r
      else match split c r with
           | p :: ps => String a p :: ps
           | [] => [String a EmptyString]
           end
  end.

(** [s.repeat(n)]. *)
Fixpoint repeat (s : string) (n : nat) : string :=
  match n with O => EmptyString | S n' => s +:+ repeat s n' end.

(** [s.replace(/\/$/, '')]: drops one trailing slash. *)
Fixpoint stripTrailingSlash (s : string) : string :=
  match s with
  | EmptyString => EmptyString
  | String a EmptyString => if Ascii.eqb a "/" then EmptyString else s
  | String a r => String a (stripTrailingSlash r)
  end.

(** [!s] is false exactly on non-empty strings. *)
Definition truthy (s : string) : bool :=
  match s with EmptyString => false | _ => true end.

(** [parts.join(sep)]. *)
Fixpoint join (sep : string) (parts : list string) : string :=
  match parts with
  | [] => EmptyString
  | [p] => p
  | p :: ps => p +:+ sep +:+ join sep ps
  end.

(** Whether the character [c] occurs in [s]. *)
Fixpoint occurs (c : ascii) (s : string) : bool :=
  match s with
  | EmptyString => false
  | String a r => Ascii.eqb a c || occurs c r
  end.

End JsString.

(** ** Hexadecimal data strings of ethers ([hexlify], [getBytes]) *)

Module Hex.

Definition byte_of_N (n : N) : byte := byte_of_ascii (ascii_of_N n).

Definition hex_digit (n : N) : ascii :=
  if (n <? 10)%N then ascii_of_N (48 + n) else ascii_of_N (87 + n).

Definition hex_value (c : ascii) : option N :=
  let n := N_of_ascii c in
  if ((48 <=? n) && (n <=? 57))%N then Some (n - 48)%N
  else if ((97 <=? n) && (n <=? 102))%N then Some (n - 87)%N
  else if ((65 <=? n) && (n <=? 70))%N then Some (n - 55)%N
  else None.

(** The digits of a byte string, without the [0x]. *)
Fixpoint digits (bs : list byte) : string :=
  match bs with
  | [] => EmptyString
  | b :: r =>
      String (hex_digit (Byte.to_N b / 16))
        (String (hex_digit (Byte.to_N b mod 16)) (digits r))
  end.

(** [ethers.hexlify(bytes)]. *)
Definition hexlify (bs : list byte) : string := "0x" +:+ digits bs.

Fixpoint undigits (s : string) : option (list byte) :=
  match s with
  | EmptyString => Some []
  | String a (String b r) =>
      match hex_value a, hex_value b, undigits r with
      | Some h, Some l, Some bs => Some (byte_of_N (16 * h + l) :: bs)
      | _, _, _ => None
      end
  | String _ EmptyString => None
  end.

(** [ethers.getBytes(hexString)]: throws unless the argument is [0x]
    followed by an even number of hex digits. *)
Definition getBytes (s : string) : result (list byte) :=
  if JsString.startsWith s "0x"
  then of_option InvalidHex (undigits (JsString.slice 2 s))
  else Err InvalidHex.

End Hex.

(** ** Numbers *)

Module JsNumber.

(** Integer-valued numbers and [NaN]. *)
Inductive number :=
| NaN
| Int (z : Z).

(** StrWhiteSpaceChar, the characters of one byte: TAB, LF, VT, FF, CR,
    SP. *)
Definition is_ws (c : ascii) : bool :=
  let n := N_of_ascii c in
  ((9 <=? n) && (n <=? 13) || (n =? 32))%N.

(** StrWhiteSpaceChar, the characters of three bytes: U+1680, U+2000 to
    U+200A, U+2028, U+2029, U+202F, U+205F, U+3000 and U+FEFF. *)
Definition is_ws3 (a b c : N) : bool :=
  ((a =? 225) && (b =? 154) && (c =? 128)
   || (a =? 226) && (b =? 128)
      && ((128 <=? c) && (c <=? 138) || (c =? 168) || (c =? 169)
          || (c =? 175))
   || (a =? 226) && (b =? 129) && (c =? 159)
   || (a =? 227) && (b =? 128) && (c =? 128)
   || (a =? 239) && (b =? 187) && (c =? 191))%N.

(** The white space that [parseInt] skips; U+00A0 is the one character
    of two bytes. *)
Fixpoint trimStart (s : string) : string :=
  match s with
  | String a r =>
      let n := N_of_ascii a in
      if is_ws a then trimStart r
      else if (n =? 194)%N then
        match r with
        | String b r1 => if (N_of_ascii b =? 160)%N then trimStart r1 else s
        | EmptyString => s
        end
      else if ((n =? 225) || (n =? 226) || (n =? 227) || (n =? 239))%N then
        match r with
        | String b (String c r2) =>
            if is_ws3 n (N_of_ascii b) (N_of_ascii c) then trimStart r2
            else s
        | _ => s
        end
      else s
  | EmptyString => EmptyString
  end.

Definition digit_value (c : ascii) : option Z :=
  let n := N_of_ascii c in
  if ((48 <=? n) && (n <=? 57))%N then Some (Z.of_N n - 48) else None.

(** The longest prefix of decimal digits, read left to right; [None]
    when that prefix is empty. *)
Fixpoint parse_digits (acc : option Z) (s : string) : option Z :=
  match s with
  | String a r =>
      match digit_value a with
      | Some d => parse_digits (Some (10 * default 0 acc + d)) r
      | None => acc
      end
  | EmptyString => acc
  end.

(** The double nearest to an integer, a tie going to the even
    significand: the integer itself up to 2^53 in size, beyond that its
    53 leading bits, rounded.  An integer from 2^1024 on, which the
    program holds as Infinity, is outside the embedding. *)
Definition to_double (z : Z) : Z :=
  let a := Z.abs z in
  let e := Z.log2 a - 52 in
  if e <=? 0 then z
  else
    let q := a / 2 ^ e in
    let r := a mod 2 ^ e in
    let half := 2 ^ (e - 1) in
    let q' :=
      if r <? half then q
      else if half <? r then q + 1
      else if Z.even q then q else q + 1 in
    Z.sgn z * (q' * 2 ^ e).

(** [parseInt(s, 10)]: leading white space, an optional sign, then the
    longest run of digits; whatever follows is ignored; [NaN] when
    there is no digit.  The result is the double nearest to the integer
    that the digits write. *)
Definition parseInt (s : string) : number :=
  let s1 := trimStart s in
  let '(sign, s2) :=
    match s1 with
    | String "-" r => (-1, r)
    | String "+" r => (1, r)
    | _ => (1, s1)
    end in
  match parse_digits None s2 with
  | Some v => Int (to_double (sign * v))
  | None => NaN
  end.

Fixpoint dec_digits (fuel : nat) (n : N) (acc : string) : string :=
  match fuel with
  | O => acc
  | S f =>
      let acc' := String (ascii_of_N (48 + n mod 10)) acc in
      if (n <? 10)%N then acc' else dec_digits f (n / 10) acc'
  end.

(** Decimal digits of a natural number, no leading zero. *)
Definition N_to_string (n : N) : string :=
  dec_digits (S (N.to_nat (N.log2 n))) n EmptyString.

(** [String(x)] and [`${x}`] on a number: every digit, as the program
    prints an integer up to 2^53 ([Double.exact]); beyond, the program
    prints the shortest digits of the double and, from 1e21 on, an
    exponent. *)
Definition toString (x : number) : string :=
  match x with
  | NaN => "NaN"
  | Int z =>
      if z <? 0 then "-" +:+ N_to_string (Z.to_N (- z))
      else N_to_string (Z.to_N z)
  end.

(** [BigInt(x)]: a RangeError unless [x] is an integer. *)
Definition BigInt (x : number) : result Z :=
  match x with
  | NaN => Err RangeError
  | Int z => Ok z
  end.

(** [Math.round(x)] on a finite number: the integer nearest to [x], a
    tie going up. *)
Definition Math_round (x : Q) : number := Int (Qfloor (x + (1 # 2))).

(** [Number(b)] on a BigInt. *)
Definition ofBigInt (b : Z) : number := Int (to_double b).

(** [x + 1], rounded to a double. *)
Definition succ (x : number) : number :=
  match x with
  | NaN => NaN
  | Int z => Int (to_double (z + 1))
  end.

(** Whether [s] is made of decimal digits only. *)
Fixpoint all_digits (s : string) : bool :=
  match s with
  | EmptyString => true
  | String a r =>
      match digit_value a with
      | Some _ => all_digits r
      | None => false
      end
  end.

End JsNumber.
Export JsNumber.

(** ** Double precision on integers *)

Module Double.

(** Every integer from -2^53 to 2^53 is a double, and a sum, a product
    or a conversion whose exact result is such an integer is computed
    without rounding; such an integer is also printed digit by digit. *)
Definition exact (z : Z) : bool := (- 2 ^ 53 <=? z) && (z <=? 2 ^ 53).

Definition exact_number (x : number) : bool :=
  match x with
  | NaN => true
  | Int z => exact z
  end.

(** Whether [Math.floor(Date.now() / 1000) + expiryHours * 3600] is
    computed without rounding.  A time value is at most 8.64e15
    milliseconds, for which the quotient by 1000 rounds to a double
    with the same floor. *)
Definition exact_expiry (now_ms expiryHours : Z) : bool :=
  (0 <=? now_ms) && (now_ms <=? 8640000000000000)
  && exact expiryHours && exact (expiryHours * 3600)
  && exact (now_ms / 1000 + expiryHours * 3600).

End Double.

(** ** Values and objects *)

Module JsValue.

Inductive value :=
| VUndefined
| VNull
| VBool (b : bool)
| VNum (n : number)
| VStr (s : string)
| VArr (items : list value)
| VObj (props : list (string * value)).

Abbreviation obj := (list (string * value)).

(** Own property [o[k]]: [None] when [k in o] is false. *)
Fixpoint obj_get (k : string) (o : obj) : option value :=
  match o with
  | [] => None
  | (k', v) :: r => if String.eqb k k' then Some v else obj_get k r
  end.

(** [o[k] = v]: an existing key keeps its place, a new one goes last. *)
Fixpoint obj_set (k : string) (v : value) (o : obj) : obj :=
  match o with
  | [] => [(k, v)]
  | (k', v') :: r =>
      if String.eqb k k' then (k, v) :: r else (k', v') :: obj_set k v r
  end.

(** [Object.assign(target, source)]. *)
Definition obj_assign (target source : obj) : obj :=
  fold_left (fun t kv => obj_set (fst kv) (snd kv) t) source target.

(** [Object.keys(o)]. *)
Definition obj_keys (o : obj) : list string := map fst o.

(** ToBoolean. *)
Definition truthy (v : value) : bool :=
  match v with
  | VUndefined | VNull => false
  | VBool b => b
  | VNum NaN => false
  | VNum (Int z) => negb (z =? 0)
  | VStr s => JsString.truthy s
  | VArr _ | VObj _ => true
  end.

(** [typeof v === 'object'] (true on null, arrays and objects). *)
Definition typeof_object (v : value) : bool :=
  match v with
  | VNull | VArr _ | VObj _ => true
  | _ => false
  end.

(** [v[k]] for a string key that is no array index or built-in:
    [undefined] unless [v] is an object that has the key.  Throws on
    [undefined] and [null], which the callers exclude beforehand. *)
Definition get (v : value) (k : string) : value :=
  match v with
  | VObj o => default VUndefined (obj_get k o)
  | _ => VUndefined
  end.

(** [k in v]: a TypeError on a primitive. *)
Definition has (k : string) (v : value) : result bool :=
  match v with
  | VObj o => Ok (bool_decide (is_Some (obj_get k o)))
  | VArr _ => Ok false
  | _ => Err TypeError
  end.

(** [Number(v)].  Strings, arrays and objects go through the
    StringToNumber grammar, which is left to the parameter [exotic]. *)
Definition ToNumber (exotic : value -> number) (v : value) : number :=
  match v with
  | VUndefined => NaN
  | VNull => Int 0
  | VBool b => Int (if b then 1 else 0)
  | VNum n => n
  | _ => exotic v
  end.

End JsValue.
Export JsValue.

(** ** JSON.stringify *)

Module Json.

Definition dquote : ascii := "034"%char.
Definition backslash : ascii := "092"%char.

(** One character of QuoteJSONString. *)
Definition escape_char (c : ascii) : string :=
  let n := N_of_ascii c in
  let esc (x : ascii) := String backslash (String x EmptyString) in
  if (n =? 8)%N then esc "b"%char
  else if (n =? 9)%N then esc "t"%char
  else if (n =? 10)%N then esc "n"%char
  else if (n =? 12)%N then esc "f"%char
  else if (n =? 13)%N then esc "r"%char
  else if (n =? 34)%N then esc dquote
  else if (n =? 92)%N then esc backslash
  else if (n <? 32)%N then
    String backslash
      (String "u" (String "0" (String "0"
         (String (Hex.hex_digit (n / 16))
            (String (Hex.hex_digit (n mod 16)) EmptyString)))))
  else String c EmptyString.

Fixpoint escape (s : string) : string :=
  match s with
  | EmptyString => EmptyString
  | String c r => escape_char c +:+ escape r
  end.

(** QuoteJSONString. *)
Definition quote (s : string) : string :=
  String dquote (escape s +:+ String dquote EmptyString).

Definition member (k sv : string) : string := quote k +:+ ":" +:+ sv.

Fixpoint lookup_ser (k : string) (l : list (string * option string))
  : option string :=
  match l with
  | [] => None
  | (k', sv) :: r => if String.eqb k k' then sv else lookup_ser k r
  end.

(** SerializeJSONProperty with no indentation.  [K] is the PropertyList
    of the state: [Some] when the replacer is an array, and then it is
    the list of keys serialized for EVERY object met, at whatever depth,
    in the order of the list; [None] serializes an object's own keys in
    their own order.  A property whose value is [undefined], or that the
    object does not have, leaves no member; [undefined] in an array is
    written [null].  The properties of an object are serialized first
    and then selected by key, which gives the same string as looking
    each key up and serializing what is found. *)
Fixpoint ser (K : option (list string)) (v : value) : option string :=
  match v with
  | VUndefined => None
  | VNull => Some "null"
  | VBool b => Some (if b then "true" else "false")
  | VNum NaN => Some "null"
  | VNum n => Some (toString n)
  | VStr s => Some (quote s)
  | VArr items =>
      Some ("[" +:+
            JsString.join "," (map (fun x => default "null" (ser K x)) items)
            +:+ "]")
  | VObj props =>
      let sers := map (fun kv => (fst kv, ser K (snd kv))) props in
      let keys := match K with Some ks => ks | None => map fst props end in
      Some ("{" +:+
            JsString.join ","
              (omap (fun P => member P <$> lookup_ser P sers) keys)
            +:+ "}")
  end.

(** The PropertyList of an array replacer: its strings, a repeated one
    kept at its first place only. *)
Fixpoint propertyList (replacer : list string) : list string :=
  match replacer with
  | [] => []
  | k :: r =>
      k :: filter (fun k' => k' <> k) (propertyList r)
  end.

(** [JSON.stringify(v, replacer)] with an optional array replacer. *)
Definition stringify (replacer : option (list string)) (v : value)
  : option string :=
  ser (propertyList <$> replacer) v.

(** The place of a UTF-8 byte in the order of UTF-16 code units.  The
    two orders agree except that the characters beyond U+FFFF, whose
    code units are surrogates and whose first byte is F0 to F4, come
    before those from U+E000 to U+FFFF, whose first byte is EE or EF. *)
Definition code_unit_rank (c : ascii) : N :=
  let n := N_of_ascii c in
  if ((238 <=? n) && (n <=? 239))%N then (n + 16)%N else n.

(** [a <= b] as the default comparison of [sort] has it: by UTF-16 code
    units, a prefix first. *)
Fixpoint leb (a b : string) : bool :=
  match a, b with
  | EmptyString, _ => true
  | String _ _, EmptyString => false
  | String x a', String y b' =>
      match (code_unit_rank x ?= code_unit_rank y)%N with
      | Lt => true
      | Gt => false
      | Eq => leb a' b'
      end
  end.

Fixpoint insert_sorted (k : string) (l : list string) : list string :=
  match l with
  | [] => [k]
  | h :: t => if leb k h then k :: l else h :: insert_sorted k t
  end.

(** [keys.sort()] with the default comparison. *)
Definition sort (l : list string) : list string :=
  foldr insert_sorted [] l.

Fixpoint insert_bytewise (k : string) (l : list string) : list string :=
  match l with
  | [] => [k]
  | h :: t => if String.leb k h then k :: l else h :: insert_bytewise k t
  end.

(** The keys in byte-wise lexicographic order, the order the spec names. *)
Definition sort_bytewise (l : list string) : list string :=
  foldr insert_bytewise [] l.

(** Follows the spec's words, for comparison with what the code hashes:
    compact JSON in which every object, at every nesting level, has all
    its own keys, sorted byte-wise. *)
Fixpoint canonical_json (v : value) : option string :=
  match v with
  | VUndefined => None
  | VNull => Some "null"
  | VBool b => Some (if b then "true" else "false")
  | VNum NaN => Some "null"
  | VNum n => Some (toString n)
  | VStr s => Some (quote s)
  | VArr items =>
      Some ("[" +:+
            JsString.join ","
              (map (fun x => default "null" (canonical_json x)) items)
            +:+ "]")
  | VObj props =>
      let sers := map (fun kv => (fst kv, canonical_json (snd kv))) props in
      Some ("{" +:+
            JsString.join ","
              (omap (fun P => member P <$> lookup_ser P sers)
                 (propertyList (sort_bytewise (map fst props))))
            +:+ "}")
  end.

(** Neither an array nor an object. *)
Definition primitive (v : value) : bool :=
  match v with
  | VArr _ | VObj _ => false
  | _ => true
  end.

End Json.

(** ** ABI encoding of static words ([AbiCoder.encode]) *)

Module Abi.

(** [n] bytes, big-endian, of [z]. *)
Fixpoint be_bytes (n : nat) (z : Z) : list byte :=
  match n with
  | O => []
  | S n' => be_bytes n' (z / 256) ++ [Hex.byte_of_N (Z.to_N (z mod 256))]
  end.

Inductive abi_arg :=
| Uint256 (z : Z)
| Address (s : string).

(** A [uint256] is one 32-byte big-endian word; a value outside
    [0 .. 2^256 - 1] is refused. *)
Definition word_uint256 (z : Z) : result (list byte) :=
  if (0 <=? z) && (z <? 2 ^ 256) then Ok (be_bytes 32 z)
  else Err EncodingError.

(** An [address] is [0x] and 40 hex digits whose letter case passes the
    EIP-55 check ([checksum_ok], which needs Keccak and is a parameter);
    its word is the 20 bytes after 12 zero bytes.  The two other forms
    that ethers takes for an address, 40 hex digits without the [0x] and
    ICAP, are not covered: they are refused here. *)
Definition word_address (checksum_ok : string -> bool) (s : string)
  : result (list byte) :=
  if JsString.startsWith s "0x" && (String.length s =? 42)%nat
     && checksum_ok s
  then match Hex.undigits (JsString.slice 2 s) with
       | Some bs => Ok (replicate 12 x00 ++ bs)
       | None => Err EncodingError
       end
  else Err EncodingError.

Definition word (checksum_ok : string -> bool) (a : abi_arg)
  : result (list byte) :=
  match a with
  | Uint256 z => word_uint256 z
  | Address s => word_address checksum_ok s
  end.

(** [encode(types, values)] for static types: the words in order. *)
Fixpoint encode (checksum_ok : string -> bool) (args : list abi_arg)
  : result (list byte) :=
  match args with
  | [] => Ok []
  | a :: r =>
      w ← word checksum_ok a;
      ws ← encode checksum_ok r;
      mret (w ++ ws)
  end.

End Abi.

(** ** helpers/contracts.ts: the registry table *)

Module Contracts.

Record Registries := {
  IDENTITY : string;
  REPUTATION : string;
  VALIDATION : string;
}.

Definition sepoliaRegistries : Registries := {|
  IDENTITY := "0x5f63c5784DFE968f06d5e6ba16cB6018163827Be";
  REPUTATION := "0xa3e1FF3Dc554233466a0095ED85fd88965362B7A";
  VALIDATION := "0x17EFDCdDED2E6B4A30Df358F3BB84B12673d025E";
|}.

(** [DEFAULT_REGISTRIES[chainId]]: Ethereum Sepolia, Base Sepolia, Linea
    Sepolia and Polygon Amoy carry the same three addresses. *)
Definition DEFAULT_REGISTRIES (chainId : Z) : option Registries :=
  if (chainId =? 11155111) || (chainId =? 84532)
     || (chainId =? 59141) || (chainId =? 80002)
  then Some sepoliaRegistries
  else None.

End Contracts.

(** ** helpers/execution.ts: the feedback pipeline *)

Module Execution.
Import Contracts.

Record FeedbackParams := {
  fp_agentId : string;
  fp_score : option Q;
  fp_tags : option (list string);
  fp_text : option string;
  fp_capability : option string;
  fp_name : option string;
  fp_skill : option string;
  fp_task : option string;
  fp_context : option obj;
  fp_proofOfPayment : option obj;
  fp_extra : option obj;
}.

Record ContractConfig := {
  cc_chainId : Z;
  cc_rpcUrl : string;
  cc_pinataJwt : option string;
  cc_pinataGateway : option string;
}.

Record Wallet := {
  address : string;
  privateKey : string;
}.

(** What a caller may pass as signer: a private key, a wallet, or
    anything else. *)
Inductive Signer :=
| SignerKey (key : string)
| SignerWallet (w : Wallet)
| SignerOther.

(** The arguments of the registry's [giveFeedback] call. *)
Record SubmitArgs := {
  sub_tokenId : Z;
  sub_score : number;
  sub_tag1 : string;
  sub_tag2 : string;
  sub_feedbackUri : string;
  sub_feedbackHash : string;
  sub_feedbackAuth : list byte;
}.

Record FeedbackResult := {
  transactionHash : string;
  blockNumber : Z;
  feedbackIndex : number;
  feedbackFile : obj;
  feedbackUri : string;
}.

(** Calls that leave the process. *)
Inductive event :=
| ReadLastIndex (tokenId : Z) (client : string)
| UploadJson (jwt : string) (file : obj)
| SubmitFeedback (args : SubmitArgs)
| AwaitReceipt (tx : string).

(** The collaborators: clock, hash, signing, registry, pinning service.
    [None] is a rejected promise or a thrown exception. *)
Record World := {
  now_ms : Z;                                        (* Date.now() *)
  now_iso : string;                                  (* new Date().toISOString() *)
  keccak256 : list byte -> list byte;                (* Keccak-256 digest *)
  signMessage : Wallet -> list byte -> list byte;    (* wallet.signMessage: signs the EIP-191 prefixed message *)
  checksum_ok : string -> bool;                      (* EIP-55 check of an address *)
  walletOfKey : string -> option Wallet;             (* new ethers.Wallet(key, provider) *)
  getLastIndex : Z -> string -> option Z;
  uploadJson : string -> obj -> option string;       (* pinata uploadJson(...).cid *)
  sendGiveFeedback : SubmitArgs -> option string;    (* the transaction hash *)
  waitReceipt : string -> option Z;                  (* tx.wait().blockNumber *)
  toNumberExotic : value -> number;                  (* Number(v) on strings, arrays, objects *)
}.

(** A computation: the calls made so far and a value or an exception. *)
Record M (A : Type) := mkM {
  log : list event;
  outcome : result A;
}.
Arguments mkM {A} log outcome.
Arguments log {A} m.
Arguments outcome {A} m.

#[global] Instance M_ret : MRet M := fun A a => mkM [] (Ok a).
#[global] Instance M_bind : MBind M := fun A B f m =>
  match outcome m with
  | Ok a => mkM (log m ++ log (f a)) (outcome (f a))
  | Err e => mkM (log m) (Err e)
  end.

Definition lift {A} (r : result A) : M A := mkM [] r.

(** An outside call: logged, then its answer or the error [e]. *)
Definition call {A} (ev : event) (answer : option A) (e : error) : M A :=
  mkM [ev] (of_option e answer).

(** [try { m } catch (error) { h }]. *)
Definition try_catch {A} (m : M A) (h : error -> M A) : M A :=
  match outcome m with
  | Ok a => m
  | Err e => mkM (log m ++ log (h e)) (outcome (h e))
  end.

(** [ethers.keccak256(data)] on a hex data string. *)
Definition ethers_keccak256 (w : World) (data : string) : result string :=
  bs ← Hex.getBytes data;
  mret (Hex.hexlify (keccak256 w bs)).

(** [ethers.toUtf8Bytes(s)]. *)
Definition toUtf8Bytes (s : string) : list byte := list_byte_of_string s.

(** [uint8array.set(src, 0)] for [src] no longer than the array. *)
Definition array_set (dst src : list byte) : list byte :=
  src ++ drop (length src) dst.

(** Convert string to bytes32. *)
Definition stringToBytes32 (text : string) : string :=
  if negb (JsString.truthy text) then "0x" +:+ JsString.repeat "00" 32
  else
    let encoded := toUtf8Bytes text in
    let padded := replicate 32 x00 in
    let length := Nat.min (length encoded) 32 in
    let padded := array_set padded (take length encoded) in
    Hex.hexlify padded.

(** [Math.floor(Date.now() / 1000) + expiryHours * 3600]: the product
    and the sum are rounded to doubles; the quotient of a time value by
    1000 has the floor of the exact quotient. *)
Definition expiryOf (w : World) (expiryHours : Z) : Z :=
  to_double (now_ms w / 1000 + to_double (expiryHours * 3600)).

(** Sign feedback authorization. *)
Definition signFeedbackAuth (w : World)
    (tokenId : number) (clientAddress : string) (indexLimit : number)
    (chainId : number) (identityRegistryAddress : string)
    (wallet : Wallet) (expiryHours : option Z) : result string :=
  let expiryHours := default 24 expiryHours in
  expiry ← BigInt (Int (expiryOf w expiryHours));
  let signerAddress := address wallet in
  tokenId' ← BigInt tokenId;
  indexLimit' ← BigInt indexLimit;
  chainId' ← BigInt chainId;
  authBytes ← Abi.encode (checksum_ok w)
    [ Abi.Uint256 tokenId';
      Abi.Address clientAddress;
      Abi.Uint256 indexLimit';
      Abi.Uint256 expiry;
      Abi.Uint256 chainId';
      Abi.Address identityRegistryAddress;
      Abi.Address signerAddress ];
  let authData := Hex.hexlify authBytes in
  messageHash ← ethers_keccak256 w authData;
  hashBytes ← Hex.getBytes messageHash;
  let signature := Hex.hexlify (signMessage w wallet hashBytes) in
  let authDataNoPrefix :=
    if JsString.startsWith authData "0x" then JsString.slice 2 authData
    else authData in
  let sigNoPrefix :=
    if JsString.startsWith signature "0x" then JsString.slice 2 signature
    else signature in
  mret ("0x" +:+ authDataNoPrefix +:+ sigNoPrefix).

Definition opt_string (o : option string) : value :=
  match o with Some s => VStr s | None => VUndefined end.

Definition opt_object (o : option obj) : value :=
  match o with Some x => VObj x | None => VUndefined end.

(** The loop that copies the entries that are neither [undefined] nor
    [null]. *)
Definition clean (feedbackData : obj) : obj :=
  fold_left
    (fun cleaned kv =>
       match snd kv with
       | VUndefined | VNull => cleaned
       | v => obj_set (fst kv) v cleaned
       end)
    feedbackData [].

(** Prepare feedback file according to spec. *)
Definition prepareFeedback (w : World)
    (agentId clientAddress : string) (chainId : number)
    (identityRegistryAddress : string)
    (score : option Q) (tags : option (list string))
    (text capability name skill task : option string)
    (context proofOfPayment extra : option obj) : result obj :=
  let agentIdParts := JsString.split ":" agentId in
  match agentIdParts with
  | [_; p1] =>
      if negb (JsString.truthy p1) then Err InvalidIdentifierInPrepare
      else
        let tokenId := parseInt p1 in
        let tagsArray := default [] tags in
        let createdAt := now_iso w in
        let feedbackData : obj :=
          [ ("agentRegistry",
             VStr ("eip155:" +:+ toString chainId +:+ ":"
                   +:+ identityRegistryAddress));
            ("agentId", VNum tokenId);
            ("clientAddress",
             VStr ("eip155:" +:+ toString chainId +:+ ":" +:+ clientAddress));
            ("createdAt", VStr createdAt);
            ("feedbackAuth", VStr "");
            ("score",
             VNum (match score with
                   | Some s => Math_round s
                   | None => Int 0
                   end));
            ("tag1",
             match tagsArray with
             | t :: _ => if JsString.truthy t then VStr t else VUndefined
             | [] => VUndefined
             end);
            ("tag2",
             match tagsArray with
             | _ :: t :: _ => VStr t
             | _ => VUndefined
             end);
            ("skill", opt_string skill);
            ("context", opt_object context);
            ("task", opt_string task);
            ("capability", opt_string capability);
            ("name", opt_string name);
            ("proofOfPayment", opt_object proofOfPayment) ] in
        let cleaned := clean feedbackData in
        Ok (match extra with
            | Some e => obj_assign cleaned e
            | None => cleaned
            end)
  | _ => Err InvalidIdentifierInPrepare
  end.

(** "Parse agent ID" in giveFeedback: the split, the check and the two
    [parseInt]. *)
Definition parseAgentId (agentId : string) : result (number * number) :=
  let agentIdParts := JsString.split ":" agentId in
  match agentIdParts with
  | [p0; p1] =>
      if negb (JsString.truthy p0) || negb (JsString.truthy p1)
      then Err InvalidIdentifier
      else Ok (parseInt p0, parseInt p1)
  | _ => Err InvalidIdentifier
  end.

(** The registry lookup that opens giveFeedback. *)
Definition lookupRegistries (chainId : Z) : result Registries :=
  match DEFAULT_REGISTRIES chainId with
  | Some r =>
      if negb (JsString.truthy (IDENTITY r))
         || negb (JsString.truthy (REPUTATION r))
      then Err UnsupportedNetwork
      else Ok r
  | None => Err UnsupportedNetwork
  end.

(** "Setup provider and wallet from signer". *)
Definition connectWallet (w : World) (signer : Signer) : result Wallet :=
  match signer with
  | SignerKey key => of_option InvalidPrivateKey (walletOfKey w key)
  | SignerWallet wallet => Ok wallet
  | SignerOther => Err UnsupportedSigner
  end.

(** "Get current feedback index": whatever is thrown inside the [try],
    by [BigInt] or by the read, is caught. *)
Definition resolveIndex (w : World) (tokenId : number)
    (clientAddress : string) : M number :=
  try_catch
    (tokenId' ← lift (BigInt tokenId);
     lastIndex ← call (ReadLastIndex tokenId' clientAddress)
                   (getLastIndex w tokenId' clientAddress)
                   RegistryReadFailed;
     mret (succ (ofBigInt lastIndex)))
    (fun _ => mret (Int 1)).

Definition zeroHash : string := "0x" +:+ JsString.repeat "00" 32.

(** The string that is hashed after a successful upload. *)
Definition sortedJson (feedbackFile : obj) : option string :=
  Json.stringify (Some (Json.sort (obj_keys feedbackFile)))
    (VObj feedbackFile).

(** "Handle IPFS storage": the pair (feedbackUri, feedbackHash). *)
Definition storeFeedback (w : World) (contractConfig : ContractConfig)
    (feedbackFile : obj) : M (string * string) :=
  match cc_pinataJwt contractConfig with
  | Some jwt =>
      if JsString.truthy jwt then
        try_catch
          (cid ← call (UploadJson jwt feedbackFile)
                   (uploadJson w jwt feedbackFile) UploadFailed;
           let feedbackUri := "ipfs://" +:+ cid in
           match sortedJson feedbackFile with
           | Some json =>
               mret (feedbackUri,
                     Hex.hexlify (keccak256 w (toUtf8Bytes json)))
           | None => mret (feedbackUri, zeroHash)
           end)
          (fun _ => mret (EmptyString, zeroHash))
      else mret (EmptyString, zeroHash)
  | None => mret (EmptyString, zeroHash)
  end.

(** [(tags && tags[i]) || ''] for [i] = 0, 1. *)
Definition tagOrEmpty (tags : option (list string)) (i : nat) : string :=
  match tags with
  | Some l => default EmptyString (l !! i)
  | None => EmptyString
  end.

(** [feedbackFile.score !== undefined ? Number(feedbackFile.score) : 0]. *)
Definition onChainScore (w : World) (feedbackFile : obj) : number :=
  match obj_get "score" feedbackFile with
  | None | Some VUndefined => Int 0
  | Some v => ToNumber (toNumberExotic w) v
  end.

(** What giveFeedback holds when it reaches "Handle IPFS storage". *)
Record Prepared := {
  p_tokenId : number;
  p_feedbackIndex : number;
  p_feedbackFile : obj;
  p_feedbackAuth : string;
  p_score : number;
  p_tag1 : string;
  p_tag2 : string;
}.

(** giveFeedback, from its first line to "Prepare on-chain data". *)
Definition prepareSubmission (w : World) (feedbackParams : FeedbackParams)
    (contractConfig : ContractConfig) (signer : Signer) : M Prepared :=
  defaultRegistries ← lift (lookupRegistries (cc_chainId contractConfig));
  let identityRegistryAddress := IDENTITY defaultRegistries in
  '(chainId, tokenId) ← lift (parseAgentId (fp_agentId feedbackParams));
  wallet ← lift (connectWallet w signer);
  let clientAddress := address wallet in
  feedbackIndex ← resolveIndex w tokenId clientAddress;
  feedbackFile ← lift (prepareFeedback w
    (fp_agentId feedbackParams) clientAddress chainId
    identityRegistryAddress
    (fp_score feedbackParams) (fp_tags feedbackParams)
    (fp_text feedbackParams) (fp_capability feedbackParams)
    (fp_name feedbackParams) (fp_skill feedbackParams)
    (fp_task feedbackParams) (fp_context feedbackParams)
    (fp_proofOfPayment feedbackParams) (fp_extra feedbackParams));
  feedbackAuth ← lift (signFeedbackAuth w tokenId clientAddress
    feedbackIndex chainId identityRegistryAddress wallet None);
  let feedbackFile := obj_set "feedbackAuth" (VStr feedbackAuth) feedbackFile in
  let score := onChainScore w feedbackFile in
  let tag1 := stringToBytes32 (tagOrEmpty (fp_tags feedbackParams) 0) in
  let tag2 := stringToBytes32 (tagOrEmpty (fp_tags feedbackParams) 1) in
  mret {|
    p_tokenId := tokenId;
    p_feedbackIndex := feedbackIndex;
    p_feedbackFile := feedbackFile;
    p_feedbackAuth := feedbackAuth;
    p_score := score;
    p_tag1 := tag1;
    p_tag2 := tag2;
  |}.

(** The arguments handed to the registry's giveFeedback. *)
Definition submitArgs (p : Prepared) (tokenId' : Z) (authBytes : list byte)
    (feedbackUri feedbackHash : string) : SubmitArgs :=
  {| sub_tokenId := tokenId';
     sub_score := p_score p;
     sub_tag1 := p_tag1 p;
     sub_tag2 := p_tag2 p;
     sub_feedbackUri := feedbackUri;
     sub_feedbackHash := feedbackHash;
     sub_feedbackAuth := authBytes |}.

(** giveFeedback, from "Submit to blockchain" to its end. *)
Definition submitAndConfirm (w : World) (p : Prepared)
    (feedbackUri feedbackHash : string) : M FeedbackResult :=
  tokenId' ← lift (BigInt (p_tokenId p));
  authBytes ← lift (Hex.getBytes (p_feedbackAuth p));
  let args := submitArgs p tokenId' authBytes feedbackUri feedbackHash in
  tx ← call (SubmitFeedback args) (sendGiveFeedback w args)
         SubmissionRejected;
  block ← call (AwaitReceipt tx) (waitReceipt w tx) ConfirmationFailed;
  mret {|
    transactionHash := tx;
    blockNumber := block;
    feedbackIndex := p_feedbackIndex p;
    feedbackFile := p_feedbackFile p;
    feedbackUri := feedbackUri;
  |}.

(** Give feedback with user-passed signer: the three parts in a row. *)
Definition giveFeedback (w : World) (feedbackParams : FeedbackParams)
    (contractConfig : ContractConfig) (signer : Signer)
  : M FeedbackResult :=
  p ← prepareSubmission w feedbackParams contractConfig signer;
  '(feedbackUri, feedbackHash) ←
    storeFeedback w contractConfig (p_feedbackFile p);
  submitAndConfirm w p feedbackUri feedbackHash.

End Execution.

(** ** The IPFS client: [get] over several gateways *)

Module Ipfs.

Record Response := {
  ok : bool;
  status : Z;
  text : option string;     (* response.text(); None when reading fails *)
}.

(** What a [fetch] comes to, and when (milliseconds after the call). *)
Record Fetched := {
  settles_at : nat;
  response : option Response;   (* None: network error or timeout *)
}.

Inductive settled (A : Type) :=
| Fulfilled (value : A)
| Rejected.
Arguments Fulfilled {A} value.
Arguments Rejected {A}.

(** A promise of the run: when it settles and to what. *)
Record promise (A : Type) := {
  at_ms : nat;
  settlement : settled A;
}.
Arguments at_ms {A} p.
Arguments settlement {A} p.

Record IPFSClientConfig := {
  pinataJwt : option string;
  pinataGateway : option string;
}.

(** The async arrow of [get]: the body when the response is ok, a
    rejection otherwise. *)
Definition fetchText (fetch : string -> Fetched) (gateway : string)
  : promise string :=
  let f := fetch gateway in
  {| at_ms := settles_at f;
     settlement :=
       match response f with
       | Some r =>
           if ok r then
             match text r with
             | Some t => Fulfilled t
             | None => Rejected
             end
           else Rejected
       | None => Rejected
       end |}.

Fixpoint insert_by_time (x : nat * nat) (l : list (nat * nat))
  : list (nat * nat) :=
  match l with
  | [] => [x]
  | y :: r =>
      if (fst x <=? fst y)%nat then x :: l else y :: insert_by_time x r
  end.

(** The order in which the promises settle: by time, the earlier in
    the list first among those that settle together. *)
Definition settle_order {A} (ps : list (promise A)) : list nat :=
  map snd
    (foldr insert_by_time []
       (zip (map at_ms ps) (seq 0 (length ps)))).

(** [Promise.allSettled(ps)]: every promise, when it settles, writes
    its outcome at its own index of the result array; the array is
    handed over once the last one has settled.  [None] is a slot not
    written yet. *)
Definition allSettled {A} (ps : list (promise A))
  : list (option (settled A)) :=
  fold_left
    (fun values i =>
       match ps !! i with
       | Some p => <[i := Some (settlement p)]> values
       | None => values
       end)
    (settle_order ps)
    (replicate (length ps) None).

(** The [for] loop over the results: the first fulfilled one. *)
Fixpoint firstFulfilled {A} (results : list (option (settled A)))
  : option A :=
  match results with
  | [] => None
  | Some (Fulfilled v) :: _ => Some v
  | _ :: r => firstFulfilled r
  end.

Definition gatewayUrls (IPFS_GATEWAYS : list string)
    (config : IPFSClientConfig) (cid : string) : list string :=
  let configured :=
    match pinataGateway config with
    | Some g => if JsString.truthy g then g else "https://gateway.pinata.cloud"
    | None => "https://gateway.pinata.cloud"
    end in
  map (fun gateway =>
         JsString.stripTrailingSlash gateway +:+ "/ipfs/" +:+ cid)
      (configured :: IPFS_GATEWAYS).

(** Get data from IPFS by CID using gateways.  [IPFS_GATEWAYS] comes
    from utils/constants, which the sources do not include, and is a
    parameter.  The first component is the list of fetches issued, all
    of them before any result is looked at. *)
Definition get (IPFS_GATEWAYS : list string) (fetch : string -> Fetched)
    (config : IPFSClientConfig) (cid : string)
  : list string * result string :=
  let cid :=
    if JsString.startsWith cid "ipfs://" then JsString.slice 7 cid
    else cid in
  let gateways := gatewayUrls IPFS_GATEWAYS config cid in
  let promises := map (fetchText fetch) gateways in
  let results := allSettled promises in
  (gateways, of_option ContentUnavailable (firstFulfilled results)).

End Ipfs.

(** ** HTTP as the crawler sees it *)

Module Http.

Record Request := {
  url : string;
  method : string;
  body : option string;
}.

Record HttpResponse := {
  ok : bool;                       (* response.ok: a 2xx status *)
  contentType : option string;     (* headers.get('content-type') *)
  text : string;                   (* the body *)
}.

(** The remote side and the JSON parser.  [fetch] is [None] on a
    transport error or a timeout; [JSON_parse] is [None] when
    [JSON.parse] throws. *)
Record Net := {
  fetch : Request -> option HttpResponse;
  JSON_parse : string -> option value;
}.

Definition GET (u : string) : Request :=
  {| url := u; method := "GET"; body := None |}.

End Http.

(** ** The endpoint crawler (JSON-RPC probe over candidate paths) *)

Module EndpointCrawler.
Import Http.

Record McpCapabilities := {
  mcpTools : option (list value);
  mcpPrompts : option (list value);
  mcpResources : option (list value);
}.

Record A2aCapabilities := {
  a2aSkills : list string;
}.

(** Helper to create JSON-RPC request (params omitted, requestId 1). *)
Definition createJsonRpcRequest (method : string) : obj :=
  [ ("jsonrpc", VStr "2.0");
    ("method", VStr method);
    ("id", VNum (Int 1));
    ("params", VObj []) ].

(** [data.result !== undefined ? data.result : data]; reading a
    property of [null] throws, which is [None]. *)
Definition unwrapResult (data : value) : option value :=
  match data with
  | VNull | VUndefined => None
  | _ => Some (match get data "result" with
               | VUndefined => data
               | r => r
               end)
  end.

Definition newline : ascii := "010"%char.

Fixpoint firstDataLine (lines : list string) : option string :=
  match lines with
  | [] => None
  | line :: rest =>
      if JsString.startsWith line "data: " then Some (JsString.slice 6 line)
      else firstDataLine rest
  end.

(** Parse Server-Sent Events (SSE) format response: the first line that
    starts with [data: ] decides; [null] when there is none or when
    anything throws. *)
Definition _parseSseResponse (net : Net) (sseText : string) : value :=
  match firstDataLine (JsString.split newline sseText) with
  | Some jsonStr =>
      match JSON_parse net jsonStr with
      | Some data => default VNull (unwrapResult data)
      | None => VNull
      end
  | None => VNull
  end.

(** Make a JSON-RPC call and return the result; [null] on any failure.
    The request made comes first. *)
Definition _jsonRpcCall (net : Net) (u : string) (rpcMethod : string)
  : Request * value :=
  let payload := createJsonRpcRequest rpcMethod in
  let req := {| url := u; method := "POST";
                body := Json.stringify None (VObj payload) |} in
  (req,
   match fetch net req with
   | None => VNull
   | Some resp =>
       if negb (ok resp) then VNull
       else
         let contentType := default EmptyString (contentType resp) in
         let text := text resp in
         let sse :=
           if JsString.includes contentType "text/event-stream"
              || JsString.includes text "event: message"
           then _parseSseResponse net text
           else VNull in
         if truthy sse then sse
         else
           match JSON_parse net text with
           | Some result => default VNull (unwrapResult result)
           | None => VNull
           end
   end).

(** [v && typeof v === 'object']. *)
Definition isObjectLike (v : value) : bool := truthy v && typeof_object v.

(** [k in v] once [v] is known to be an object or an array. *)
Definition hasKey (k : string) (v : value) : bool :=
  match v with
  | VObj o => bool_decide (is_Some (obj_get k o))
  | _ => false
  end.

(** The loops that push [tool.name] and [prompt.name]. *)
Definition namesIn (reply : value) (key : string) : list value :=
  if isObjectLike reply && hasKey key reply then
    match get reply key with
    | VArr items =>
        omap (fun item =>
                if isObjectLike item && hasKey "name" item
                then Some (get item "name") else None)
             items
    | _ => []
    end
  else [].

(** The loop that pushes [resource.uri || resource.name]. *)
Definition resourcesIn (reply : value) : list value :=
  if isObjectLike reply && hasKey "resources" reply then
    match get reply "resources" with
    | VArr items =>
        omap (fun resource =>
                if isObjectLike resource then
                  let name :=
                    if truthy (get resource "uri") then get resource "uri"
                    else get resource "name" in
                  if truthy name then Some name else None
                else None)
             items
    | _ => []
    end
  else [].

Definition nonEmpty {A} (l : list A) : bool := (0 <? length l)%nat.

Definition someIfNonEmpty {A} (l : list A) : option (list A) :=
  if nonEmpty l then Some l else None.

(** One turn of the loop over the paths: the three calls, all issued
    before any reply is used, and the capabilities when a list is not
    empty. *)
Definition probe (net : Net) (u : string)
  : list Request * option McpCapabilities :=
  let '(r1, tools) := _jsonRpcCall net u "tools/list" in
  let '(r2, resources) := _jsonRpcCall net u "resources/list" in
  let '(r3, prompts) := _jsonRpcCall net u "prompts/list" in
  let mcpTools := namesIn tools "tools" in
  let mcpResources := resourcesIn resources in
  let mcpPrompts := namesIn prompts "prompts" in
  ([r1; r2; r3],
   if nonEmpty mcpTools || nonEmpty mcpResources || nonEmpty mcpPrompts
   then Some {| mcpTools := someIfNonEmpty mcpTools;
                mcpResources := someIfNonEmpty mcpResources;
                mcpPrompts := someIfNonEmpty mcpPrompts |}
   else None).

Definition endpointPaths : list string := [EmptyString; "/mcp"; "/sse"].

Fixpoint tryPaths (net : Net) (base : string) (paths : list string)
  : list Request * option McpCapabilities :=
  match paths with
  | [] => ([], None)
  | path :: rest =>
      let '(reqs, found) := probe net (base +:+ path) in
      match found with
      | Some caps => (reqs, Some caps)
      | None =>
          let '(reqs', r) := tryPaths net base rest in
          (reqs ++ reqs', r)
      end
  end.

(** Try to fetch capabilities via JSON-RPC. *)
Definition _fetchViaJsonRpc (net : Net) (httpUrl : string)
  : list Request * option McpCapabilities :=
  tryPaths net (JsString.stripTrailingSlash httpUrl) endpointPaths.

Definition nameFields : list string := ["name"; "id"; "identifier"; "title"].

Fixpoint firstStringField (fields : list string) (o : obj)
  : option string :=
  match fields with
  | [] => None
  | f :: rest =>
      match obj_get f o with
      | Some (VStr s) => Some s
      | _ => firstStringField rest o
      end
  end.

(** What one entry of a list pushes: itself when a string, its first
    string-valued name field when an object, nothing otherwise. *)
Definition itemName (item : value) : option string :=
  match item with
  | VStr s => Some s
  | VObj o => firstStringField nameFields o
  | _ => None
  end.

(** [key in holder && Array.isArray(holder[key])], then the loop over
    the items; [holder] is an object or an array. *)
Definition collect (holder : value) (key : string) : list string :=
  if hasKey key holder then
    match get holder key with
    | VArr items => omap itemName items
    | _ => []
    end
  else [].

Fixpoint containerLoop (data : value) (key : string)
    (containerKeys : list string) (result : list string) : list string :=
  match containerKeys with
  | [] => result
  | containerKey :: rest =>
      if hasKey containerKey data && isObjectLike (get data containerKey)
      then
        let result := result ++ collect (get data containerKey) key in
        if nonEmpty result then result
        else containerLoop data key rest result
      else containerLoop data key rest result
  end.

(** Extract a list of strings from nested JSON data.  [key in data]
    throws on a primitive. *)
Definition _extractList (data : value) (key : string)
  : result (list string) :=
  _ ← has key data;
  let result := collect data key in
  mret (if (length result =? 0)%nat
        then containerLoop data key
               ["capabilities"; "abilities"; "features"] result
        else result).

(** The static fallback of fetchMcpCapabilities. *)
Definition agentcardCapabilities (net : Net) (endpoint : string)
  : list Request * option McpCapabilities :=
  let req := GET (endpoint +:+ "/agentcard.json") in
  ([req],
   match fetch net req with
   | Some response =>
       if ok response then
         match JSON_parse net (text response) with
         | Some data =>
             match _extractList data "tools", _extractList data "prompts",
                   _extractList data "resources" with
             | Ok tools, Ok prompts, Ok resources =>
                 if nonEmpty tools || nonEmpty prompts || nonEmpty resources
                 then Some {| mcpTools := Some (VStr <$> tools);
                              mcpPrompts := Some (VStr <$> prompts);
                              mcpResources := Some (VStr <$> resources) |}
                 else None
             | _, _, _ => None
             end
         | None => None
         end
       else None
   | None => None
   end).

Definition isHttpUrl (endpoint : string) : bool :=
  JsString.startsWith endpoint "http://"
  || JsString.startsWith endpoint "https://".

(** Fetch MCP capabilities (tools, prompts, resources) from an MCP
    server. *)
Definition fetchMcpCapabilities (net : Net) (endpoint : string)
  : list Request * option McpCapabilities :=
  if negb (isHttpUrl endpoint) then ([], None)
  else
    let '(reqs, capabilities) := _fetchViaJsonRpc net endpoint in
    match capabilities with
    | Some caps => (reqs, Some caps)
    | None =>
        let '(reqs', r) := agentcardCapabilities net endpoint in
        (reqs ++ reqs', r)
    end.

Fixpoint tryAgentcards (net : Net) (agentcardUrls : list string)
  : list Request * option A2aCapabilities :=
  match agentcardUrls with
  | [] => ([], None)
  | agentcardUrl :: rest =>
      let req := GET agentcardUrl in
      let found :=
        match fetch net req with
        | Some response =>
            if ok response then
              match JSON_parse net (text response) with
              | Some data =>
                  match _extractList data "skills" with
                  | Ok skills =>
                      if nonEmpty skills then Some {| a2aSkills := skills |}
                      else None
                  | Err _ => None
                  end
              | None => None
              end
            else None
        | None => None
        end in
      match found with
      | Some r => ([req], Some r)
      | None =>
          let '(reqs, r) := tryAgentcards net rest in
          (req :: reqs, r)
      end
  end.

(** Fetch A2A capabilities (skills) from an A2A server. *)
Definition fetchA2aCapabilities (net : Net) (endpoint : string)
  : list Request * option A2aCapabilities :=
  if negb (isHttpUrl endpoint) then ([], None)
  else
    tryAgentcards net
      [ endpoint +:+ "/agentcard.json";
        endpoint +:+ "/.well-known/agent.json";
        JsString.stripTrailingSlash endpoint +:+ "/.well-known/agent.json" ].

End EndpointCrawler.

(** ** The second copy of the crawler (plain GET of three documents)

    The repository holds a second EndpointCrawler class.  It differs from
    the one above in [_fetchViaJsonRpc], which keeps its name and its
    comments but issues three GET requests, one after the other, and
    hands back the parsed documents as they are. *)

Module EndpointCrawlerGet.
Import Http.

Record McpCapabilities := {
  mcpTools : value;
  mcpResources : value;
  mcpPrompts : value;
}.

(** [await fetch(u, { method: 'GET' }).then(res => res.json())]:
    [None] when the fetch or the parse throws. *)
Definition getJson (net : Net) (u : string) : option value :=
  match fetch net (GET u) with
  | Some res => JSON_parse net (text res)
  | None => None
  end.

(** Try to fetch capabilities via JSON-RPC. *)
Definition _fetchViaJsonRpc (net : Net) (httpUrl : string)
  : list Request * option McpCapabilities :=
  let r1 := GET (httpUrl +:+ "/tools") in
  let r2 := GET (httpUrl +:+ "/resources") in
  let r3 := GET (httpUrl +:+ "/prompts") in
  match getJson net (httpUrl +:+ "/tools") with
  | None => ([r1], None)
  | Some tools =>
      match getJson net (httpUrl +:+ "/resources") with
      | None => ([r1; r2], None)
      | Some resources =>
          match getJson net (httpUrl +:+ "/prompts") with
          | None => ([r1; r2; r3], None)
          | Some prompts =>
              ([r1; r2; r3],
               Some {| mcpTools := tools;
                       mcpResources := resources;
                       mcpPrompts := prompts |})
          end
      end
  end.

Definition ofExtracted (c : EndpointCrawler.McpCapabilities)
  : McpCapabilities :=
  {| mcpTools := VArr (default [] (EndpointCrawler.mcpTools c));
     mcpResources := VArr (default [] (EndpointCrawler.mcpResources c));
     mcpPrompts := VArr (default [] (EndpointCrawler.mcpPrompts c)) |}.

(** Fetch MCP capabilities (tools, prompts, resources) from an MCP
    server: the same text as in the first copy. *)
Definition fetchMcpCapabilities (net : Net) (endpoint : string)
  : list Request * option McpCapabilities :=
  if negb (EndpointCrawler.isHttpUrl endpoint) then ([], None)
  else
    let '(reqs, capabilities) := _fetchViaJsonRpc net endpoint in
    match capabilities with
    | Some caps => (reqs, Some caps)
    | None =>
        let '(reqs', r) :=
          EndpointCrawler.agentcardCapabilities net endpoint in
        (reqs ++ reqs', ofExtracted <$> r)
    end.

End EndpointCrawlerGet.

(** ** Sample collaborators and inputs for the worked examples *)

Module Samples.
Import Execution.

Definition wallet : Wallet := {|
  address := "0x00000000000000000000000000000000000000aa";
  privateKey := "sample key";
|}.

(** A world in which every collaborator answers.  The digest and the
    signature are stand-ins of the right length. *)
Definition world : World := {|
  now_ms := 1700000000123;
  now_iso := "2023-11-14T22:13:20.123Z";
  keccak256 := fun bs => take 32 (bs ++ replicate 32 x00);
  signMessage := fun _ digest => digest ++ digest ++ [x1b];
  checksum_ok := fun _ => true;
  walletOfKey := fun key => Some {| address := address wallet; privateKey := key |};
  getLastIndex := fun _ _ => Some 7;
  uploadJson := fun _ _ => Some "bafysample";
  sendGiveFeedback := fun _ => Some "0xfeed";
  waitReceipt := fun _ => Some 4242;
  toNumberExotic := fun _ => NaN;
|}.

(** The same world with another answer of the registry read. *)
Definition withLastIndex (answer : option Z) (w : World) : World := {|
  now_ms := now_ms w;
  now_iso := now_iso w;
  keccak256 := keccak256 w;
  signMessage := signMessage w;
  checksum_ok := checksum_ok w;
  walletOfKey := walletOfKey w;
  getLastIndex := fun _ _ => answer;
  uploadJson := uploadJson w;
  sendGiveFeedback := sendGiveFeedback w;
  waitReceipt := waitReceipt w;
  toNumberExotic := toNumberExotic w;
|}.

(** The same world with another answer of the pinning service. *)
Definition withUpload (answer : option string) (w : World) : World := {|
  now_ms := now_ms w;
  now_iso := now_iso w;
  keccak256 := keccak256 w;
  signMessage := signMessage w;
  checksum_ok := checksum_ok w;
  walletOfKey := walletOfKey w;
  getLastIndex := getLastIndex w;
  uploadJson := fun _ _ => answer;
  sendGiveFeedback := sendGiveFeedback w;
  waitReceipt := waitReceipt w;
  toNumberExotic := toNumberExotic w;
|}.

Definition params : FeedbackParams := {|
  fp_agentId := "11155111:42";
  fp_score := Some (97 # 1);
  fp_tags := Some ["helpful"; "fast"];
  fp_text := None;
  fp_capability := None;
  fp_name := None;
  fp_skill := None;
  fp_task := None;
  fp_context := None;
  fp_proofOfPayment := None;
  fp_extra := None;
|}.

Definition withAgentId (agentId : string) (p : FeedbackParams)
  : FeedbackParams := {|
  fp_agentId := agentId;
  fp_score := fp_score p;
  fp_tags := fp_tags p;
  fp_text := fp_text p;
  fp_capability := fp_capability p;
  fp_name := fp_name p;
  fp_skill := fp_skill p;
  fp_task := fp_task p;
  fp_context := fp_context p;
  fp_proofOfPayment := fp_proofOfPayment p;
  fp_extra := fp_extra p;
|}.

Definition withScore (score : option Q) (p : FeedbackParams)
  : FeedbackParams := {|
  fp_agentId := fp_agentId p;
  fp_score := score;
  fp_tags := fp_tags p;
  fp_text := fp_text p;
  fp_capability := fp_capability p;
  fp_name := fp_name p;
  fp_skill := fp_skill p;
  fp_task := fp_task p;
  fp_context := fp_context p;
  fp_proofOfPayment := fp_proofOfPayment p;
  fp_extra := fp_extra p;
|}.

Definition withContext (context : option obj) (p : FeedbackParams)
  : FeedbackParams := {|
  fp_agentId := fp_agentId p;
  fp_score := fp_score p;
  fp_tags := fp_tags p;
  fp_text := fp_text p;
  fp_capability := fp_capability p;
  fp_name := fp_name p;
  fp_skill := fp_skill p;
  fp_task := fp_task p;
  fp_context := context;
  fp_proofOfPayment := fp_proofOfPayment p;
  fp_extra := fp_extra p;
|}.

Definition withExtra (extra : option obj) (p : FeedbackParams)
  : FeedbackParams := {|
  fp_agentId := fp_agentId p;
  fp_score := fp_score p;
  fp_tags := fp_tags p;
  fp_text := fp_text p;
  fp_capability := fp_capability p;
  fp_name := fp_name p;
  fp_skill := fp_skill p;
  fp_task := fp_task p;
  fp_context := fp_context p;
  fp_proofOfPayment := fp_proofOfPayment p;
  fp_extra := extra;
|}.

Definition config : ContractConfig := {|
  cc_chainId := 11155111;
  cc_rpcUrl := "https://rpc.example";
  cc_pinataJwt := Some "jwt";
  cc_pinataGateway := None;
|}.

Definition signer : Signer := SignerWallet wallet.

(** A feedback whose context is the object with the one key foo. *)
Definition nestedParams : FeedbackParams :=
  withContext (Some [("foo", VStr "bar")]) params.

End Samples.

(** ** Sample gateways and a sample MCP server *)

Module NetSamples.

(** Three gateways: the configured one fails after 50 ms, the first
    fallback answers after 100 ms, the second after 10 ms. *)
Definition fallbackGateways : list string :=
  ["https://b.example"; "https://c.example"].


Definition answer (after : nat) (content : string) : Ipfs.Fetched := {|
  Ipfs.settles_at := after;
  Ipfs.response :=
    Some {| Ipfs.ok := true; Ipfs.status := 200; Ipfs.text := Some content |};
|}.

Definition gatewayFetch (u : string) : Ipfs.Fetched :=
  if String.eqb u "https://b.example/ipfs/cid" then answer 100 "from B"
  else if String.eqb u "https://c.example/ipfs/cid" then answer 10 "from C"
  else {| Ipfs.settles_at := 50; Ipfs.response := None |}.

(** An MCP server that speaks JSON-RPC: at the root its tools list is
    empty, under /mcp it lists the tools search and fetch; it answers no
    other request. *)
Definition endpoint : string := "https://agent.example".

Definition rootReply : value :=
  VObj [ ("jsonrpc", VStr "2.0"); ("id", VNum (Int 1));
         ("result", VObj [("tools", VArr [])]) ].

Definition mcpReply : value :=
  VObj [ ("jsonrpc", VStr "2.0"); ("id", VNum (Int 1));
         ("result",
          VObj [("tools", VArr [ VObj [("name", VStr "search")];
                                 VObj [("name", VStr "fetch")] ])]) ].

Definition textOf (doc : value) : string :=
  default EmptyString (Json.stringify None doc).

Definition toolsCall : option string :=
  Json.stringify None (VObj (EndpointCrawler.createJsonRpcRequest "tools/list")).

Definition isToolsCall (req : Http.Request) (u : string) : bool :=
  String.eqb (Http.method req) "POST" && String.eqb (Http.url req) u
  && bool_decide (Http.body req = toolsCall).

Definition jsonAnswer (doc : value) : Http.HttpResponse := {|
  Http.ok := true;
  Http.contentType := Some "application/json";
  Http.text := textOf doc;
|}.

Definition mcpNet : Http.Net := {|
  Http.fetch := fun req =>
    if isToolsCall req "https://agent.example" then Some (jsonAnswer rootReply)
    else if isToolsCall req "https://agent.example/mcp"
    then Some (jsonAnswer mcpReply)
    else None;
  Http.JSON_parse := fun s =>
    if String.eqb s (textOf rootReply) then Some rootReply
    else if String.eqb s (textOf mcpReply) then Some mcpReply
    else None;
|}.

(** The same server when it also answers GET /tools, /resources and
    /prompts at the root, each with the empty list. *)
Definition isGetOf (req : Http.Request) (u : string) : bool :=
  String.eqb (Http.method req) "GET" && String.eqb (Http.url req) u.

Definition mcpNetWithLists : Http.Net := {|
  Http.fetch := fun req =>
    if isGetOf req "https://agent.example/tools"
       || isGetOf req "https://agent.example/resources"
       || isGetOf req "https://agent.example/prompts"
    then Some (jsonAnswer (VArr []))
    else Http.fetch mcpNet req;
  Http.JSON_parse := fun s =>
    if String.eqb s (textOf (VArr [])) then Some (VArr [])
    else Http.JSON_parse mcpNet s;
|}.

(** A reply that lists the tool search twice. *)
Definition repeatedReply : value :=
  VObj [("tools", VArr [ VObj [("name", VStr "search")];
                         VObj [("name", VStr "search")] ])].

(** An agent card that lists the skill translate twice. *)
Definition repeatedCard : value :=
  VObj [("skills", VArr [VStr "translate"; VStr "translate"])].

End NetSamples.

(** ** helpers/execution.ts: the paid request and the task with feedback *)

Module ExecutionTasks.
Import Execution.

(** What the x402 client's [get] comes to: a response with its data, or
    an error with [error.response.data] and [error.message] (each
    [undefined] when the error does not have it). *)
Inductive Paid :=
| PaidResponse (data : value)
| PaidError (responseData message : value).

Inductive TaskResult :=
| TaskSuccess (data : value)       (* { success: true, data } *)
| TaskFailure (error : value).     (* { success: false, error } *)

Definition success (r : TaskResult) : bool :=
  match r with TaskSuccess _ => true | TaskFailure _ => false end.

(** The object that executeTaskWithFeedback returns. *)
Inductive TaskWithFeedback :=
| FeedbackNotSubmitted (taskResult : TaskResult)
    (* feedbackResult: null, error: 'Task execution failed, feedback not submitted' *)
| FeedbackSubmitted (taskResult : TaskResult) (feedbackResult : FeedbackResult)
    (* success: true *)
| FeedbackFailed (taskResult : TaskResult) (e : error).
    (* feedbackResult: null, error: 'Feedback submission failed: ...', success: false *)

Inductive task_event :=
| PaidGet (mcpServerUrl endpoint : string) (parameters : obj)
| Feedback (ev : event).

(** [a || b]. *)
Definition or_else (a b : value) : value := if truthy a then a else b.

(** executeTask: the paid request, an error turned into a result. *)
Definition executeTask
    (paidGet : string -> string -> obj -> Signer -> Paid)
    (endpoint mcpServerUrl : string) (parameters : obj) (signer : Signer)
  : list task_event * TaskResult :=
  ([PaidGet mcpServerUrl endpoint parameters],
   match paidGet mcpServerUrl endpoint parameters signer with
   | PaidResponse data => TaskSuccess data
   | PaidError responseData message => TaskFailure (or_else responseData message)
   end).

Definition executeAgentTask
    (paidGet : string -> string -> obj -> Signer -> Paid)
    (agentEndpoint mcpServerUrl : string) (parameters : obj) (signer : Signer)
  : list task_event * TaskResult :=
  executeTask paidGet agentEndpoint mcpServerUrl parameters signer.

(** Execute task and submit feedback in one operation. *)
Definition executeTaskWithFeedback
    (paidGet : string -> string -> obj -> Signer -> Paid) (w : World)
    (agentEndpoint mcpServerUrl : string) (parameters : obj) (signer : Signer)
    (feedbackParams : FeedbackParams) (contractConfig : ContractConfig)
  : list task_event * TaskWithFeedback :=
  let '(events, taskResult) :=
    executeTask paidGet agentEndpoint mcpServerUrl parameters signer in
  if negb (success taskResult) then (events, FeedbackNotSubmitted taskResult)
  else
    let run := giveFeedback w feedbackParams contractConfig signer in
    (events ++ map Feedback (log run),
     match outcome run with
     | Ok feedbackResult => FeedbackSubmitted taskResult feedbackResult
     | Err e => FeedbackFailed taskResult e
     end).

End ExecutionTasks.

(** ** The IPFS client: uploads, unpinning and JSON reads *)

Module IpfsClient.
Import Ipfs.

(** The functions of the pinata package, called with the configured
    token.  [None] and [false] are a rejected promise. *)
Record Pinata := {
  uploadJson : option string -> value -> option string;   (* the cid *)
  uploadFile : option string -> string -> string -> string -> option string;
      (* file name, MIME type, content; the cid *)
  deleteFile : option string -> list string -> bool;
}.

Inductive pin_call :=
| CallUploadJson (jwt : option string) (data : value)
| CallUploadFile (jwt : option string) (name type content : string)
| CallDeleteFile (jwt : option string) (cids : list string).

Inductive client_error :=
| JwtRequired            (* 'pinataJwt is required' *)
| FailedToPin            (* 'Failed to pin to Pinata: ...' *)
| FailedToUploadJson     (* 'Failed to upload JSON to Pinata: ...' *)
| FailedToUnpin          (* 'Failed to unpin from Pinata: ...' *)
| RetrievalFailed        (* 'Failed to retrieve data from all IPFS gateways' *)
| JsonSyntaxError.       (* JSON.parse throws *)

Inductive answer (A : Type) :=
| Returned (a : A)
| Thrown (e : client_error).
Arguments Returned {A} a.
Arguments Thrown {A} e.

(** The constructor. *)
Definition constructor (config : IPFSClientConfig)
  : answer IPFSClientConfig :=
  match pinataJwt config with
  | Some jwt => if JsString.truthy jwt then Returned config
                else Thrown JwtRequired
  | None => Thrown JwtRequired
  end.

(** Add data to IPFS using Pinata SDK and return CID.  The inner
    [catch] takes a failed parse and a failed JSON upload alike. *)
Definition add (pinata : Pinata) (JSON_parse : string -> option value)
    (config : IPFSClientConfig) (data : string)
  : list pin_call * answer string :=
  let jwt := pinataJwt config in
  let asFile (before : list pin_call) :=
    (before ++ [CallUploadFile jwt "data.txt" "text/plain" data],
     match uploadFile pinata jwt "data.txt" "text/plain" data with
     | Some cid => Returned cid
     | None => Thrown FailedToPin
     end) in
  match JSON_parse data with
  | Some jsonData =>
      match uploadJson pinata jwt jsonData with
      | Some cid => ([CallUploadJson jwt jsonData], Returned cid)
      | None => asFile [CallUploadJson jwt jsonData]
      end
  | None => asFile []
  end.

(** Get JSON data from IPFS by CID. *)
Definition getJson (IPFS_GATEWAYS : list string) (fetch : string -> Fetched)
    (JSON_parse : string -> option value)
    (config : IPFSClientConfig) (cid : string)
  : list string * answer value :=
  let '(requests, data) := get IPFS_GATEWAYS fetch config cid in
  (requests,
   match data with
   | Ok data =>
       match JSON_parse data with
       | Some v => Returned v
       | None => Thrown JsonSyntaxError
       end
   | Err _ => Thrown RetrievalFailed
   end).

(** Pin a CID (already pinned with Pinata SDK uploads). *)
Definition pin (cid : string) : list string := [cid].

(** Unpin a CID from Pinata. *)
Definition unpin (pinata : Pinata) (config : IPFSClientConfig)
    (cid : string) : list pin_call * answer (list string) :=
  let jwt := pinataJwt config in
  ([CallDeleteFile jwt [cid]],
   if deleteFile pinata jwt [cid] then Returned [cid]
   else Thrown FailedToUnpin).

(** Add JSON data to IPFS and return CID. *)
Definition addJson (pinata : Pinata) (config : IPFSClientConfig)
    (data : value) : list pin_call * answer string :=
  let jwt := pinataJwt config in
  ([CallUploadJson jwt data],
   match uploadJson pinata jwt data with
   | Some cid => Returned cid
   | None => Thrown FailedToUploadJson
   end).

(** Get registration file from IPFS by CID. *)
Definition getRegistrationFile (IPFS_GATEWAYS : list string)
    (fetch : string -> Fetched) (JSON_parse : string -> option value)
    (config : IPFSClientConfig) (cid : string)
  : list string * answer value :=
  getJson IPFS_GATEWAYS fetch JSON_parse config cid.

End IpfsClient.

(** ** The subgraph queries *)

Module AgentQueries.
Import Http.

(** Default subgraph URLs for different chains (helpers/contracts.ts). *)
Definition DEFAULT_SUBGRAPH_URLS (chainId : Z) : option string :=
  if chainId =? 11155111
  then Some "https://api.studio.thegraph.com/query/1715584/fluidsdk/version/latest"
  else if chainId =? 84532
  then Some "https://api.studio.thegraph.com/query/1715584/fluidsdk/version/latest"
  else if chainId =? 80002
  then Some "https://api.studio.thegraph.com/query/1715584/fluidsdk/version/latest"
  else None.

Definition GET_AGENTS_QUERY : string := "
  query GetAgents($first: Int!, $orderBy: String!, $orderDirection: String!) {
    agents(
      first: $first
      orderBy: $orderBy
      orderDirection: $orderDirection
    ) {
      id
      chainId
      agentId
      agentURI
      agentURIType
      owner
      operators
      createdAt
      updatedAt

      registrationFile {
        id
        cid
        name
        description
        agentId
        mcpTools
        mcpPrompts
        mcpResources
        mcpEndpoint
        image
        active
        mcpVersion
        agentWalletChainId
        createdAt
      }

      feedback {
        id
        feedbackUri
        score
        tag1
        tag2
      }

      validations {
        validatorAddress
      }

      metadata {
        id
        key
        value
        updatedAt
      }

      totalFeedback
      lastActivity
    }
  }
".

Definition GET_AGENT_BY_ID_QUERY : string := "
  query GetAgentById($agentId: BigInt!) {
    agents(
      where: { agentId: $agentId }
      first: 1
    ) {
      id
      chainId
      agentId
      agentURI
      agentURIType
      owner
      operators
      createdAt
      updatedAt

      registrationFile {
        id
        cid
        name
        description
        agentId
        mcpTools
        mcpPrompts
        mcpResources
        mcpEndpoint
        image
        active
        mcpVersion
        agentWalletChainId
        createdAt
      }

      feedback {
        id
        feedbackUri
        score
        tag1
        tag2
      }

      validations {
        validatorAddress
      }

      metadata {
        id
        key
        value
        updatedAt
      }

      totalFeedback
      lastActivity
    }
  }
".

Inductive query_error :=
| NoSubgraphUrl (targetChainId : number)
    (* 'No subgraph URL found for chainId ...' *)
| FetchFailed            (* fetch rejects *)
| HttpError              (* 'HTTP error! status: ...' *)
| InvalidJson            (* response.json() rejects *)
| GraphQLErrors          (* 'Failed to fetch agents', 'Failed to fetch agent' *)
| PropertyOfNothing.     (* TypeError: a property of null or undefined *)

Inductive qresult (A : Type) :=
| QOk (a : A)
| QErr (e : query_error).
Arguments QOk {A} a.
Arguments QErr {A} e.

(** Helper function to get GraphQL endpoint by chainId. *)
Definition getGraphQLEndpoint (chainId : option number) : qresult string :=
  let targetChainId :=
    match chainId with
    | Some n => if truthy (VNum n) then n else Int 97
    | None => Int 97
    end in
  let endpoint :=
    match targetChainId with
    | Int z => DEFAULT_SUBGRAPH_URLS z
    | NaN => None
    end in
  match endpoint with
  | Some e => if JsString.truthy e then QOk e
              else QErr (NoSubgraphUrl targetChainId)
  | None => QErr (NoSubgraphUrl targetChainId)
  end.

(** [v.k]: a TypeError on null and undefined. *)
Definition prop (v : value) (k : string) : qresult value :=
  match v with
  | VNull | VUndefined => QErr PropertyOfNothing
  | _ => QOk (get v k)
  end.

(** The POST of a query with its variables. *)
Definition graphqlRequest (endpoint query : string) (variables : obj)
  : Request :=
  {| url := endpoint;
     method := "POST";
     body := Json.stringify None
               (VObj [("query", VStr query); ("variables", VObj variables)]) |}.

(** From the response to [result.data], shared by the two fetches. *)
Definition resultData (net : Net) (response : option HttpResponse)
  : qresult value :=
  match response with
  | None => QErr FetchFailed
  | Some response =>
      if negb (ok response) then QErr HttpError
      else
        match JSON_parse net (text response) with
        | None => QErr InvalidJson
        | Some result =>
            match prop result "errors" with
            | QErr e => QErr e
            | QOk errors =>
                if truthy errors then QErr GraphQLErrors
                else prop result "data"
            end
        end
  end.

Definition fetchAgents (net : Net) (first : option number)
    (orderBy orderDirection : option string) (chainId : option number)
  : list Request * qresult value :=
  let first := default (Int 50) first in
  let orderBy := default "totalFeedback" orderBy in
  let orderDirection := default "desc" orderDirection in
  match getGraphQLEndpoint chainId with
  | QErr e => ([], QErr e)
  | QOk GRAPHQL_ENDPOINT =>
      let request :=
        graphqlRequest GRAPHQL_ENDPOINT GET_AGENTS_QUERY
          [ ("first", VNum first);
            ("orderBy", VStr orderBy);
            ("orderDirection", VStr orderDirection) ] in
      ([request],
       match resultData net (fetch net request) with
       | QErr e => QErr e
       | QOk data => prop data "agents"
       end)
  end.

(** [v[0]]: a TypeError on null and undefined; the first item of an
    array, the property 0 of an object, nothing on a number or a
    boolean.  The first code unit of a string is left to the parameter
    [charAt0]. *)
Definition index0 (charAt0 : string -> value) (v : value) : qresult value :=
  match v with
  | VNull | VUndefined => QErr PropertyOfNothing
  | VArr items => QOk (default VUndefined (head items))
  | VObj o => QOk (default VUndefined (obj_get "0" o))
  | VStr s => QOk (charAt0 s)
  | VNum _ | VBool _ => QOk VUndefined
  end.

(** Fetch a single agent by ID. *)
Definition fetchAgentById (net : Net) (charAt0 : string -> value)
    (agentId : string) (chainId : option number)
  : list Request * qresult value :=
  match getGraphQLEndpoint chainId with
  | QErr e => ([], QErr e)
  | QOk GRAPHQL_ENDPOINT =>
      let request :=
        graphqlRequest GRAPHQL_ENDPOINT GET_AGENT_BY_ID_QUERY
          [ ("agentId", VStr agentId) ] in
      ([request],
       match resultData net (fetch net request) with
       | QErr e => QErr e
       | QOk data =>
           match prop data "agents" with
           | QErr e => QErr e
           | QOk agents =>
               match index0 charAt0 agents with
               | QErr e => QErr e
               | QOk agent => QOk (if truthy agent then agent else VNull)
               end
           end
       end)
  end.

End AgentQueries.

(** A subgraph that answers every request with the same document. *)

Module QuerySamples.

(** A reply with one agent and an empty errors array. *)
Definition replyWithEmptyErrors : value :=
  VObj [ ("data", VObj [("agents", VArr [VObj [("agentId", VStr "7")]])]);
         ("errors", VArr []) ].

Definition subgraphNet (reply : value) : Http.Net := {|
  Http.fetch := fun _ =>
    Some {| Http.ok := true;
            Http.contentType := Some "application/json";
            Http.text := "reply" |};
  Http.JSON_parse := fun _ => Some reply;
|}.

End QuerySamples.

(** Servers for the crawler's transport: one that frames its JSON-RPC
    reply as a server-sent event, and one that answers as another does
    but with an error status. *)

Module TransportSamples.

Definition toolsJson : string := "the tools document".

Definition toolsDoc : value :=
  VObj [ ("jsonrpc", VStr "2.0"); ("id", VNum (Int 1));
         ("result",
          VObj [("tools", VArr [VObj [("name", VStr "search")]])]) ].

Definition sseBody : string :=
  "event: message"
  +:+ String EndpointCrawler.newline
        (("data: " +:+ toolsJson)
         +:+ String EndpointCrawler.newline
               (String EndpointCrawler.newline EmptyString)).

Definition sseNet : Http.Net := {|
  Http.fetch := fun _ =>
    Some {| Http.ok := true;
            Http.contentType := Some "text/event-stream";
            Http.text := sseBody |};
  Http.JSON_parse := fun s =>
    if String.eqb s toolsJson then Some toolsDoc else None;
|}.

Definition withErrorStatus (net : Http.Net) : Http.Net := {|
  Http.fetch := fun req =>
    (fun r => {| Http.ok := false;
                 Http.contentType := Http.contentType r;
                 Http.text := Http.text r |}) <$> Http.fetch net req;
  Http.JSON_parse := Http.JSON_parse net;
|}.

End TransportSamples.

(** * Properties *)

(** ** Doubles *)

Section DoubleFacts.

Lemma to_double_exact (z : Z) : Double.exact z = true -> to_double z = z.
Proof.
  unfold Double.exact. intros [Hlo Hhi]%andb_true_iff.
  apply Z.leb_le in Hlo, Hhi. unfold to_double.
  destruct (Z.eq_dec (Z.abs z) (2 ^ 53)) as [Heq|Hne].
  - assert (z = 2 ^ 53 \/ z = - 2 ^ 53) as [->| ->] by lia; reflexivity.
  - assert (Hlog : Z.log2 (Z.abs z) - 52 <= 0).
    { destruct (Z.eq_dec (Z.abs z) 0) as [H0|H0];
        [rewrite H0; vm_compute; discriminate|].
      assert (Z.log2 (Z.abs z) < 53); [|lia].
      apply Z.log2_lt_pow2; lia. }
    apply Z.leb_le in Hlog. by rewrite Hlog.
Qed.

Lemma exact_in_range (z : Z) :
  - 2 ^ 53 <= z <= 2 ^ 53 -> Double.exact z = true.
Proof.
  intros [Hlo Hhi]. unfold Double.exact.
  apply Z.leb_le in Hlo, Hhi. by rewrite Hlo, Hhi.
Qed.

(** [Number(b) + 1] for a BigInt from 0 to below 2^53. *)
Lemma succ_ofBigInt_exact (z : Z) :
  0 <= z < 2 ^ 53 -> succ (ofBigInt z) = Int (z + 1).
Proof.
  intros Hz. unfold ofBigInt, succ.
  rewrite (to_double_exact z) by (apply exact_in_range; lia).
  by rewrite (to_double_exact (z + 1)) by (apply exact_in_range; lia).
Qed.

Lemma expiryOf_exact (w : Execution.World) (hours : Z) :
  Double.exact_expiry (Execution.now_ms w) hours = true ->
  Execution.expiryOf w hours
  = Execution.now_ms w / 1000 + hours * 3600.
Proof.
  unfold Double.exact_expiry, Execution.expiryOf.
  intros [[[_ _]%andb_true_iff Hp]%andb_true_iff Hs]%andb_true_iff.
  by rewrite (to_double_exact _ Hp), (to_double_exact _ Hs).
Qed.

End DoubleFacts.

(** ** Hexadecimal strings *)

Section HexFacts.
Import Hex.

Lemma hex_value_digit_hi (b : byte) :
  hex_value (hex_digit (Byte.to_N b / 16)) = Some (Byte.to_N b / 16)%N.
Proof. destruct b; reflexivity. Qed.

Lemma hex_value_digit_lo (b : byte) :
  hex_value (hex_digit (Byte.to_N b mod 16)) = Some (Byte.to_N b mod 16)%N.
Proof. destruct b; reflexivity. Qed.

Lemma byte_of_N_nibbles (b : byte) :
  byte_of_N (16 * (Byte.to_N b / 16) + Byte.to_N b mod 16) = b.
Proof. destruct b; reflexivity. Qed.

Lemma undigits_digits (bs : list byte) : undigits (digits bs) = Some bs.
Proof.
  induction bs as [|b bs IH]; [reflexivity|].
  cbn [digits undigits].
  rewrite hex_value_digit_hi, hex_value_digit_lo, IH.
  by rewrite byte_of_N_nibbles.
Qed.

Lemma digits_app (xs ys : list byte) :
  digits (xs ++ ys) = digits xs +:+ digits ys.
Proof.
  induction xs as [|x xs IH]; [reflexivity|].
  cbn [digits app String.append]. by rewrite IH.
Qed.

Lemma length_digits (bs : list byte) :
  String.length (digits bs) = (2 * length bs)%nat.
Proof. induction bs as [|b bs IH]; cbn [digits String.length length]; lia. Qed.

Lemma startsWith_hexlify (bs : list byte) :
  JsString.startsWith (hexlify bs) "0x" = true.
Proof.
  unfold JsString.startsWith, hexlify.
  change ("0x" +:+ digits bs) with (String "0" (String "x" (digits bs))).
  cbn. by destruct (digits bs).
Qed.

Lemma slice_hexlify (bs : list byte) :
  JsString.slice 2 (hexlify bs) = digits bs.
Proof. reflexivity. Qed.

Lemma getBytes_hexlify (bs : list byte) : getBytes (hexlify bs) = Ok bs.
Proof.
  unfold getBytes. rewrite startsWith_hexlify, slice_hexlify.
  by rewrite undigits_digits.
Qed.

End HexFacts.

(** ** ABI words *)

Section AbiFacts.
Import Abi.

Lemma length_be_bytes (n : nat) (z : Z) : length (be_bytes n z) = n.
Proof.
  revert z. induction n as [|n IH]; intros z; [reflexivity|].
  cbn [be_bytes]. rewrite length_app, IH. cbn. lia.
Qed.

Lemma to_N_byte_of_N (n : N) :
  (n < 256)%N -> Byte.to_N (Hex.byte_of_N n) = n.
Proof.
  intros Hn. unfold Hex.byte_of_N.
  pose proof (byte_of_ascii_via_N (ascii_of_N n)) as H.
  symmetry in H. apply Byte.to_of_N in H. rewrite H.
  by apply N_ascii_embedding.
Qed.

(** The bytes of [be_bytes] are the digits of the number in base 256,
    the most significant first. *)
Lemma be_bytes_value (n : nat) (z : Z) :
  0 <= z < 256 ^ Z.of_nat n ->
  fold_left (fun acc b => acc * 256 + Z.of_N (Byte.to_N b)) (be_bytes n z) 0
  = z.
Proof.
  revert z. induction n as [|n IH]; intros z Hz.
  - cbn [be_bytes fold_left]. change (256 ^ Z.of_nat 0) with 1 in Hz. lia.
  - cbn [be_bytes]. rewrite fold_left_app. cbn [fold_left].
    rewrite Nat2Z.inj_succ, Z.pow_succ_r in Hz by lia.
    rewrite IH by (split; [apply Z.div_pos; lia
                          | apply Z.div_lt_upper_bound; lia]).
    rewrite to_N_byte_of_N.
    + rewrite Z2N.id by (apply Z.mod_pos_bound; lia).
      pose proof (Z.div_mod z 256 ltac:(lia)). lia.
    + pose proof (Z.mod_pos_bound z 256 ltac:(lia)). lia.
Qed.

Lemma word_uint256_in_range (z : Z) :
  0 <= z < 2 ^ 256 -> word_uint256 z = Ok (be_bytes 32 z).
Proof.
  intros [Hlo Hhi]. unfold word_uint256.
  apply Z.leb_le in Hlo. apply Z.ltb_lt in Hhi.
  by rewrite Hlo, Hhi.
Qed.

Lemma length_slice (n : nat) (s : string) :
  String.length (JsString.slice n s) = (String.length s - n)%nat.
Proof.
  revert s. induction n as [|n IH]; intros s; cbn [JsString.slice].
  - lia.
  - destruct s as [|a r]; cbn [String.length]; [lia|]. rewrite IH. lia.
Qed.

Lemma length_undigits (s : string) (bs : list byte) :
  Hex.undigits s = Some bs -> String.length s = (2 * length bs)%nat.
Proof.
  revert s. induction bs as [|x bs IH]; intros s H.
  - destruct s as [|a [|b r]]; cbn in H; [done|done|].
    destruct (Hex.hex_value a), (Hex.hex_value b), (Hex.undigits r);
      discriminate.
  - destruct s as [|a [|b r]]; cbn in H; [done|done|].
    destruct (Hex.hex_value a), (Hex.hex_value b); try discriminate.
    destruct (Hex.undigits r) as [bs'|] eqn:Hr; [|discriminate].
    injection H as _ ->. cbn [String.length length].
    rewrite (IH r Hr). lia.
Qed.

Lemma length_word_address (chk : string -> bool) (s : string) (wd : list byte) :
  word_address chk s = Ok wd -> length wd = 32%nat.
Proof.
  unfold word_address.
  destruct (JsString.startsWith s "0x"); [|discriminate].
  destruct (String.length s =? 42)%nat eqn:Hlen; [|discriminate].
  destruct (chk s); [|discriminate]. cbn [andb].
  destruct (Hex.undigits _) as [bs|] eqn:Hbs; [|discriminate].
  intros [= <-]. apply length_undigits in Hbs.
  rewrite length_slice in Hbs. apply Nat.eqb_eq in Hlen.
  cbn [length]. lia.
Qed.

End AbiFacts.

(** ** The authorization token *)

Section SignFeedbackAuthFacts.
Import Execution.

Lemma ethers_keccak256_hexlify (w : World) (bs : list byte) :
  ethers_keccak256 w (Hex.hexlify bs) = Ok (Hex.hexlify (keccak256 w bs)).
Proof. unfold ethers_keccak256. by rewrite getBytes_hexlify. Qed.

Lemma hexlify_concat (xs ys : list byte) :
  "0x" +:+ Hex.digits xs +:+ Hex.digits ys = Hex.hexlify (xs ++ ys).
Proof. unfold Hex.hexlify. by rewrite digits_app. Qed.

(** C1. signFeedbackAuth returns, for a token id, index limit and
    network id that are unsigned 256-bit integers and three well-formed
    addresses, the hex form of: the seven 32-byte ABI words of (tokenId,
    clientAddress, indexLimit, expiry, chainId, identityRegistryAddress,
    signerAddress), in that order, followed with nothing in between by the
    signature that signMessage gives for the Keccak-256 digest of those
    224 bytes; expiry is floor(now/1000) + expiryHours * 3600, and
    expiryHours is 24 when it is not given.  Each of the four number
    words is its number in base 256, the most significant byte first.
    The expiry is taken in the range in which the program's double
    arithmetic forms it without rounding. *)
Theorem signFeedbackAuth_token
    (w : World) (tokenId indexLimit chainId : Z)
    (clientAddress identityRegistryAddress : string) (wallet : Wallet)
    (expiryHours : option Z) (wc wr ws : list byte) :
  let expiry := now_ms w / 1000 + default 24 expiryHours * 3600 in
  let encoded :=
    Abi.be_bytes 32 tokenId ++ wc ++ Abi.be_bytes 32 indexLimit
    ++ Abi.be_bytes 32 expiry ++ Abi.be_bytes 32 chainId ++ wr ++ ws in
  let signature := signMessage w wallet (keccak256 w encoded) in
  0 <= tokenId < 2 ^ 256 ->
  0 <= indexLimit < 2 ^ 256 ->
  0 <= expiry < 2 ^ 256 ->
  0 <= chainId < 2 ^ 256 ->
  Abi.word_address (checksum_ok w) clientAddress = Ok wc ->
  Abi.word_address (checksum_ok w) identityRegistryAddress = Ok wr ->
  Abi.word_address (checksum_ok w) (address wallet) = Ok ws ->
  Double.exact_expiry (now_ms w) (default 24 expiryHours) = true ->
  exists token,
    signFeedbackAuth w (Int tokenId) clientAddress (Int indexLimit)
      (Int chainId) identityRegistryAddress wallet expiryHours = Ok token
    /\ token = "0x" +:+ Hex.digits encoded +:+ Hex.digits signature
    /\ Hex.getBytes token = Ok (encoded ++ signature)
    /\ length encoded = 224%nat
    /\ Forall
         (fun z =>
            length (Abi.be_bytes 32 z) = 32%nat
            /\ fold_left (fun acc b => acc * 256 + Z.of_N (Byte.to_N b))
                 (Abi.be_bytes 32 z) 0 = z)
         [tokenId; indexLimit; expiry; chainId].
Proof.
  intros expiry encoded signature Ht Hi He Hc Hwc Hwr Hws Hexact.
  exists ("0x" +:+ Hex.digits encoded +:+ Hex.digits signature).
  split; [|split; [reflexivity|split; [|split]]].
  - unfold signFeedbackAuth. rewrite (expiryOf_exact _ _ Hexact).
    fold expiry.
    cbn [BigInt mbind result_bind mret result_ret Abi.encode Abi.word].
    rewrite !word_uint256_in_range by done.
    rewrite Hwc, Hwr, Hws.
    cbn [mbind result_bind mret result_ret].
    rewrite app_nil_r. fold encoded.
    rewrite ethers_keccak256_hexlify.
    cbn [mbind result_bind mret result_ret].
    rewrite getBytes_hexlify.
    cbn [mbind result_bind mret result_ret].
    rewrite !startsWith_hexlify, !slice_hexlify. by fold signature.
  - rewrite hexlify_concat. apply getBytes_hexlify.
  - subst encoded. rewrite !length_app, !length_be_bytes.
    rewrite (length_word_address _ _ _ Hwc), (length_word_address _ _ _ Hwr),
      (length_word_address _ _ _ Hws). reflexivity.
  - assert (Hword : forall z, 0 <= z < 2 ^ 256 ->
      length (Abi.be_bytes 32 z) = 32%nat
      /\ fold_left (fun acc b => acc * 256 + Z.of_N (Byte.to_N b))
           (Abi.be_bytes 32 z) 0 = z).
    { intros z Hz. split; [apply length_be_bytes|].
      apply be_bytes_value. by change (256 ^ Z.of_nat 32) with (2 ^ 256). }
    repeat constructor; by apply Hword.
Qed.

End SignFeedbackAuthFacts.

(** The theorem above at token 42, index limit 8 and Sepolia, with the
    sample wallet as client and signer. *)
Lemma signFeedbackAuth_token_witness :
  exists token,
    Execution.signFeedbackAuth Samples.world (Int 42)
      (Execution.address Samples.wallet) (Int 8) (Int 11155111)
      (Contracts.IDENTITY Contracts.sepoliaRegistries) Samples.wallet None
    = Ok token
    /\ Hex.getBytes token <> Err InvalidHex.
Proof.
  pose (wc := replicate 12 x00 ++ replicate 19 x00 ++ [xaa]).
  pose (wr := replicate 12 x00 ++
              default [] (Hex.undigits "5f63c5784DFE968f06d5e6ba16cB6018163827Be")).
  destruct (signFeedbackAuth_token Samples.world 42 8 11155111
              (Execution.address Samples.wallet)
              (Contracts.IDENTITY Contracts.sepoliaRegistries)
              Samples.wallet None wc wr wc)
    as (token & Htoken & _ & Hbytes & _ & _).
  - vm_compute. split; [discriminate|reflexivity].
  - vm_compute. split; [discriminate|reflexivity].
  - vm_compute. split; [discriminate|reflexivity].
  - vm_compute. split; [discriminate|reflexivity].
  - reflexivity.
  - reflexivity.
  - reflexivity.
  - reflexivity.
  - exists token. split; [exact Htoken|]. rewrite Hbytes. discriminate.
Defined.

(** ** The string that is hashed *)

Section SortedJsonFacts.
Import Execution.

Lemma ser_primitive (K : option (list string)) (v : value) :
  Json.primitive v = true -> Json.ser K v = Json.canonical_json v.
Proof. by destruct v. Qed.

(** On a record none of whose values is an array or an object, and whose
    keys the two orders sort alike, what the code hashes is the
    canonical form. *)
Lemma sortedJson_flat (file : obj) :
  Forall (fun kv => Json.primitive (snd kv) = true) file ->
  Json.sort (obj_keys file) = Json.sort_bytewise (obj_keys file) ->
  sortedJson file = Json.canonical_json (VObj file).
Proof.
  intros Hflat Hsort. unfold sortedJson, Json.stringify.
  rewrite Hsort. unfold obj_keys.
  cbn [fmap option_fmap option_map Json.ser Json.canonical_json].
  do 4 f_equal.
  assert (Hsers : forall K,
    map (fun kv => (fst kv, Json.ser K (snd kv))) file
    = map (fun kv => (fst kv, Json.canonical_json (snd kv))) file).
  { intros K. clear Hsort.
    induction Hflat as [|kv l Hkv _ IH]; [reflexivity|].
    cbn [map]. by rewrite IH, (ser_primitive _ _ Hkv). }
  by rewrite Hsers.
Qed.

Lemma storeFeedback_uploaded (w : World) (cc : ContractConfig)
    (file : obj) (jwt cid json : string) :
  cc_pinataJwt cc = Some jwt ->
  JsString.truthy jwt = true ->
  uploadJson w jwt file = Some cid ->
  sortedJson file = Some json ->
  storeFeedback w cc file
  = mkM [UploadJson jwt file]
      (Ok ("ipfs://" +:+ cid,
           Hex.hexlify (keccak256 w (toUtf8Bytes json)))).
Proof.
  intros Hjwt Ht Hup Hjson. unfold storeFeedback.
  rewrite Hjwt, Ht. unfold try_catch, call.
  cbn [mbind M_bind outcome log of_option]. rewrite Hup, Hjson.
  reflexivity.
Qed.

(** C2, at a feedback whose context is the object with the one key foo:
    the upload succeeds and the hash that is submitted is the Keccak-256
    digest of a serialization in which context is the empty object.  The
    key foo and its value are gone, because the sorted list of the
    top-level keys is also the list of keys kept in every nested object;
    the string hashed is the canonical form of the record with its
    context emptied, not the canonical form of the record. *)
Theorem sortedJson_loses_nested_fields :
  exists p json args,
    outcome (prepareSubmission Samples.world Samples.nestedParams
               Samples.config Samples.signer) = Ok p
    /\ obj_get "context" (p_feedbackFile p) = Some (VObj [("foo", VStr "bar")])
    /\ sortedJson (p_feedbackFile p) = Some json
    /\ In (SubmitFeedback args)
         (log (giveFeedback Samples.world Samples.nestedParams
                 Samples.config Samples.signer))
    /\ sub_feedbackHash args
       = Hex.hexlify (keccak256 Samples.world (toUtf8Bytes json))
    /\ Json.canonical_json
         (VObj (obj_set "context" (VObj []) (p_feedbackFile p))) = Some json
    /\ Json.canonical_json (VObj (p_feedbackFile p)) <> Some json.
Proof.
  eexists _, _, _. split; [vm_compute; reflexivity|].
  split; [vm_compute; reflexivity|].
  split; [vm_compute; reflexivity|].
  split; [vm_compute; right; right; left; reflexivity|].
  split; [vm_compute; reflexivity|].
  split; [vm_compute; reflexivity|].
  vm_compute. discriminate.
Qed.

End SortedJsonFacts.

(** ** Splitting and decimal numerals *)

Section StringFacts.
Import JsString.

Lemma append_String (x : ascii) (a b : string) :
  String x a +:+ b = String x (a +:+ b).
Proof. reflexivity. Qed.

Lemma append_Empty (b : string) : EmptyString +:+ b = b.
Proof. reflexivity. Qed.

Lemma string_app_assoc (a b c : string) : (a +:+ b) +:+ c = a +:+ (b +:+ c).
Proof.
  induction a as [|x a IH]; rewrite ?append_String, ?append_Empty;
    [done | by rewrite IH].
Qed.

Lemma join_cons2 (sep p q : string) (l : list string) :
  join sep (p :: q :: l) = p +:+ sep +:+ join sep (q :: l).
Proof. reflexivity. Qed.

Lemma split_not_nil (c : ascii) (s : string) : split c s <> [].
Proof.
  destruct s as [|a r]; cbn [split]; [done|].
  destruct (Ascii.eqb a c); [done|]. by destruct (split c r).
Qed.

Lemma split_no_sep (c : ascii) (s : string) :
  occurs c s = false -> split c s = [s].
Proof.
  induction s as [|a r IH]; cbn [occurs split]; [done|].
  intros [Ha Hr]%orb_false_elim. by rewrite Ha, (IH Hr).
Qed.

Lemma split_app_sep (c : ascii) (p r : string) :
  occurs c p = false -> split c (p +:+ String c r) = p :: split c r.
Proof.
  induction p as [|a p IH]; rewrite ?append_String, ?append_Empty;
    cbn [occurs split].
  - intros _. by rewrite Ascii.eqb_refl.
  - intros [Ha Hp]%orb_false_elim. by rewrite Ha, (IH Hp).
Qed.

(** Joining the parts with the separator gives the string back, and no
    part holds the separator. *)
Lemma split_join (c : ascii) (s : string) :
  join (String c EmptyString) (split c s) = s
  /\ Forall (fun p => occurs c p = false) (split c s).
Proof.
  induction s as [|a r [IHj IHf]]; cbn [split].
  - split; [done | by constructor].
  - destruct (Ascii.eqb a c) eqn:Ha.
    + apply Ascii.eqb_eq in Ha as ->. split; [|by constructor].
      pose proof (split_not_nil c r) as Hne.
      destruct (split c r) as [|p ps]; [done|].
      rewrite join_cons2, append_Empty, append_String, append_Empty.
      by rewrite IHj.
    + pose proof (split_not_nil c r) as Hne.
      destruct (split c r) as [|p ps]; [done|]. split.
      * destruct ps as [|q ps]; [cbn [join] in *; by rewrite IHj|].
        rewrite join_cons2 in *. by rewrite append_String, IHj.
      * inversion IHf; subst. constructor; [|done].
        cbn [occurs]. by rewrite Ha.
Qed.

Lemma split_two (c : ascii) (s p0 p1 : string) :
  split c s = [p0; p1] <->
  s = p0 +:+ String c p1 /\ occurs c p0 = false /\ occurs c p1 = false.
Proof.
  split.
  - intros H. destruct (split_join c s) as [Hj Hf]. rewrite H in Hj, Hf.
    rewrite join_cons2 in Hj. cbn [join] in Hj.
    rewrite append_String, append_Empty in Hj.
    inversion Hf as [|? ? H0 Hf']; subst. inversion Hf'; subst. done.
  - intros (-> & H0 & H1). by rewrite (split_app_sep _ _ _ H0), (split_no_sep _ _ H1).
Qed.

End StringFacts.

Section DecimalFacts.

Lemma digit_value_of_digit (d : N) :
  (d < 10)%N -> digit_value (ascii_of_N (48 + d)) = Some (Z.of_N d).
Proof.
  intros Hd. unfold digit_value.
  rewrite N_ascii_embedding by lia.
  replace ((48 <=? 48 + d)%N && (48 + d <=? 57)%N) with true.
  - f_equal. lia.
  - symmetry. apply andb_true_intro. split; apply N.leb_le; lia.
Qed.

Lemma dec_digits_S (f : nat) (n : N) (acc : string) :
  dec_digits (S f) n acc
  = if (n <? 10)%N then String (ascii_of_N (48 + n mod 10)) acc
    else dec_digits f (n / 10) (String (ascii_of_N (48 + n mod 10)) acc).
Proof. reflexivity. Qed.

Lemma dec_digits_acc (f : nat) (n : N) (acc : string) :
  dec_digits f n acc = dec_digits f n EmptyString +:+ acc.
Proof.
  revert n acc. induction f as [|f IH]; intros n acc; [reflexivity|].
  cbn [dec_digits]. destruct (n <? 10)%N; [reflexivity|].
  rewrite (IH _ (String _ acc)), (IH _ (String _ EmptyString)).
  by rewrite string_app_assoc.
Qed.

Lemma parse_digits_app (a : option Z) (s1 s2 : string) :
  all_digits s1 = true ->
  parse_digits a (s1 +:+ s2) = parse_digits (parse_digits a s1) s2.
Proof.
  revert a.
  induction s1 as [|c r IH]; intros a;
    rewrite ?append_String, ?append_Empty; cbn [all_digits parse_digits];
    [done|].
  destruct (digit_value c); [|done]. apply IH.
Qed.

Lemma all_digits_app (s1 s2 : string) :
  all_digits s1 = true -> all_digits s2 = true ->
  all_digits (s1 +:+ s2) = true.
Proof.
  induction s1 as [|c r IH]; rewrite ?append_String, ?append_Empty;
    cbn [all_digits]; [done|].
  destruct (digit_value c); [|done]. apply IH.
Qed.

Lemma dec_digits_spec (f : nat) (n : N) :
  (n < 10 ^ N.of_nat (S f))%N ->
  let s := dec_digits (S f) n EmptyString in
  all_digits s = true /\ s <> EmptyString
  /\ forall a, exists k,
       parse_digits a s = Some (default 0 a * 10 ^ k + Z.of_N n) /\ 0 <= k.
Proof.
  revert n. induction f as [|f IH]; intros n Hn; cbn zeta.
  - assert (n < 10)%N as Hlt by (cbn in Hn; lia).
    cbn [dec_digits]. apply N.ltb_lt in Hlt as Hb. rewrite Hb.
    assert (n mod 10 = n)%N as -> by (by apply N.mod_small).
    cbn [all_digits parse_digits]. rewrite digit_value_of_digit by done.
    repeat split; [done|]. intros a. exists 1. split; [f_equal; lia | lia].
  - rewrite dec_digits_S. destruct (n <? 10)%N eqn:Hb.
    + apply N.ltb_lt in Hb.
      assert (n mod 10 = n)%N as -> by (by apply N.mod_small).
      cbn [all_digits parse_digits]. rewrite digit_value_of_digit by done.
      repeat split; [done|]. intros a. exists 1. split; [f_equal; lia | lia].
    + apply N.ltb_ge in Hb.
      assert (n / 10 < 10 ^ N.of_nat (S f))%N as Hdiv.
      { apply N.Div0.div_lt_upper_bound.
        replace (N.of_nat (S (S f))) with (N.succ (N.of_nat (S f))) in Hn by lia.
        by rewrite N.pow_succ_r' in Hn. }
      destruct (IH _ Hdiv) as (Hall & Hne & Hparse).
      assert (n mod 10 < 10)%N as Hmod by (apply N.mod_lt; lia).
      rewrite dec_digits_acc.
      set (hi := dec_digits (S f) (n / 10) EmptyString) in *.
      repeat split.
      * apply all_digits_app; [done|]. cbn [all_digits].
        by rewrite digit_value_of_digit.
      * destruct hi; [done | discriminate].
      * intros a. destruct (Hparse a) as (k & Hk & Hk0).
        exists (k + 1). rewrite parse_digits_app by done. rewrite Hk.
        cbn [parse_digits default]. rewrite digit_value_of_digit by done.
        split; [|lia]. f_equal. rewrite Z.pow_add_r, Z.pow_1_r by lia.
        pose proof (N.div_mod' n 10) as Hdm.
        apply (f_equal Z.of_N) in Hdm.
        rewrite N2Z.inj_add, N2Z.inj_mul in Hdm.
        change (Z.of_N 10) with 10 in Hdm. unfold id. rewrite Hdm. ring.
Qed.

Lemma enough_fuel (n : N) : (n < 10 ^ N.of_nat (S (N.to_nat (N.log2 n))))%N.
Proof.
  replace (N.of_nat (S (N.to_nat (N.log2 n)))) with (N.succ (N.log2 n)) by lia.
  destruct (N.eq_dec n 0%N) as [->|Hn]; [done|].
  destruct (N.log2_spec n) as [_ Hlt]; [lia|].
  eapply N.lt_le_trans; [exact Hlt|].
  apply N.pow_le_mono_l. lia.
Qed.

(** The decimal numeral of [n] is a non-empty run of digits whose value
    is [n]. *)
Lemma N_to_string_spec (n : N) :
  all_digits (N_to_string n) = true
  /\ N_to_string n <> EmptyString
  /\ parse_digits None (N_to_string n) = Some (Z.of_N n).
Proof.
  destruct (dec_digits_spec _ n (enough_fuel n)) as (Hall & Hne & Hparse).
  unfold N_to_string. split; [done|]. split; [done|].
  destruct (Hparse None) as (k & Hk & _). rewrite Hk.
  cbn [default]. f_equal; lia.
Qed.

Lemma all_digits_no_colon (s : string) :
  all_digits s = true -> JsString.occurs ":" s = false.
Proof.
  induction s as [|c r IH]; cbn [all_digits JsString.occurs]; [done|].
  destruct (digit_value c) eqn:Hc; [|done]. intros Hr. rewrite (IH Hr).
  destruct (Ascii.eqb c ":") eqn:Hcolon; [|done].
  apply Ascii.eqb_eq in Hcolon as ->. discriminate.
Qed.

(** On a non-empty run of digits [parseInt] reads the whole numeral. *)
Lemma parseInt_digits (s : string) (v : Z) :
  all_digits s = true -> parse_digits None s = Some v ->
  parseInt s = Int (to_double v).
Proof.
  destruct s as [|c r]; [discriminate|]. intros Hall Hv.
  assert (exists d, digit_value c = Some d) as [d Hd].
  { cbn in Hall. destruct (digit_value c); [eauto | done]. }
  assert (parseInt (String c r)
          = match parse_digits None (String c r) with
            | Some v => Int (to_double (1 * v))
            | None => NaN
            end) as ->.
  { clear -Hd. unfold parseInt.
    destruct c as [[] [] [] [] [] [] [] []]; try discriminate Hd; reflexivity. }
  rewrite Hv. do 2 f_equal. lia.
Qed.

Lemma parseInt_N_to_string (n : N) :
  parseInt (N_to_string n) = Int (to_double (Z.of_N n)).
Proof.
  destruct (N_to_string_spec n) as (Hall & _ & Hv). by apply parseInt_digits.
Qed.

End DecimalFacts.

(** ** The agent identifier *)

Section ParseAgentIdFacts.
Import Execution.

Lemma parseAgentId_ok (s : string) (ids : number * number) :
  parseAgentId s = Ok ids <->
  exists p0 p1,
    s = p0 +:+ String ":" p1
    /\ p0 <> EmptyString /\ p1 <> EmptyString
    /\ JsString.occurs ":" p0 = false /\ JsString.occurs ":" p1 = false
    /\ ids = (parseInt p0, parseInt p1).
Proof.
  unfold parseAgentId. split.
  - destruct (JsString.split ":" s) as [|p0 [|p1 [|? ?]]] eqn:Hs;
      try discriminate.
    apply split_two in Hs as (Hs & H0 & H1).
    destruct p0 as [|a0 r0]; [discriminate|].
    destruct p1 as [|a1 r1]; [discriminate|].
    cbn [JsString.truthy negb orb]. intros [= <-].
    exists (String a0 r0), (String a1 r1). by repeat split.
  - intros (p0 & p1 & Hs & Hp0 & Hp1 & H0 & H1 & ->).
    assert (JsString.split ":" s = [p0; p1]) as -> by (by apply split_two).
    by destruct p0, p1.
Qed.

Lemma parseAgentId_err (s : string) (e : error) :
  parseAgentId s = Err e -> e = InvalidIdentifier.
Proof.
  unfold parseAgentId.
  destruct (JsString.split ":" s) as [|p0 [|p1 [|? ?]]];
    try (by intros [= <-]).
  destruct (_ || _); by intros [= <-].
Qed.

Lemma parseAgentId_numerals (n m : N) :
  Double.exact (Z.of_N n) = true ->
  Double.exact (Z.of_N m) = true ->
  parseAgentId (N_to_string n +:+ String ":" (N_to_string m))
  = Ok (Int (Z.of_N n), Int (Z.of_N m)).
Proof.
  intros Hexn Hexm.
  destruct (N_to_string_spec n) as (Hn & Hne & _).
  destruct (N_to_string_spec m) as (Hm & Hme & _).
  apply parseAgentId_ok. exists (N_to_string n), (N_to_string m).
  repeat split; try done; try (by apply all_digits_no_colon).
  by rewrite !parseInt_N_to_string, !to_double_exact.
Qed.

(** A string that fails the check stops giveFeedback with the identifier
    error before any outside call, once the network has its registries. *)
Lemma giveFeedback_invalid_identifier (w : World) (fp : FeedbackParams)
    (cc : ContractConfig) (signer : Signer) (r : Contracts.Registries)
    (e : error) :
  lookupRegistries (cc_chainId cc) = Ok r ->
  parseAgentId (fp_agentId fp) = Err e ->
  giveFeedback w fp cc signer = mkM [] (Err InvalidIdentifier).
Proof.
  intros Hr He. apply parseAgentId_err in He as He'. subst e.
  unfold giveFeedback, prepareSubmission. rewrite Hr, He. reflexivity.
Qed.

(** C3, amended.  The check accepts exactly the strings of the form
    p0:p1 in which p0 and p1 are non-empty and hold no colon, and it
    yields (parseInt p0, parseInt p1), whatever p0 and p1 are; every
    other string is refused with the identifier error, and giveFeedback
    then stops before any outside call.  For two decimal numerals of at
    most 2^53, which parseInt reads without rounding, the pair is the
    pair of the numbers written. *)
Theorem parseAgentId_characterised :
  (forall s ids,
     parseAgentId s = Ok ids <->
     exists p0 p1,
       s = p0 +:+ String ":" p1
       /\ p0 <> EmptyString /\ p1 <> EmptyString
       /\ JsString.occurs ":" p0 = false /\ JsString.occurs ":" p1 = false
       /\ ids = (parseInt p0, parseInt p1))
  /\ (forall s e, parseAgentId s = Err e -> e = InvalidIdentifier)
  /\ (forall n m : N,
        Double.exact (Z.of_N n) = true ->
        Double.exact (Z.of_N m) = true ->
        parseAgentId (N_to_string n +:+ String ":" (N_to_string m))
        = Ok (Int (Z.of_N n), Int (Z.of_N m)))
  /\ (forall w fp cc signer r e,
        lookupRegistries (cc_chainId cc) = Ok r ->
        parseAgentId (fp_agentId fp) = Err e ->
        giveFeedback w fp cc signer = mkM [] (Err InvalidIdentifier)).
Proof.
  split; [exact parseAgentId_ok|].
  split; [exact parseAgentId_err|].
  split; [exact parseAgentId_numerals|].
  exact giveFeedback_invalid_identifier.
Qed.

(** The identifier 42, which has no colon, on Sepolia. *)
Lemma parseAgentId_characterised_witness :
  giveFeedback Samples.world (Samples.withAgentId "42" Samples.params)
    Samples.config Samples.signer
  = mkM [] (Err InvalidIdentifier).
Proof.
  destruct parseAgentId_characterised as (_ & _ & _ & H).
  apply (H Samples.world (Samples.withAgentId "42" Samples.params)
           Samples.config Samples.signer Contracts.sepoliaRegistries
           InvalidIdentifier); reflexivity.
Defined.

(** C3 as stated fails: abc:def has two non-empty parts, neither of them
    a number, and passes the check with NaN for both components;
    giveFeedback goes on and stops later, in signFeedbackAuth, on the
    RangeError of BigInt(NaN).  A part that only starts with digits, or a
    negative one, passes as well. *)
Lemma parseAgentId_accepts_non_numeric :
  parseAgentId "abc:def" = Ok (NaN, NaN)
  /\ parseAgentId "abc:def" <> Err InvalidIdentifier
  /\ outcome (giveFeedback Samples.world
                (Samples.withAgentId "abc:def" Samples.params)
                Samples.config Samples.signer) = Err RangeError
  /\ parseAgentId "12abc:7" = Ok (Int 12, Int 7)
  /\ parseAgentId "-5:3" = Ok (Int (-5), Int 3).
Proof. repeat split; try reflexivity. discriminate. Qed.

End ParseAgentIdFacts.

(** ** The next feedback index *)

Section ResolveIndexFacts.
Import Execution.

(** C4.  With an integer token id, a read that answers lastIndex gives
    lastIndex + 1 (8 for 7) after the one call to the registry, for an
    answer from 0 to below 2^53, the range in which Number(lastIndex) + 1
    is formed without rounding; a read that fails, and a token id that
    BigInt refuses, give 1; in no case does an error leave the step. *)
Theorem resolveIndex_spec (w : World) (client : string) :
  (forall tokenId lastIndex,
     0 <= lastIndex < 2 ^ 53 ->
     getLastIndex w tokenId client = Some lastIndex ->
     resolveIndex w (Int tokenId) client
     = mkM [ReadLastIndex tokenId client] (Ok (Int (lastIndex + 1))))
  /\ (forall tokenId,
        getLastIndex w tokenId client = None ->
        resolveIndex w (Int tokenId) client
        = mkM [ReadLastIndex tokenId client] (Ok (Int 1)))
  /\ resolveIndex w NaN client = mkM [] (Ok (Int 1))
  /\ (forall tokenId, is_ok (outcome (resolveIndex w tokenId client)) = true)
  /\ (forall tokenId,
        getLastIndex w tokenId client = Some 7 ->
        outcome (resolveIndex w (Int tokenId) client) = Ok (Int 8)).
Proof.
  assert (Hsome : forall tokenId lastIndex,
     getLastIndex w tokenId client = Some lastIndex ->
     resolveIndex w (Int tokenId) client
     = mkM [ReadLastIndex tokenId client] (Ok (succ (ofBigInt lastIndex)))).
  { intros tokenId lastIndex H. unfold resolveIndex, try_catch, call.
    cbn [BigInt lift mbind M_bind outcome log]. by rewrite H. }
  assert (Hnone : forall tokenId,
     getLastIndex w tokenId client = None ->
     resolveIndex w (Int tokenId) client
     = mkM [ReadLastIndex tokenId client] (Ok (Int 1))).
  { intros tokenId H. unfold resolveIndex, try_catch, call.
    cbn [BigInt lift mbind M_bind outcome log]. by rewrite H. }
  split; [|split; [|split; [|split]]].
  - intros tokenId lastIndex Hrange H. rewrite (Hsome _ _ H).
    by rewrite succ_ofBigInt_exact.
  - exact Hnone.
  - reflexivity.
  - intros [|tokenId]; [reflexivity|].
    destruct (getLastIndex w tokenId client) as [lastIndex|] eqn:H.
    + by rewrite (Hsome _ _ H).
    + by rewrite (Hnone _ H).
  - intros tokenId H. by rewrite (Hsome _ _ H).
Qed.

(** The sample registry answers 7 for token 42. *)
Lemma resolveIndex_spec_witness :
  outcome (resolveIndex Samples.world (Int 42)
             (address Samples.wallet)) = Ok (Int 8).
Proof.
  destruct (resolveIndex_spec Samples.world (address Samples.wallet))
    as (_ & _ & _ & _ & H).
  apply H. reflexivity.
Defined.

End ResolveIndexFacts.

(** ** The pipeline around the content store *)

Section PipelineFacts.
Import Execution.

Lemma bind_ok {A B} (m : M A) (f : A -> M B) (a : A) :
  outcome m = Ok a ->
  m ≫= f = mkM (log m ++ log (f a)) (outcome (f a)).
Proof. intros H. unfold mbind, M_bind. by rewrite H. Qed.

Lemma bind_err {A B} (m : M A) (f : A -> M B) (e : error) :
  outcome m = Err e -> m ≫= f = mkM (log m) (Err e).
Proof. intros H. unfold mbind, M_bind. by rewrite H. Qed.

Lemma signFeedbackAuth_inv (w : World) (tokenId indexLimit chainId : number)
    (client registry : string) (wallet : Wallet) (hours : option Z)
    (token : string) :
  signFeedbackAuth w tokenId client indexLimit chainId registry wallet hours
  = Ok token ->
  exists t bs, tokenId = Int t /\ token = Hex.hexlify bs.
Proof.
  unfold signFeedbackAuth.
  cbn [BigInt mbind result_bind].
  destruct tokenId as [|t]; [discriminate|].
  destruct indexLimit as [|i]; [discriminate|].
  destruct chainId as [|c]; [discriminate|].
  cbn [BigInt mbind result_bind].
  destruct (Abi.encode _ _) as [enc|]; [|discriminate].
  cbn [mbind result_bind].
  rewrite ethers_keccak256_hexlify. cbn [mbind result_bind].
  rewrite getBytes_hexlify. cbn [mbind result_bind mret result_ret].
  rewrite !startsWith_hexlify, !slice_hexlify, hexlify_concat.
  intros [= <-]. eauto.
Qed.

(** What is known once giveFeedback has reached the storage step. *)
Lemma prepareSubmission_inv (w : World) (fp : FeedbackParams)
    (cc : ContractConfig) (signer : Signer) (p : Prepared) :
  outcome (prepareSubmission w fp cc signer) = Ok p ->
  (exists t bs, p_tokenId p = Int t /\ p_feedbackAuth p = Hex.hexlify bs)
  /\ p_tag1 p = stringToBytes32 (tagOrEmpty (fp_tags fp) 0)
  /\ p_tag2 p = stringToBytes32 (tagOrEmpty (fp_tags fp) 1)
  /\ p_score p = onChainScore w (p_feedbackFile p).
Proof.
  unfold prepareSubmission.
  destruct (lookupRegistries _) as [regs|]; [|discriminate].
  cbn [lift mbind M_bind outcome log].
  destruct (parseAgentId _) as [[chainId tokenId]|]; [|discriminate].
  cbn [lift mbind M_bind outcome log].
  destruct (connectWallet w signer) as [wallet|]; [|discriminate].
  cbn [lift mbind M_bind outcome log].
  destruct (resolveIndex w tokenId (address wallet)) as [l [idx|]];
    [|discriminate].
  cbn [lift mbind M_bind outcome log].
  destruct (prepareFeedback _ _ _ _ _ _ _ _ _ _ _ _ _ _ _) as [file|];
    [|discriminate].
  cbn [lift mbind M_bind outcome log].
  destruct (signFeedbackAuth _ _ _ _ _ _ _ _) as [auth|] eqn:Hauth;
    [|discriminate].
  cbn [lift mbind M_bind outcome log mret M_ret].
  intros [= <-]. cbn.
  apply signFeedbackAuth_inv in Hauth as (t & bs & -> & ->). eauto 10.
Qed.

Lemma storeFeedback_failed (w : World) (cc : ContractConfig)
    (file : obj) (jwt : string) :
  cc_pinataJwt cc = Some jwt ->
  JsString.truthy jwt = true ->
  uploadJson w jwt file = None ->
  storeFeedback w cc file
  = mkM [UploadJson jwt file] (Ok (EmptyString, zeroHash)).
Proof.
  intros Hjwt Ht Hup. unfold storeFeedback.
  rewrite Hjwt, Ht. unfold try_catch, call.
  cbn [mbind M_bind outcome log of_option]. rewrite Hup. reflexivity.
Qed.

Lemma getBytes_zeroHash : Hex.getBytes zeroHash = Ok (replicate 32 x00).
Proof. reflexivity. Qed.

(** C5.  When giveFeedback has reached the storage step with a pinning
    token configured and the upload fails, the run goes on: the next
    outside call is the registry's giveFeedback, with the empty string as
    feedback URI and 32 zero bytes as feedback hash, and the wait for the
    receipt follows when the transaction is accepted; the result is the
    one of submission and confirmation, with the empty URI. *)
Theorem giveFeedback_upload_failure (w : World) (fp : FeedbackParams)
    (cc : ContractConfig) (signer : Signer) (p : Prepared) (jwt : string) :
  outcome (prepareSubmission w fp cc signer) = Ok p ->
  cc_pinataJwt cc = Some jwt ->
  JsString.truthy jwt = true ->
  uploadJson w jwt (p_feedbackFile p) = None ->
  exists args,
    sub_feedbackUri args = EmptyString
    /\ sub_feedbackHash args = zeroHash
    /\ Hex.getBytes (sub_feedbackHash args) = Ok (replicate 32 x00)
    /\ log (giveFeedback w fp cc signer)
       = log (prepareSubmission w fp cc signer)
         ++ [UploadJson jwt (p_feedbackFile p); SubmitFeedback args]
         ++ match sendGiveFeedback w args with
            | Some tx => [AwaitReceipt tx]
            | None => []
            end
    /\ outcome (giveFeedback w fp cc signer)
       = match sendGiveFeedback w args with
         | None => Err SubmissionRejected
         | Some tx =>
             match waitReceipt w tx with
             | Some block =>
                 Ok {| transactionHash := tx;
                       blockNumber := block;
                       feedbackIndex := p_feedbackIndex p;
                       feedbackFile := p_feedbackFile p;
                       feedbackUri := EmptyString |}
             | None => Err ConfirmationFailed
             end
         end.
Proof.
  intros Hp Hjwt Ht Hup.
  destruct (prepareSubmission_inv _ _ _ _ _ Hp) as ((t & bs & Htok & Hauth) & _).
  exists (submitArgs p t bs EmptyString zeroHash).
  split; [reflexivity|]. split; [reflexivity|]. split; [reflexivity|].
  unfold giveFeedback. rewrite (bind_ok _ _ _ Hp).
  rewrite (storeFeedback_failed _ _ _ _ Hjwt Ht Hup).
  cbn [mbind M_bind outcome log]. unfold submitAndConfirm.
  rewrite Htok, Hauth, getBytes_hexlify. unfold call.
  cbn [BigInt lift mbind M_bind outcome log].
  destruct (sendGiveFeedback w _) as [tx|]; cbn [of_option outcome log];
    [|by rewrite !app_nil_r].
  destruct (waitReceipt w tx) as [block|];
    cbn [of_option outcome log mret M_ret]; by rewrite ?app_nil_r.
Qed.

(** The sample run with a pinning service that refuses the upload. *)
Lemma giveFeedback_upload_failure_witness :
  exists args,
    In (SubmitFeedback args)
       (log (giveFeedback (Samples.withUpload None Samples.world)
               Samples.params Samples.config Samples.signer))
    /\ sub_feedbackUri args = EmptyString
    /\ Hex.getBytes (sub_feedbackHash args) = Ok (replicate 32 x00).
Proof.
  destruct (giveFeedback_upload_failure
              (Samples.withUpload None Samples.world)
              Samples.params Samples.config Samples.signer
              (match outcome (prepareSubmission
                                (Samples.withUpload None Samples.world)
                                Samples.params Samples.config Samples.signer)
               with
               | Ok p => p
               | Err _ => {| p_tokenId := NaN; p_feedbackIndex := NaN;
                             p_feedbackFile := []; p_feedbackAuth := EmptyString;
                             p_score := NaN; p_tag1 := EmptyString;
                             p_tag2 := EmptyString |}
               end)
              "jwt")
    as (args & Huri & _ & Hhash & Hlog & _).
  - vm_compute. reflexivity.
  - reflexivity.
  - reflexivity.
  - reflexivity.
  - exists args. split; [|by split].
    rewrite Hlog. apply in_or_app. right. right. left. reflexivity.
Defined.

End PipelineFacts.

(** ** Objects *)

Section ObjectFacts.

Lemma obj_get_set_eq (k : string) (v : value) (o : obj) :
  obj_get k (obj_set k v o) = Some v.
Proof.
  induction o as [|[k' v'] o IH]; cbn [obj_set obj_get].
  - by rewrite String.eqb_refl.
  - destruct (String.eqb k k') eqn:Hk; cbn [obj_get].
    + by rewrite String.eqb_refl.
    + by rewrite Hk.
Qed.

Lemma obj_get_set_ne (k k' : string) (v : value) (o : obj) :
  k <> k' -> obj_get k (obj_set k' v o) = obj_get k o.
Proof.
  intros Hne. apply String.eqb_neq in Hne.
  induction o as [|[k2 v2] o IH]; cbn [obj_set obj_get].
  - by rewrite Hne.
  - destruct (String.eqb k' k2) eqn:Hk; cbn [obj_get].
    + apply String.eqb_eq in Hk as <-. by rewrite Hne.
    + by rewrite IH.
Qed.

(** A key that [source] does not bind is not touched by the copy. *)
Lemma obj_get_assign_other (k : string) (target source : obj) :
  obj_get k source = None ->
  obj_get k (obj_assign target source) = obj_get k target.
Proof.
  unfold obj_assign. revert target.
  induction source as [|[k' v'] e IH]; intros target H; [reflexivity|].
  cbn [obj_get] in H. destruct (String.eqb k k') eqn:Hk; [discriminate|].
  cbn [fold_left fst snd]. rewrite (IH _ H).
  apply obj_get_set_ne. by apply String.eqb_neq.
Qed.

(** What the copy leaves under [k] is what [source] alone would leave,
    and else what [target] had. *)
Lemma obj_get_assign (k : string) (target source : obj) :
  obj_get k (obj_assign target source)
  = match obj_get k (obj_assign [] source) with
    | Some v => Some v
    | None => obj_get k target
    end.
Proof.
  unfold obj_assign.
  assert (Hgen : forall a b,
    obj_get k a = match obj_get k b with
                  | Some v => Some v
                  | None => obj_get k target
                  end ->
    obj_get k (fold_left (fun t kv => obj_set (fst kv) (snd kv) t) source a)
    = match obj_get k
              (fold_left (fun t kv => obj_set (fst kv) (snd kv) t) source b)
      with
      | Some v => Some v
      | None => obj_get k target
      end).
  { induction source as [|[k' v'] e IH]; intros a b Hab; [exact Hab|].
    cbn [fold_left fst snd]. apply IH.
    destruct (String.eqb k k') eqn:Hk.
    - apply String.eqb_eq in Hk as <-. by rewrite !obj_get_set_eq.
    - apply String.eqb_neq in Hk. by rewrite !obj_get_set_ne. }
  by apply Hgen.
Qed.

End ObjectFacts.

(** ** The score of the record *)

Section ScoreFacts.
Import Execution.

Lemma obj_get_clean_steps (k : string) (l : obj) (acc : obj) :
  Forall (fun kv => fst kv <> k) l ->
  obj_get k
    (fold_left
       (fun cleaned kv =>
          match snd kv with
          | VUndefined | VNull => cleaned
          | v => obj_set (fst kv) v cleaned
          end) l acc)
  = obj_get k acc.
Proof.
  intros Hl. revert acc.
  induction Hl as [|[k' v'] l Hk _ IH]; intros acc; [reflexivity|].
  cbn [fold_left fst snd] in *. rewrite IH.
  destruct v'; try reflexivity; by apply obj_get_set_ne.
Qed.

(** The entry of [k] survives the cleaning when it is a number and no
    later entry has the same key. *)
Lemma obj_get_clean_num (k : string) (n : number) (l1 l2 : obj) :
  Forall (fun kv => fst kv <> k) l2 ->
  obj_get k (clean (l1 ++ (k, VNum n) :: l2)) = Some (VNum n).
Proof.
  intros Hl2. unfold clean. rewrite fold_left_app. cbn [fold_left fst snd].
  rewrite obj_get_clean_steps by done. apply obj_get_set_eq.
Qed.

Lemma Math_round_nearest (x : Q) :
  exists z, Math_round x = Int z
            /\ (inject_Z z - (1 # 2) <= x)%Q /\ (x < inject_Z z + (1 # 2))%Q.
Proof.
  exists (Qfloor (x + (1 # 2))). split; [reflexivity|].
  pose proof (Qfloor_le (x + (1 # 2))) as Hle.
  pose proof (Qlt_floor (x + (1 # 2))) as Hlt.
  rewrite inject_Z_plus in Hlt.
  change (inject_Z 1) with (1 # 1)%Q in Hlt. split; lra.
Qed.

Lemma Math_round_integer (z : Z) : Math_round (inject_Z z) = Int z.
Proof.
  unfold Math_round, Qfloor, Qplus, inject_Z. cbn. f_equal.
  rewrite Z.div_add_l by lia.
  assert ((1 * 1) / Z.pos (1 * 2) = 0) as -> by reflexivity. lia.
Qed.

(** C6, amended.  When [extra] has no score entry of its own, the score
    of the record that prepareFeedback builds is Math.round of the input
    score: the nearest integer, a tie going up, with no clamping, so that
    an integer input is kept as it is, whatever its size or sign; with no
    input score the record carries 0. *)
Theorem prepareFeedback_score (w : World) (agentId clientAddress : string)
    (chainId : number) (registry : string) (score : option Q)
    (tags : option (list string))
    (text capability name skill task : option string)
    (context proofOfPayment extra : option obj) (file : obj) :
  prepareFeedback w agentId clientAddress chainId registry score tags
    text capability name skill task context proofOfPayment extra = Ok file ->
  obj_get "score" (default [] extra) = None ->
  obj_get "score" file
  = Some (VNum (match score with
                | Some x => Math_round x
                | None => Int 0
                end))
  /\ (forall x, score = Some x ->
        exists z, Math_round x = Int z
                  /\ (inject_Z z - (1 # 2) <= x)%Q
                  /\ (x < inject_Z z + (1 # 2))%Q)
  /\ (forall z : Z, score = Some (inject_Z z) ->
        obj_get "score" file = Some (VNum (Int z))).
Proof.
  intros Hfile Hextra.
  assert (Hscore : obj_get "score" file
    = Some (VNum (match score with
                  | Some x => Math_round x
                  | None => Int 0
                  end))).
  { unfold prepareFeedback in Hfile.
    destruct (JsString.split ":" agentId) as [|p0 [|p1 [|? ?]]];
      try discriminate.
    destruct (negb (JsString.truthy p1)); [discriminate|].
    injection Hfile as <-.
    assert (Hclean : forall d : obj,
      obj_get "score" (match extra with
                       | Some e => obj_assign d e
                       | None => d
                       end) = obj_get "score" d).
    { intros d. destruct extra as [e|]; [|reflexivity].
      by apply obj_get_assign_other. }
    rewrite Hclean.
    apply (obj_get_clean_num "score" _ [_; _; _; _; _] [_; _; _; _; _; _; _; _]).
    repeat constructor; cbn; discriminate. }
  split; [exact Hscore|]. split.
  - intros x _. apply Math_round_nearest.
  - intros z ->. by rewrite Hscore, Math_round_integer.
Qed.

(** The sample feedback, whose score is 97. *)
Lemma prepareFeedback_score_witness :
  exists file,
    prepareFeedback Samples.world "11155111:42" (address Samples.wallet)
      (Int 11155111) (Contracts.IDENTITY Contracts.sepoliaRegistries)
      (Some (inject_Z 97)) (Some ["helpful"; "fast"])
      None None None None None None None None = Ok file
    /\ obj_get "score" file = Some (VNum (Int 97)).
Proof.
  destruct (prepareFeedback Samples.world "11155111:42"
              (address Samples.wallet) (Int 11155111)
              (Contracts.IDENTITY Contracts.sepoliaRegistries)
              (Some (inject_Z 97)) (Some ["helpful"; "fast"])
              None None None None None None None None)
    as [file|e] eqn:Hfile; [|vm_compute in Hfile; discriminate].
  exists file. split; [reflexivity|].
  destruct (prepareFeedback_score _ _ _ _ _ _ _ _ _ _ _ _ _ _ _ file
              Hfile eq_refl) as (_ & _ & H).
  apply H. reflexivity.
Defined.

(** C6 as stated fails: a score of 150 is stored as 150 and a score of
    -5 as -5; neither is brought into the range 0..100. *)
Lemma prepareFeedback_score_not_clamped :
  exists file150 file_5,
    prepareFeedback Samples.world "11155111:42" (address Samples.wallet)
      (Int 11155111) (Contracts.IDENTITY Contracts.sepoliaRegistries)
      (Some (inject_Z 150)) None None None None None None None None None
    = Ok file150
    /\ obj_get "score" file150 = Some (VNum (Int 150))
    /\ ~ (0 <= 150 <= 100)
    /\ prepareFeedback Samples.world "11155111:42" (address Samples.wallet)
         (Int 11155111) (Contracts.IDENTITY Contracts.sepoliaRegistries)
         (Some (inject_Z (-5))) None None None None None None None None None
       = Ok file_5
    /\ obj_get "score" file_5 = Some (VNum (Int (-5)))
    /\ ~ (0 <= -5 <= 100).
Proof.
  eexists _, _. split; [reflexivity|]. split; [reflexivity|].
  split; [lia|]. split; [reflexivity|]. split; [reflexivity | lia].
Qed.

End ScoreFacts.

(** ** Reading through the gateways *)

Section IpfsFacts.
Import Ipfs.

Lemma insert_by_time_perm (x : nat * nat) (l : list (nat * nat)) :
  insert_by_time x l ≡ₚ x :: l.
Proof.
  induction l as [|y l IH]; cbn [insert_by_time]; [done|].
  destruct (fst x <=? fst y)%nat; [done|].
  rewrite IH. apply Permutation_swap.
Qed.

Lemma sort_by_time_perm (l : list (nat * nat)) :
  foldr insert_by_time [] l ≡ₚ l.
Proof.
  induction l as [|x l IH]; cbn [foldr]; [done|].
  by rewrite insert_by_time_perm, IH.
Qed.

(** Every promise settles exactly once. *)
Lemma settle_order_perm {A} (ps : list (promise A)) :
  settle_order ps ≡ₚ seq 0 (length ps).
Proof.
  unfold settle_order.
  change (map snd ?l) with (snd <$> l).
  rewrite sort_by_time_perm. rewrite snd_zip; [done|].
  rewrite length_seq, length_map. done.
Qed.

Lemma settle_steps_lookup {A} (ps : list (promise A)) (order : list nat)
    (values : list (option (settled A))) (j : nat) :
  length values = length ps ->
  fold_left
    (fun values i =>
       match ps !! i with
       | Some p => <[i := Some (settlement p)]> values
       | None => values
       end) order values !! j
  = match (if decide (j ∈ order) then ps !! j else None) with
    | Some p => Some (Some (settlement p))
    | None => values !! j
    end.
Proof.
  revert values. induction order as [|i rest IH]; intros values Hlen.
  - cbn [fold_left]. by rewrite decide_False by apply not_elem_of_nil.
  - cbn [fold_left]. rewrite IH; last first.
    { destruct (ps !! i); [by rewrite length_insert | done]. }
    destruct (decide (j ∈ rest)) as [Hin|Hnin].
    + rewrite decide_True by (by right).
      destruct (ps !! j) as [p|] eqn:Hj; [done|].
      destruct (ps !! i) as [pi|] eqn:Hi; [|done].
      apply list_lookup_insert_ne. congruence.
    + destruct (decide (j = i)) as [->|Hne].
      * rewrite decide_True by (by left).
        destruct (ps !! i) as [pi|] eqn:Hi; [|done].
        apply list_lookup_insert_eq.
        apply lookup_lt_Some in Hi. lia.
      * rewrite decide_False by (intros [?|?]%elem_of_cons; done).
        destruct (ps !! i) as [pi|] eqn:Hi; [|done].
        by apply list_lookup_insert_ne.
Qed.

(** Whatever the settling times, the array that allSettled hands over
    has every outcome, at the index of its promise. *)
Lemma allSettled_in_order {A} (ps : list (promise A)) :
  allSettled ps = map (fun p => Some (settlement p)) ps.
Proof.
  apply list_eq. intros j. unfold allSettled.
  rewrite settle_steps_lookup by apply length_replicate.
  change (map ?f ps) with (f <$> ps). rewrite list_lookup_fmap.
  destruct (decide (j ∈ settle_order ps)) as [Hin|Hnin].
  - destruct (ps !! j) as [p|] eqn:Hj; [done|].
    apply lookup_ge_None in Hj. cbn.
    apply lookup_ge_None. rewrite length_replicate. done.
  - rewrite settle_order_perm, elem_of_seq in Hnin.
    assert (length ps <= j)%nat as Hge by lia.
    rewrite (proj2 (lookup_ge_None ps j) Hge). cbn.
    apply lookup_ge_None. by rewrite length_replicate.
Qed.

(** The scan returns the outcome of the first entry, in list order,
    that is fulfilled. *)
Lemma firstFulfilled_Some {A B} (F : B -> settled A) (l : list B) (t : A) :
  firstFulfilled (map (fun g => Some (F g)) l) = Some t <->
  exists i g,
    l !! i = Some g /\ F g = Fulfilled t
    /\ forall j g', (j < i)%nat -> l !! j = Some g' -> F g' = Rejected.
Proof.
  induction l as [|g0 l IH]; cbn [map firstFulfilled].
  - split; [discriminate|]. by intros (i & g & Hi & _).
  - destruct (F g0) as [v|] eqn:H0.
    + split.
      * intros [= ->]. exists 0%nat, g0. repeat split; [done|]. lia.
      * intros (i & g & Hi & Hg & Hbefore). destruct i as [|i].
        -- injection Hi as <-. congruence.
        -- specialize (Hbefore 0%nat g0 ltac:(lia) eq_refl). congruence.
    + rewrite IH. split.
      * intros (i & g & Hi & Hg & Hbefore). exists (S i), g.
        repeat split; [done..|]. intros [|j] g' Hj Hg'.
        -- injection Hg' as <-. done.
        -- apply (Hbefore j); [lia | done].
      * intros (i & g & Hi & Hg & Hbefore). destruct i as [|i].
        -- injection Hi as <-. congruence.
        -- exists i, g. repeat split; [done..|]. intros j g' Hj Hg'.
           apply (Hbefore (S j)); [lia | done].
Qed.

Lemma firstFulfilled_None {A B} (F : B -> settled A) (l : list B) :
  firstFulfilled (map (fun g => Some (F g)) l) = None <->
  forall g, g ∈ l -> F g = Rejected.
Proof.
  induction l as [|g0 l IH]; cbn [map firstFulfilled].
  - split; [|done]. intros _ g Hg. by apply elem_of_nil in Hg.
  - destruct (F g0) as [v|] eqn:H0.
    + split; [discriminate|]. intros H.
      specialize (H g0 ltac:(by left)). congruence.
    + rewrite IH. split.
      * intros H g [->|Hg]%elem_of_cons; [done | by apply H].
      * intros H g Hg. apply H. by right.
Qed.

Lemma get_unfold (GW : list string) (fetch : string -> Fetched)
    (config : IPFSClientConfig) (cid : string) :
  let cid' := if JsString.startsWith cid "ipfs://"
              then JsString.slice 7 cid else cid in
  let gateways := gatewayUrls GW config cid' in
  get GW fetch config cid
  = (gateways,
     of_option ContentUnavailable
       (firstFulfilled
          (map (fun g => Some (settlement (fetchText fetch g))) gateways))).
Proof.
  cbn zeta. unfold get. by rewrite allSettled_in_order, map_map.
Qed.



End IpfsFacts.

(** ** The crawler: the cascade over the paths *)

Section CrawlerFacts.
Import Http EndpointCrawler.

Lemma probe_requests (net : Net) (u : string) :
  fst (probe net u)
  = [ fst (_jsonRpcCall net u "tools/list");
      fst (_jsonRpcCall net u "resources/list");
      fst (_jsonRpcCall net u "prompts/list") ]
  /\ Forall (fun req => url req = u /\ method req = "POST")
       (fst (probe net u)).
Proof.
  unfold probe, _jsonRpcCall. cbn [fst]. split; [reflexivity|].
  repeat constructor.
Qed.

(** What one turn over a path gives, in terms of the three replies. *)
Lemma probe_result (net : Net) (u : string) :
  let tools := namesIn (snd (_jsonRpcCall net u "tools/list")) "tools" in
  let resources := resourcesIn (snd (_jsonRpcCall net u "resources/list")) in
  let prompts := namesIn (snd (_jsonRpcCall net u "prompts/list")) "prompts" in
  snd (probe net u)
  = if nonEmpty tools || nonEmpty resources || nonEmpty prompts
    then Some {| mcpTools := someIfNonEmpty tools;
                 mcpResources := someIfNonEmpty resources;
                 mcpPrompts := someIfNonEmpty prompts |}
    else None.
Proof. reflexivity. Qed.

(** The loop over the paths stops at the first path whose turn finds a
    capability; the requests made are those of the paths tried, in
    order. *)
Lemma tryPaths_first (net : Net) (base : string) (paths : list string) :
  match snd (tryPaths net base paths) with
  | Some caps =>
      exists i path,
        paths !! i = Some path
        /\ snd (probe net (base +:+ path)) = Some caps
        /\ (forall j p, (j < i)%nat -> paths !! j = Some p ->
                        snd (probe net (base +:+ p)) = None)
        /\ fst (tryPaths net base paths)
           = concat (map (fun p => fst (probe net (base +:+ p)))
                       (take (S i) paths))
  | None =>
      (forall p, p ∈ paths -> snd (probe net (base +:+ p)) = None)
      /\ fst (tryPaths net base paths)
         = concat (map (fun p => fst (probe net (base +:+ p))) paths)
  end.
Proof.
  induction paths as [|path rest IH]; cbn [tryPaths].
  - cbn [snd fst map concat]. split; [|done].
    intros p Hp. by apply elem_of_nil in Hp.
  - destruct (probe net (base +:+ path)) as [reqs found] eqn:Hprobe.
    destruct found as [caps|].
    + cbn [snd fst]. exists 0%nat, path. rewrite Hprobe.
      split; [done|]. split; [done|]. split; [intros j p Hj; lia|].
      cbn [firstn map concat]. rewrite Hprobe. cbn [fst].
      by rewrite app_nil_r.
    + destruct (tryPaths net base rest) as [reqs' r] eqn:Hrest.
      cbn [snd fst] in *. destruct r as [caps|].
      * destruct IH as (i & p & Hi & Hp & Hbefore & Hreqs).
        exists (S i), p. repeat split; [done..| |].
        -- intros [|j] q Hj Hq.
           ++ injection Hq as <-. by rewrite Hprobe.
           ++ apply (Hbefore j); [lia | done].
        -- rewrite firstn_cons. cbn [map concat]. by rewrite Hprobe, Hreqs.
      * destruct IH as (Hall & Hreqs). split.
        -- intros p [->|Hp]%elem_of_cons; [by rewrite Hprobe | by apply Hall].
        -- cbn [map concat]. by rewrite Hprobe, Hreqs.
Qed.

(** The JSON-RPC probe of the first copy of the crawler: root, then
    /mcp, then /sse, three calls per path, and the capabilities of the
    first path that has any; so an empty root and two tools under /mcp
    give those two tools. *)
Lemma fetchViaJsonRpc_cascade (net : Net) (httpUrl : string) :
  let base := JsString.stripTrailingSlash httpUrl in
  (forall caps,
     snd (_fetchViaJsonRpc net httpUrl) = Some caps ->
     exists i path,
       endpointPaths !! i = Some path
       /\ snd (probe net (base +:+ path)) = Some caps
       /\ forall j p, (j < i)%nat -> endpointPaths !! j = Some p ->
                      snd (probe net (base +:+ p)) = None)
  /\ (snd (_fetchViaJsonRpc net httpUrl) = None ->
      forall p, p ∈ endpointPaths -> snd (probe net (base +:+ p)) = None)
  /\ (forall caps,
        snd (probe net base) = None ->
        snd (probe net (base +:+ "/mcp")) = Some caps ->
        snd (_fetchViaJsonRpc net httpUrl) = Some caps).
Proof.
  cbn zeta. unfold _fetchViaJsonRpc.
  pose proof (tryPaths_first net (JsString.stripTrailingSlash httpUrl)
                endpointPaths) as H.
  repeat split.
  - intros caps Hc. rewrite Hc in H.
    destruct H as (i & p & Hi & Hp & Hb & _). eauto.
  - intros Hn. rewrite Hn in H. by destruct H.
  - intros caps Hroot Hmcp. unfold endpointPaths. cbn [tryPaths].
    assert (JsString.stripTrailingSlash httpUrl +:+ EmptyString
            = JsString.stripTrailingSlash httpUrl) as ->.
    { generalize (JsString.stripTrailingSlash httpUrl) as b.
      induction b as [|c b IHb]; [done|]. by rewrite append_String, IHb. }
    destruct (probe net (JsString.stripTrailingSlash httpUrl)) as [r0 f0].
    cbn [snd] in Hroot. subst f0.
    destruct (probe net (_ +:+ "/mcp")) as [r1 f1].
    cbn [snd] in Hmcp. subst f1. reflexivity.
Qed.

(** C8, on the sample server whose tools list is empty at the root and
    holds search and fetch under /mcp.  The first copy of the crawler
    returns the two tools, after the three calls to the root and the
    three to /mcp.  The second copy, whose _fetchViaJsonRpc issues GET
    requests to /tools, /resources and /prompts and never tries a path
    suffix, returns null on that server; and when the server answers
    those three GETs with empty lists, the second copy returns the empty
    lists of the root, while the first copy still returns the two
    tools. *)
Theorem fetchMcpCapabilities_second_copy_skips_mcp :
  snd (EndpointCrawler.fetchMcpCapabilities NetSamples.mcpNet
         NetSamples.endpoint)
  = Some {| mcpTools := Some [VStr "search"; VStr "fetch"];
            mcpPrompts := None;
            mcpResources := None |}
  /\ map url (fst (EndpointCrawler.fetchMcpCapabilities NetSamples.mcpNet
                     NetSamples.endpoint))
     = [ "https://agent.example"; "https://agent.example";
         "https://agent.example"; "https://agent.example/mcp";
         "https://agent.example/mcp"; "https://agent.example/mcp" ]
  /\ EndpointCrawlerGet.fetchMcpCapabilities NetSamples.mcpNet
       NetSamples.endpoint
     = ([ GET "https://agent.example/tools";
          GET "https://agent.example/agentcard.json" ], None)
  /\ snd (EndpointCrawler.fetchMcpCapabilities NetSamples.mcpNetWithLists
            NetSamples.endpoint)
     = Some {| mcpTools := Some [VStr "search"; VStr "fetch"];
               mcpPrompts := None;
               mcpResources := None |}
  /\ EndpointCrawlerGet.fetchMcpCapabilities NetSamples.mcpNetWithLists
       NetSamples.endpoint
     = ([ GET "https://agent.example/tools";
          GET "https://agent.example/resources";
          GET "https://agent.example/prompts" ],
        Some {| EndpointCrawlerGet.mcpTools := VArr [];
                EndpointCrawlerGet.mcpResources := VArr [];
                EndpointCrawlerGet.mcpPrompts := VArr [] |}).
Proof. repeat split; vm_compute; reflexivity. Qed.

End CrawlerFacts.

(** ** The crawler: the lists of names *)

Section CapabilityListFacts.
Import Http EndpointCrawler.

Lemma omap_itemName_strings (ss : list string) :
  omap itemName (VStr <$> ss) = ss.
Proof. induction ss as [|s ss IH]; [done|]. cbn. by rewrite IH. Qed.

Lemma hasKey_true (k : string) (o : obj) (v : value) :
  obj_get k o = Some v -> hasKey k (VObj o) = true.
Proof. intros H. cbn [hasKey]. rewrite H. by apply bool_decide_eq_true. Qed.

Lemma extractList_top (o : obj) (key : string) (items : list value) :
  obj_get key o = Some (VArr items) ->
  omap itemName items <> [] ->
  _extractList (VObj o) key = Ok (omap itemName items).
Proof.
  intros Hget Hne. unfold _extractList, collect.
  cbn [has mbind result_bind mret result_ret].
  rewrite (hasKey_true _ _ _ Hget). cbn [get]. rewrite Hget.
  cbn [default]. unfold id.
  destruct (omap itemName items); [done|]. reflexivity.
Qed.

Lemma namesIn_object (o : obj) (key : string) (items : list value) :
  obj_get key o = Some (VArr items) ->
  namesIn (VObj o) key
  = omap (fun item =>
            if isObjectLike item && hasKey "name" item
            then Some (get item "name") else None) items.
Proof.
  intros Hget. unfold namesIn.
  rewrite (hasKey_true _ _ _ Hget).
  cbn [isObjectLike truthy typeof_object andb get].
  by rewrite Hget.
Qed.

Lemma namesIn_named (key : string) (ns : list string) :
  namesIn
    (VObj [(key, VArr (map (fun n => VObj [("name", VStr n)]) ns))]) key
  = VStr <$> ns.
Proof.
  erewrite namesIn_object; last first.
  { cbn [obj_get]. by rewrite String.eqb_refl. }
  induction ns as [|n ns IH]; [done|]. cbn [map]. cbn. by rewrite <- IH.
Qed.

Lemma resourcesIn_object (o : obj) (items : list value) :
  obj_get "resources" o = Some (VArr items) ->
  resourcesIn (VObj o)
  = omap (fun resource =>
            if isObjectLike resource then
              let name :=
                if truthy (get resource "uri") then get resource "uri"
                else get resource "name" in
              if truthy name then Some name else None
            else None) items.
Proof.
  intros Hget. unfold resourcesIn.
  rewrite (hasKey_true _ _ _ Hget).
  cbn [isObjectLike truthy typeof_object andb get].
  by rewrite Hget.
Qed.

Lemma fetchA2aCapabilities_first_card (net : Net) (endpoint : string)
    (response : HttpResponse) (data : value) (skills : list string) :
  isHttpUrl endpoint = true ->
  fetch net (GET (endpoint +:+ "/agentcard.json")) = Some response ->
  ok response = true ->
  JSON_parse net (text response) = Some data ->
  _extractList data "skills" = Ok skills ->
  skills <> [] ->
  fetchA2aCapabilities net endpoint
  = ([GET (endpoint +:+ "/agentcard.json")], Some {| a2aSkills := skills |}).
Proof.
  intros Hurl Hfetch Hok Hparse Hlist Hne. unfold fetchA2aCapabilities.
  rewrite Hurl. cbn [negb tryAgentcards].
  rewrite Hfetch, Hok, Hparse, Hlist. by destruct skills.
Qed.

(** C9, amended.  A list of capability names that the crawler produces
    has one entry for each item of the remote list that carries a name,
    in the order of the remote list, and nothing is removed: a list of
    strings under the key comes back as it is, and a list of named
    objects in an RPC reply comes back as the list of their names, a
    repeated name as often as it is listed.  The skills that
    fetchA2aCapabilities returns are that list, unchanged. *)
Theorem capability_lists_keep_every_entry :
  (forall (o : obj) key items,
     obj_get key o = Some (VArr items) ->
     omap itemName items <> [] ->
     _extractList (VObj o) key = Ok (omap itemName items))
  /\ (forall (o : obj) key items,
        obj_get key o = Some (VArr items) ->
        namesIn (VObj o) key
        = omap (fun item =>
                  if isObjectLike item && hasKey "name" item
                  then Some (get item "name") else None) items)
  /\ (forall (o : obj) items,
        obj_get "resources" o = Some (VArr items) ->
        resourcesIn (VObj o)
        = omap (fun resource =>
                  if isObjectLike resource then
                    let name :=
                      if truthy (get resource "uri") then get resource "uri"
                      else get resource "name" in
                    if truthy name then Some name else None
                  else None) items)
  /\ (forall key (ss : list string),
        ss <> [] ->
        _extractList (VObj [(key, VArr (VStr <$> ss))]) key = Ok ss)
  /\ (forall key (ns : list string),
        namesIn
          (VObj [(key, VArr (map (fun n => VObj [("name", VStr n)]) ns))]) key
        = VStr <$> ns)
  /\ (forall net endpoint response data skills,
        isHttpUrl endpoint = true ->
        fetch net (GET (endpoint +:+ "/agentcard.json")) = Some response ->
        ok response = true ->
        JSON_parse net (text response) = Some data ->
        _extractList data "skills" = Ok skills ->
        skills <> [] ->
        fetchA2aCapabilities net endpoint
        = ([GET (endpoint +:+ "/agentcard.json")],
           Some {| a2aSkills := skills |})).
Proof.
  split; [exact extractList_top|]. split; [exact namesIn_object|].
  split; [exact resourcesIn_object|].
  split; [|split; [exact namesIn_named | exact fetchA2aCapabilities_first_card]].
  intros key ss Hne.
  rewrite <- (omap_itemName_strings ss) at 2.
  apply extractList_top.
  - cbn [obj_get]. by rewrite String.eqb_refl.
  - by rewrite omap_itemName_strings.
Qed.

(** An agent card whose skills are translate, summarize, translate. *)
Lemma capability_lists_keep_every_entry_witness :
  _extractList
    (VObj [("skills", VArr (VStr <$> ["translate"; "summarize"; "translate"]))])
    "skills"
  = Ok ["translate"; "summarize"; "translate"].
Proof.
  destruct capability_lists_keep_every_entry as (_ & _ & _ & H & _).
  apply H. discriminate.
Defined.

(** C9 as stated fails: a reply that lists the tool search twice gives a
    tools list with search twice, and an agent card that lists the skill
    translate twice gives it twice. *)
Lemma capability_lists_keep_duplicates :
  namesIn NetSamples.repeatedReply "tools" = [VStr "search"; VStr "search"]
  /\ ~ NoDup (namesIn NetSamples.repeatedReply "tools")
  /\ _extractList NetSamples.repeatedCard "skills"
     = Ok ["translate"; "translate"]
  /\ ~ NoDup ["translate"; "translate"].
Proof.
  split; [reflexivity|]. split.
  - intros H. apply NoDup_cons in H as [Hin _]. apply Hin. by left.
  - split; [reflexivity|].
    intros H. apply NoDup_cons in H as [Hin _]. apply Hin. by left.
Qed.

End CapabilityListFacts.

(** ** What reaches the registry *)

Section SubmissionFacts.
Import Execution.

Lemma truthy_false_iff (t : string) :
  JsString.truthy t = false <-> t = EmptyString.
Proof. by destruct t. Qed.

(** The 32 bytes of a tag: its UTF-8 bytes, cut after 32 or filled up
    with zero bytes. *)
Lemma stringToBytes32_bytes (t : string) :
  Hex.getBytes (stringToBytes32 t)
  = Ok (take 32 (toUtf8Bytes t ++ replicate 32 x00)).
Proof.
  unfold stringToBytes32. destruct (JsString.truthy t) eqn:Ht; cbn [negb].
  - rewrite getBytes_hexlify. f_equal. unfold array_set.
    rewrite length_take, drop_replicate.
    set (encoded := toUtf8Bytes t).
    destruct (decide (length encoded <= 32)%nat) as [Hle|Hgt].
    + rewrite Nat.min_l by done. rewrite take_ge by lia.
      rewrite take_app_ge by done. rewrite take_replicate.
      do 2 f_equal. lia.
    + rewrite Nat.min_r by lia. rewrite take_app_le by lia.
      replace (32 - 32 `min` length encoded)%nat with 0%nat by lia.
      cbn [replicate]. by rewrite app_nil_r.
  - apply truthy_false_iff in Ht as ->. reflexivity.
Qed.

Lemma prepareFeedback_extra (w : World) (agentId client : string)
    (chainId : number) (registry : string) (score : option Q)
    (tags : option (list string))
    (text capability name skill task : option string)
    (context proofOfPayment extra : option obj) :
  prepareFeedback w agentId client chainId registry score tags text
    capability name skill task context proofOfPayment extra
  = match prepareFeedback w agentId client chainId registry score tags text
            capability name skill task context proofOfPayment None with
    | Ok cleaned => Ok (match extra with
                        | Some e => obj_assign cleaned e
                        | None => cleaned
                        end)
    | Err e => Err e
    end.
Proof.
  unfold prepareFeedback.
  destruct (JsString.split ":" agentId) as [|p0 [|p1 [|? ?]]]; try reflexivity.
  by destruct (negb (JsString.truthy p1)).
Qed.

(** The score read back from the merged record depends on [extra] only
    through what [extra] binds to the key score. *)
Lemma onChainScore_extra (w : World) (auth : string) (cleaned : obj)
    (extra extra' : option obj) :
  obj_get "score" (obj_assign [] (default [] extra'))
  = obj_get "score" (obj_assign [] (default [] extra)) ->
  onChainScore w
    (obj_set "feedbackAuth" (VStr auth)
       (match extra' with Some e => obj_assign cleaned e | None => cleaned end))
  = onChainScore w
      (obj_set "feedbackAuth" (VStr auth)
         (match extra with Some e => obj_assign cleaned e | None => cleaned end)).
Proof.
  intros H. unfold onChainScore. rewrite !obj_get_set_ne by discriminate.
  assert (Hget : forall x : option obj,
    obj_get "score"
      (match x with Some e => obj_assign cleaned e | None => cleaned end)
    = match obj_get "score" (obj_assign [] (default [] x)) with
      | Some v => Some v
      | None => obj_get "score" cleaned
      end).
  { intros [e|]; [apply obj_get_assign | reflexivity]. }
  by rewrite !Hget, H.
Qed.

Lemma onChainScore_override (w : World) (auth : string) (cleaned e : obj)
    (n : number) :
  obj_get "score" (obj_assign [] e) = Some (VNum n) ->
  onChainScore w (obj_set "feedbackAuth" (VStr auth) (obj_assign cleaned e)) = n.
Proof.
  intros H. unfold onChainScore. rewrite obj_get_set_ne by discriminate.
  by rewrite obj_get_assign, H.
Qed.

Lemma log_resolveIndex (w : World) (tokenId : number) (client : string) :
  Forall (fun ev => forall args, ev <> SubmitFeedback args)
    (log (resolveIndex w tokenId client)).
Proof.
  unfold resolveIndex, try_catch, call.
  destruct tokenId as [|t]; cbn [BigInt lift mbind M_bind outcome log];
    [constructor|].
  destruct (getLastIndex w t client);
    cbn [of_option outcome log mret M_ret app]; by repeat constructor.
Qed.

Lemma log_storeFeedback (w : World) (cc : ContractConfig) (file : obj) :
  Forall (fun ev => forall args, ev <> SubmitFeedback args)
    (log (storeFeedback w cc file))
  /\ exists uri hash, outcome (storeFeedback w cc file) = Ok (uri, hash).
Proof.
  unfold storeFeedback, try_catch, call.
  destruct (cc_pinataJwt cc) as [jwt|]; [|split; [constructor | eauto]].
  destruct (JsString.truthy jwt); [|split; [constructor | eauto]].
  cbn [mbind M_bind outcome log].
  destruct (uploadJson w jwt file) as [cid|]; cbn [of_option outcome log].
  - destruct (sortedJson file); cbn [outcome log mret M_ret app];
      (split; [by repeat constructor | eauto]).
  - cbn [outcome log mret M_ret app]. split; [by repeat constructor | eauto].
Qed.

(** The parts of a run of prepareSubmission that [extra] cannot reach. *)
Lemma prepareSubmission_shape (w : World) (fp : FeedbackParams)
    (cc : ContractConfig) (signer : Signer) :
  Forall (fun ev => forall args, ev <> SubmitFeedback args)
    (log (prepareSubmission w fp cc signer))
  /\ forall p,
       outcome (prepareSubmission w fp cc signer) = Ok p ->
       exists auth cleaned,
         p_feedbackAuth p = auth
         /\ p_feedbackFile p
            = obj_set "feedbackAuth" (VStr auth)
                (match fp_extra fp with
                 | Some e => obj_assign cleaned e
                 | None => cleaned
                 end)
         /\ forall extra',
              let file' :=
                obj_set "feedbackAuth" (VStr auth)
                  (match extra' with
                   | Some e => obj_assign cleaned e
                   | None => cleaned
                   end) in
              outcome (prepareSubmission w (Samples.withExtra extra' fp)
                         cc signer)
              = Ok {| p_tokenId := p_tokenId p;
                      p_feedbackIndex := p_feedbackIndex p;
                      p_feedbackFile := file';
                      p_feedbackAuth := auth;
                      p_score := onChainScore w file';
                      p_tag1 := p_tag1 p;
                      p_tag2 := p_tag2 p |}.
Proof.
  unfold prepareSubmission. cbn [Samples.withExtra fp_agentId fp_score fp_tags
    fp_text fp_capability fp_name fp_skill fp_task fp_context
    fp_proofOfPayment fp_extra].
  destruct (lookupRegistries _) as [regs|];
    [|split; [constructor | discriminate]].
  cbn [lift mbind M_bind outcome log].
  destruct (parseAgentId _) as [[chainId tokenId]|];
    [|split; [constructor | discriminate]].
  cbn [lift mbind M_bind outcome log].
  destruct (connectWallet w signer) as [wallet|];
    [|split; [constructor | discriminate]].
  cbn [lift mbind M_bind outcome log app].
  pose proof (log_resolveIndex w tokenId (address wallet)) as Hlog.
  destruct (resolveIndex w tokenId (address wallet)) as [l [idx|]];
    cbn [lift mbind M_bind outcome log] in *;
    [|split; [done | discriminate]].
  rewrite (prepareFeedback_extra _ _ _ _ _ _ _ _ _ _ _ _ _ _ (fp_extra fp)).
  destruct (prepareFeedback _ _ _ _ _ _ _ _ _ _ _ _ _ _ None)
    as [cleaned|] eqn:Hnone;
    cbn [lift mbind M_bind outcome log];
    [|split; [by rewrite ?app_nil_r | discriminate]].
  destruct (signFeedbackAuth _ _ _ _ _ _ _ _) as [auth|] eqn:Hsign;
    cbn [lift mbind M_bind outcome log mret M_ret];
    [|split; [by rewrite ?app_nil_r | discriminate]].
  split; [by rewrite ?app_nil_r|].
  intros p [= <-]. exists auth, cleaned. cbn.
  split; [done|]. split; [done|]. intros extra'.
  rewrite (prepareFeedback_extra _ _ _ _ _ _ _ _ _ _ _ _ _ _ extra'), Hnone.
  reflexivity.
Qed.

Lemma log_submitAndConfirm (w : World) (p : Prepared) (uri hash : string)
    (t : Z) (bs : list byte) :
  p_tokenId p = Int t ->
  p_feedbackAuth p = Hex.hexlify bs ->
  exists rest,
    log (submitAndConfirm w p uri hash)
    = SubmitFeedback (submitArgs p t bs uri hash) :: rest
    /\ Forall (fun ev => forall args, ev <> SubmitFeedback args) rest.
Proof.
  intros Ht Ha. unfold submitAndConfirm, call.
  rewrite Ht, Ha, getBytes_hexlify.
  cbn [BigInt lift mbind M_bind outcome log app].
  destruct (sendGiveFeedback w _) as [tx|]; cbn [of_option outcome log].
  - destruct (waitReceipt w tx); cbn [of_option outcome log mret M_ret app];
      eexists; (split; [reflexivity | by repeat constructor]).
  - eexists. split; [reflexivity | constructor].
Qed.

(** The one call to the registry's giveFeedback in a run. *)
Lemma giveFeedback_submission (w : World) (fp : FeedbackParams)
    (cc : ContractConfig) (signer : Signer) (args : SubmitArgs) :
  In (SubmitFeedback args) (log (giveFeedback w fp cc signer)) <->
  exists p t bs uri hash,
    outcome (prepareSubmission w fp cc signer) = Ok p
    /\ p_tokenId p = Int t /\ p_feedbackAuth p = Hex.hexlify bs
    /\ outcome (storeFeedback w cc (p_feedbackFile p)) = Ok (uri, hash)
    /\ args = submitArgs p t bs uri hash.
Proof.
  unfold giveFeedback.
  destruct (prepareSubmission_shape w fp cc signer) as [Hlog _].
  destruct (outcome (prepareSubmission w fp cc signer)) as [p|e] eqn:Hp.
  - destruct (prepareSubmission_inv _ _ _ _ _ Hp) as ((t & bs & Ht & Ha) & _).
    destruct (log_storeFeedback w cc (p_feedbackFile p))
      as (Hslog & uri & hash & Hs).
    destruct (log_submitAndConfirm w p uri hash t bs Ht Ha)
      as (rest & Hsub & Hrest).
    rewrite (bind_ok _ _ _ Hp). cbn [log].
    rewrite (bind_ok _ _ _ Hs). cbn [log]. rewrite Hsub.
    rewrite !in_app_iff. cbn [In]. split.
    + intros [Hin|[Hin|[Heq|Hin]]].
      * rewrite Forall_forall in Hlog.
        apply list_elem_of_In in Hin. by destruct (Hlog _ Hin args).
      * rewrite Forall_forall in Hslog.
        apply list_elem_of_In in Hin. by destruct (Hslog _ Hin args).
      * injection Heq as <-. exists p, t, bs, uri, hash. by repeat split.
      * rewrite Forall_forall in Hrest.
        apply list_elem_of_In in Hin. by destruct (Hrest _ Hin args).
    + intros (p' & t' & bs' & uri' & hash' & [= <-] & Ht' & Ha' & Hs' & ->).
      right. right. left. rewrite Ht in Ht'. injection Ht' as <-.
      rewrite Ha in Ha'. apply (f_equal Hex.getBytes) in Ha'.
      rewrite !getBytes_hexlify in Ha'. injection Ha' as <-.
      rewrite Hs in Hs'. by injection Hs' as <- <-.
  - rewrite (bind_err _ _ _ Hp). cbn [log]. split.
    + intros Hin. rewrite Forall_forall in Hlog.
      apply list_elem_of_In in Hin. by destruct (Hlog _ Hin args).
    + by intros (p & ? & ? & ? & ? & ? & _).
Qed.

(** C10.  In every run the tag1 and tag2 handed to the registry are
    stringToBytes32 of the first two entries of the caller's tags (the
    UTF-8 bytes, cut after 32 or filled up with zero bytes) and do not
    depend on [extra]: replacing [extra] by a map that differs from it
    only under the keys tag1 and tag2 leaves the submitted tags, score,
    token id and authorization as they were.  The score handed over is
    read from the merged record, so a number that [extra] puts under the
    key score is the score submitted. *)
Theorem submitted_tags_ignore_extra (w : World) (fp : FeedbackParams)
    (cc : ContractConfig) (signer : Signer) (extra' : option obj) :
  (forall k, k <> "tag1" -> k <> "tag2" ->
     obj_get k (obj_assign [] (default [] extra'))
     = obj_get k (obj_assign [] (default [] (fp_extra fp)))) ->
  (forall args,
     In (SubmitFeedback args) (log (giveFeedback w fp cc signer)) ->
     sub_tag1 args = stringToBytes32 (tagOrEmpty (fp_tags fp) 0)
     /\ sub_tag2 args = stringToBytes32 (tagOrEmpty (fp_tags fp) 1)
     /\ exists args',
          In (SubmitFeedback args')
             (log (giveFeedback w (Samples.withExtra extra' fp) cc signer))
          /\ sub_tag1 args' = sub_tag1 args
          /\ sub_tag2 args' = sub_tag2 args
          /\ sub_score args' = sub_score args
          /\ sub_tokenId args' = sub_tokenId args
          /\ sub_feedbackAuth args' = sub_feedbackAuth args)
  /\ (forall t,
        Hex.getBytes (stringToBytes32 t)
        = Ok (take 32 (toUtf8Bytes t ++ replicate 32 x00)))
  /\ (forall args e n,
        In (SubmitFeedback args) (log (giveFeedback w fp cc signer)) ->
        fp_extra fp = Some e ->
        obj_get "score" (obj_assign [] e) = Some (VNum n) ->
        sub_score args = n).
Proof.
  intros Hextra. split; [|split; [exact stringToBytes32_bytes|]].
  - intros args Hin.
    apply giveFeedback_submission in Hin
      as (p & t & bs & uri & hash & Hp & Ht & Ha & Hs & ->).
    destruct (prepareSubmission_inv _ _ _ _ _ Hp)
      as (_ & Htag1 & Htag2 & Hscore).
    cbn [submitArgs sub_tag1 sub_tag2 sub_score sub_tokenId sub_feedbackAuth].
    split; [done|]. split; [done|].
    destruct (prepareSubmission_shape w fp cc signer) as [_ Hshape].
    destruct (Hshape p Hp) as (auth & cleaned & Hauth & Hfile & Hother).
    specialize (Hother extra'). cbn zeta in Hother.
    match type of Hother with _ = Ok ?q => set (p' := q) in * end.
    destruct (log_storeFeedback w cc (p_feedbackFile p'))
      as (_ & uri' & hash' & Hs').
    exists (submitArgs p' t bs uri' hash'). split.
    + apply giveFeedback_submission. exists p', t, bs, uri', hash'.
      repeat split; try done. cbn. congruence.
    + cbn [submitArgs sub_tag1 sub_tag2 sub_score sub_tokenId
           sub_feedbackAuth p' p_tag1 p_tag2 p_score].
      repeat split; try done.
      rewrite Hscore, Hfile. apply onChainScore_extra.
      apply Hextra; discriminate.
  - intros args e n Hin He Hn.
    apply giveFeedback_submission in Hin
      as (p & t & bs & uri & hash & Hp & Ht & Ha & Hs & ->).
    destruct (prepareSubmission_inv _ _ _ _ _ Hp) as (_ & _ & _ & Hscore).
    destruct (prepareSubmission_shape w fp cc signer) as [_ Hshape].
    destruct (Hshape p Hp) as (auth & cleaned & _ & Hfile & _).
    cbn [submitArgs sub_score]. rewrite Hscore, Hfile, He.
    by apply onChainScore_override.
Qed.

(** The sample feedback with score 3 and an [extra] that carries score
    99 and its own tag1: the registry receives the score 99 and the tag
    helpful of the tags parameter. *)
Lemma submitted_tags_ignore_extra_witness :
  exists args,
    In (SubmitFeedback args)
       (log (giveFeedback Samples.world
               (Samples.withExtra
                  (Some [("score", VNum (Int 99)); ("tag1", VStr "mine")])
                  (Samples.withScore (Some (inject_Z 3)) Samples.params))
               Samples.config Samples.signer))
    /\ sub_score args = Int 99
    /\ sub_tag1 args = stringToBytes32 "helpful".
Proof.
  assert (exists args,
    In (SubmitFeedback args)
       (log (giveFeedback Samples.world
               (Samples.withExtra
                  (Some [("score", VNum (Int 99)); ("tag1", VStr "mine")])
                  (Samples.withScore (Some (inject_Z 3)) Samples.params))
               Samples.config Samples.signer))) as [args Hin].
  { eexists. vm_compute. right. right. left. reflexivity. }
  exists args. split; [exact Hin|].
  destruct (submitted_tags_ignore_extra Samples.world
              (Samples.withExtra
                 (Some [("score", VNum (Int 99)); ("tag1", VStr "mine")])
                 (Samples.withScore (Some (inject_Z 3)) Samples.params))
              Samples.config Samples.signer
              (Some [("score", VNum (Int 99))]))
    as (Htags & _ & Hscore).
  - intros k H1 H2. cbn. destruct (String.eqb k "score"); [reflexivity|].
    destruct (String.eqb k "tag1") eqn:Hk; [|reflexivity].
    apply String.eqb_eq in Hk. destruct (H1 Hk).
  - split.
    + exact (Hscore args _ (Int 99) Hin eq_refl eq_refl).
    + destruct (Htags args Hin) as (Htag1 & _). exact Htag1.
Defined.

End SubmissionFacts.

(** * Further properties of the code *)

(** ** signFeedbackAuth: when it answers, and what the token determines *)

Section AuthorizationFacts.
Import Execution.

Lemma signFeedbackAuth_unfold (w : World) (tokenId indexLimit chainId : number)
    (client registry : string) (wallet : Wallet) (hours : option Z) :
  signFeedbackAuth w tokenId client indexLimit chainId registry wallet hours
  = (t ← BigInt tokenId;
     i ← BigInt indexLimit;
     n ← BigInt chainId;
     enc ← Abi.encode (checksum_ok w)
       [ Abi.Uint256 t; Abi.Address client; Abi.Uint256 i;
         Abi.Uint256 (expiryOf w (default 24 hours));
         Abi.Uint256 n; Abi.Address registry;
         Abi.Address (address wallet) ];
     mret (Hex.hexlify (enc ++ signMessage w wallet (keccak256 w enc)))).
Proof.
  unfold signFeedbackAuth. cbn [BigInt mbind result_bind].
  destruct tokenId as [|t]; [reflexivity|].
  destruct indexLimit as [|i]; [reflexivity|].
  destruct chainId as [|n]; [reflexivity|].
  cbn [BigInt mbind result_bind].
  destruct (Abi.encode _ _) as [enc|]; [|reflexivity].
  cbn [mbind result_bind].
  rewrite ethers_keccak256_hexlify. cbn [mbind result_bind].
  rewrite getBytes_hexlify. cbn [mbind result_bind mret result_ret].
  by rewrite !startsWith_hexlify, !slice_hexlify, hexlify_concat.
Qed.

Ltac split_all :=
  repeat match goal with H : _ /\ _ |- _ => destruct H end;
  repeat split; assumption || reflexivity.

Lemma Ok_inj {A} (a b : A) : Ok a = Ok b -> a = b.
Proof. by intros [= ->]. Qed.

Lemma word_uint256_ok (z : Z) (x : list byte) :
  Abi.word_uint256 z = Ok x <-> 0 <= z < 2 ^ 256 /\ x = Abi.be_bytes 32 z.
Proof.
  unfold Abi.word_uint256. split.
  - destruct (0 <=? z) eqn:Hlo; [|discriminate].
    destruct (z <? 2 ^ 256) eqn:Hhi; [|discriminate].
    cbn [andb]. intros H. apply Ok_inj in H.
    apply Z.leb_le in Hlo. apply Z.ltb_lt in Hhi.
    split; [split; assumption | symmetry; exact H].
  - intros [[Hlo Hhi] ->].
    apply Z.leb_le in Hlo. apply Z.ltb_lt in Hhi. rewrite Hlo, Hhi.
    reflexivity.
Qed.

Lemma word_uint256_err (z : Z) (e : error) :
  Abi.word_uint256 z = Err e -> e = EncodingError.
Proof. unfold Abi.word_uint256. destruct (_ && _); by intros [= <-]. Qed.

Lemma word_address_err (chk : string -> bool) (s : string) (e : error) :
  Abi.word_address chk s = Err e -> e = EncodingError.
Proof.
  unfold Abi.word_address. destruct (_ && _); [|by intros [= <-]].
  destruct (Hex.undigits _); [discriminate | by intros [= <-]].
Qed.

(** The seven words, when each of them is accepted. *)
Lemma encode_seven (chk : string -> bool) (t i x n : Z) (c r s : string)
    (enc : list byte) :
  Abi.encode chk
    [ Abi.Uint256 t; Abi.Address c; Abi.Uint256 i; Abi.Uint256 x;
      Abi.Uint256 n; Abi.Address r; Abi.Address s ] = Ok enc <->
  exists wc wr ws,
    (0 <= t < 2 ^ 256) /\ (0 <= i < 2 ^ 256) /\ (0 <= x < 2 ^ 256)
    /\ (0 <= n < 2 ^ 256)
    /\ Abi.word_address chk c = Ok wc
    /\ Abi.word_address chk r = Ok wr
    /\ Abi.word_address chk s = Ok ws
    /\ enc = Abi.be_bytes 32 t ++ wc ++ Abi.be_bytes 32 i
             ++ Abi.be_bytes 32 x ++ Abi.be_bytes 32 n ++ wr ++ ws.
Proof.
  cbn [Abi.encode Abi.word]. split.
  - destruct (Abi.word_uint256 t) as [wt|] eqn:Ht; [|discriminate].
    cbn [mbind result_bind].
    destruct (Abi.word_address chk c) as [wc|]; [|discriminate].
    cbn [mbind result_bind].
    destruct (Abi.word_uint256 i) as [wi|] eqn:Hi; [|discriminate].
    cbn [mbind result_bind].
    destruct (Abi.word_uint256 x) as [wx|] eqn:Hx; [|discriminate].
    cbn [mbind result_bind].
    destruct (Abi.word_uint256 n) as [wn|] eqn:Hn; [|discriminate].
    cbn [mbind result_bind].
    destruct (Abi.word_address chk r) as [wr|]; [|discriminate].
    cbn [mbind result_bind].
    destruct (Abi.word_address chk s) as [ws|]; [|discriminate].
    cbn [mbind result_bind mret result_ret]. intros [= <-].
    apply word_uint256_ok in Ht as [? ->]. apply word_uint256_ok in Hi as [? ->].
    apply word_uint256_ok in Hx as [? ->]. apply word_uint256_ok in Hn as [? ->].
    exists wc, wr, ws. rewrite app_nil_r. split_all.
  - intros (wc & wr & ws & Ht & Hi & Hx & Hn & -> & -> & -> & ->).
    rewrite !word_uint256_in_range by done.
    cbn [mbind result_bind mret result_ret]. by rewrite app_nil_r.
Qed.

Lemma encode_seven_err (chk : string -> bool) (t i x n : Z) (c r s : string)
    (e : error) :
  Abi.encode chk
    [ Abi.Uint256 t; Abi.Address c; Abi.Uint256 i; Abi.Uint256 x;
      Abi.Uint256 n; Abi.Address r; Abi.Address s ] = Err e ->
  e = EncodingError.
Proof.
  cbn [Abi.encode Abi.word].
  repeat match goal with
  | |- context [Abi.word_uint256 ?z] =>
      let H := fresh in
      destruct (Abi.word_uint256 z) eqn:H;
        [clear H | apply word_uint256_err in H; subst; by intros [= <-]];
      cbn [mbind result_bind mret result_ret]
  | |- context [Abi.word_address chk ?a] =>
      let H := fresh in
      destruct (Abi.word_address chk a) eqn:H;
        [clear H | apply word_address_err in H; subst; by intros [= <-]];
      cbn [mbind result_bind mret result_ret]
  end.
  discriminate.
Qed.

Lemma signFeedbackAuth_err (w : World) (tokenId indexLimit chainId : number)
    (client registry : string) (wallet : Wallet) (hours : option Z)
    (e : error) :
  signFeedbackAuth w tokenId client indexLimit chainId registry wallet hours
  = Err e ->
  e = RangeError \/ e = EncodingError.
Proof.
  rewrite signFeedbackAuth_unfold.
  destruct tokenId as [|t]; [intros [= <-]; by left|].
  destruct indexLimit as [|i]; [intros [= <-]; by left|].
  destruct chainId as [|n]; [intros [= <-]; by left|].
  cbn [BigInt mbind result_bind].
  destruct (Abi.encode _ _) as [enc|] eqn:Henc; [discriminate|].
  apply encode_seven_err in Henc as ->. intros [= <-]. by right.
Qed.

(** When signFeedbackAuth returns a token.  It does when the token id,
    the index limit and the network id are integers that fit an unsigned
    256-bit word, the expiry is not negative, and the three addresses
    are 0x followed by 40 hex digits that pass the checksum test.  A
    token returned means that the three numbers are such integers.  A
    failure is a RangeError (a number that is no integer) or an encoding
    error, and nothing else.  The expiry is taken in the range in which
    the program's double arithmetic forms it without rounding. *)
Theorem signFeedbackAuth_success_conditions (w : World)
    (tokenId indexLimit chainId : number) (client registry : string)
    (wallet : Wallet) (hours : option Z) :
  let expiry := now_ms w / 1000 + default 24 hours * 3600 in
  Double.exact_expiry (now_ms w) (default 24 hours) = true ->
  ((exists t i n wc wr ws,
      tokenId = Int t /\ indexLimit = Int i /\ chainId = Int n
      /\ (0 <= t < 2 ^ 256) /\ (0 <= i < 2 ^ 256) /\ (0 <= n < 2 ^ 256)
      /\ 0 <= expiry
      /\ Abi.word_address (checksum_ok w) client = Ok wc
      /\ Abi.word_address (checksum_ok w) registry = Ok wr
      /\ Abi.word_address (checksum_ok w) (address wallet) = Ok ws) ->
   exists token,
     signFeedbackAuth w tokenId client indexLimit chainId registry wallet
       hours = Ok token)
  /\ ((exists token,
         signFeedbackAuth w tokenId client indexLimit chainId registry
           wallet hours = Ok token) ->
      exists t i n,
        tokenId = Int t /\ indexLimit = Int i /\ chainId = Int n
        /\ (0 <= t < 2 ^ 256) /\ (0 <= i < 2 ^ 256) /\ (0 <= n < 2 ^ 256)
        /\ 0 <= expiry)
  /\ (forall e,
        signFeedbackAuth w tokenId client indexLimit chainId registry wallet
          hours = Err e ->
        e = RangeError \/ e = EncodingError)
  /\ (tokenId = NaN \/ indexLimit = NaN \/ chainId = NaN ->
      signFeedbackAuth w tokenId client indexLimit chainId registry wallet
        hours = Err RangeError).
Proof.
  cbn zeta. intros Hexact.
  assert (Hx53 : now_ms w / 1000 + default 24 hours * 3600 <= 2 ^ 53).
  { unfold Double.exact_expiry, Double.exact in Hexact.
    repeat (apply andb_true_iff in Hexact as [Hexact ?]). lia. }
  split; [|split; [|split]].
  - rewrite signFeedbackAuth_unfold, (expiryOf_exact _ _ Hexact).
    intros (t & i & n & wc & wr & ws & -> & -> & -> & Ht & Hi & Hn & Hx
            & Hc & Hr & Hs).
    cbn [BigInt mbind result_bind].
    assert (exists enc, Abi.encode (checksum_ok w)
      [ Abi.Uint256 t; Abi.Address client; Abi.Uint256 i;
        Abi.Uint256 (now_ms w / 1000 + default 24 hours * 3600);
        Abi.Uint256 n; Abi.Address registry;
        Abi.Address (address wallet) ] = Ok enc) as [enc ->].
    { eexists. apply encode_seven. exists wc, wr, ws.
      assert (0 <= now_ms w / 1000 + default 24 hours * 3600 < 2 ^ 256)
        by (split; [done|];
            apply (Z.le_lt_trans _ (2 ^ 53)); [done | reflexivity]).
      split_all. }
    cbn [mbind result_bind mret result_ret]. eauto.
  - rewrite signFeedbackAuth_unfold, (expiryOf_exact _ _ Hexact).
    intros [token H].
    destruct tokenId as [|t]; [discriminate|].
    destruct indexLimit as [|i]; [discriminate|].
    destruct chainId as [|n]; [discriminate|].
    cbn [BigInt mbind result_bind] in H.
    destruct (Abi.encode _ _) as [enc|] eqn:Henc; [|discriminate].
    apply encode_seven in Henc
      as (wc & wr & ws & Ht & Hi & Hx & Hn & Hc & Hr & Hs & _).
    exists t, i, n. destruct Hx as [Hx _]. split_all.
  - intros e He. by apply signFeedbackAuth_err in He.
  - rewrite signFeedbackAuth_unfold.
    intros [->|[->| ->]]; [reflexivity| |].
    + by destruct tokenId.
    + by destruct tokenId, indexLimit.
Qed.

(** The sample wallet signing for token 42 on Sepolia. *)
Lemma signFeedbackAuth_success_conditions_witness :
  exists token,
    signFeedbackAuth Samples.world (Int 42) (address Samples.wallet) (Int 8)
      (Int 11155111) (Contracts.IDENTITY Contracts.sepoliaRegistries)
      Samples.wallet None = Ok token.
Proof.
  destruct (signFeedbackAuth_success_conditions Samples.world (Int 42)
              (Int 8) (Int 11155111) (address Samples.wallet)
              (Contracts.IDENTITY Contracts.sepoliaRegistries)
              Samples.wallet None eq_refl) as [H _].
  apply H. eexists 42, 8, 11155111, _, _, _.
  repeat split; try reflexivity; try discriminate.
Defined.

End AuthorizationFacts.

Section TokenInjectivity.
Import Execution.

Lemma byte_of_N_inj (a b : N) :
  (a < 256)%N -> (b < 256)%N -> Hex.byte_of_N a = Hex.byte_of_N b -> a = b.
Proof.
  intros Ha Hb H. unfold Hex.byte_of_N in H.
  apply (f_equal ascii_of_byte) in H. rewrite !ascii_of_byte_of_ascii in H.
  apply (f_equal N_of_ascii) in H. by rewrite !N_ascii_embedding in H.
Qed.

Lemma be_bytes_S (n : nat) (z : Z) :
  Abi.be_bytes (S n) z
  = Abi.be_bytes n (z / 256) ++ [Hex.byte_of_N (Z.to_N (z mod 256))].
Proof. reflexivity. Qed.

(** A big-endian word determines the number it was made from. *)
Lemma be_bytes_inj (n : nat) (a b : Z) :
  0 <= a < 256 ^ Z.of_nat n -> 0 <= b < 256 ^ Z.of_nat n ->
  Abi.be_bytes n a = Abi.be_bytes n b -> a = b.
Proof.
  revert a b. induction n as [|n IH]; intros a b Ha Hb H.
  - change (256 ^ Z.of_nat 0) with 1 in *. lia.
  - rewrite !be_bytes_S in H. apply app_inj_tail in H as [Hhi Hlo].
    assert (Hpow : 256 ^ Z.of_nat (S n) = 256 * 256 ^ Z.of_nat n).
    { rewrite Nat2Z.inj_succ, Z.pow_succ_r by lia. reflexivity. }
    rewrite Hpow in Ha, Hb.
    assert (a / 256 = b / 256) as Hdiv.
    { apply IH; [| |exact Hhi].
      - split; [apply Z.div_pos; lia | apply Z.div_lt_upper_bound; lia].
      - split; [apply Z.div_pos; lia | apply Z.div_lt_upper_bound; lia]. }
    assert (a mod 256 = b mod 256) as Hmod.
    { pose proof (Z.mod_pos_bound a 256 ltac:(lia)).
      pose proof (Z.mod_pos_bound b 256 ltac:(lia)).
      apply byte_of_N_inj in Hlo; lia. }
    rewrite (Z.div_mod a 256), (Z.div_mod b 256) by lia. by rewrite Hdiv, Hmod.
Qed.

Lemma be_bytes_32_inj (a b : Z) :
  0 <= a < 2 ^ 256 -> 0 <= b < 2 ^ 256 ->
  Abi.be_bytes 32 a = Abi.be_bytes 32 b -> a = b.
Proof.
  intros Ha Hb. apply be_bytes_inj.
  - by change (256 ^ Z.of_nat 32) with (2 ^ 256).
  - by change (256 ^ Z.of_nat 32) with (2 ^ 256).
Qed.

Lemma hexlify_inj (xs ys : list byte) :
  Hex.hexlify xs = Hex.hexlify ys -> xs = ys.
Proof.
  intros H. apply (f_equal Hex.getBytes) in H.
  rewrite !getBytes_hexlify in H. by apply Ok_inj.
Qed.

(** Two words of the same length at the head of equal lists are equal. *)
Lemma app_word_inj (x y xs ys : list byte) :
  length x = length y -> x ++ xs = y ++ ys -> x = y /\ xs = ys.
Proof. intros Hlen H. by apply app_inj_1. Qed.

(** The token determines every field that went into it: two calls that
    return the same token had the same token id, index limit, network
    id, expiry hours and address words.  The expiry of both calls is
    taken in the range in which the program's double arithmetic forms
    it without rounding. *)
Theorem signFeedbackAuth_token_determines_fields (w : World)
    (t1 t2 i1 i2 n1 n2 : Z) (c1 c2 r1 r2 : string) (wl1 wl2 : Wallet)
    (h1 h2 : option Z) (token : string) :
  signFeedbackAuth w (Int t1) c1 (Int i1) (Int n1) r1 wl1 h1 = Ok token ->
  signFeedbackAuth w (Int t2) c2 (Int i2) (Int n2) r2 wl2 h2 = Ok token ->
  Double.exact_expiry (now_ms w) (default 24 h1) = true ->
  Double.exact_expiry (now_ms w) (default 24 h2) = true ->
  t1 = t2 /\ i1 = i2 /\ n1 = n2
  /\ default 24 h1 = default 24 h2
  /\ Abi.word_address (checksum_ok w) c1 = Abi.word_address (checksum_ok w) c2
  /\ Abi.word_address (checksum_ok w) r1 = Abi.word_address (checksum_ok w) r2
  /\ Abi.word_address (checksum_ok w) (address wl1)
     = Abi.word_address (checksum_ok w) (address wl2).
Proof.
  intros Hcall1 Hcall2 Hexact1 Hexact2.
  rewrite signFeedbackAuth_unfold, (expiryOf_exact _ _ Hexact1) in Hcall1.
  rewrite signFeedbackAuth_unfold, (expiryOf_exact _ _ Hexact2) in Hcall2.
  clear Hexact1 Hexact2. revert Hcall1 Hcall2.
  cbn [BigInt mbind result_bind].
  destruct (Abi.encode _ [Abi.Uint256 t1; _; _; _; _; _; _])
    as [enc1|] eqn:H1; [|discriminate].
  destruct (Abi.encode _ [Abi.Uint256 t2; _; _; _; _; _; _])
    as [enc2|] eqn:H2; [|discriminate].
  cbn [mbind result_bind mret result_ret].
  intros Htok1 Htok2. apply Ok_inj in Htok1, Htok2. subst token.
  apply hexlify_inj in Htok2.
  apply encode_seven in H1
    as (wc1 & wr1 & ws1 & Ht1 & Hi1 & Hx1 & Hn1 & Hc1 & Hr1 & Hs1 & ->).
  apply encode_seven in H2
    as (wc2 & wr2 & ws2 & Ht2 & Hi2 & Hx2 & Hn2 & Hc2 & Hr2 & Hs2 & ->).
  pose proof (length_word_address _ _ _ Hc1).
  pose proof (length_word_address _ _ _ Hc2).
  pose proof (length_word_address _ _ _ Hr1).
  pose proof (length_word_address _ _ _ Hr2).
  pose proof (length_word_address _ _ _ Hs1).
  pose proof (length_word_address _ _ _ Hs2).
  rewrite <- !app_assoc in Htok2.
  apply app_word_inj in Htok2 as [Et Htok2];
    [|by rewrite !length_be_bytes].
  apply app_word_inj in Htok2 as [Ec Htok2]; [|congruence].
  apply app_word_inj in Htok2 as [Ei Htok2];
    [|by rewrite !length_be_bytes].
  apply app_word_inj in Htok2 as [Ex Htok2];
    [|by rewrite !length_be_bytes].
  apply app_word_inj in Htok2 as [En Htok2];
    [|by rewrite !length_be_bytes].
  apply app_word_inj in Htok2 as [Er Htok2]; [|congruence].
  apply app_word_inj in Htok2 as [Es _]; [|congruence].
  apply be_bytes_32_inj in Et; [|assumption..].
  apply be_bytes_32_inj in Ei; [|assumption..].
  apply be_bytes_32_inj in Ex; [|assumption..].
  apply be_bytes_32_inj in En; [|assumption..].
  rewrite Hc1, Hc2, Hr1, Hr2, Hs1, Hs2. subst.
  repeat split; try reflexivity. lia.
Qed.

(** The sample wallet signing for token 42, once with the expiry hours
    left out and once with 24: the same token, hence the same expiry. *)
Lemma signFeedbackAuth_token_determines_fields_witness :
  exists token,
    signFeedbackAuth Samples.world (Int 42) (address Samples.wallet) (Int 8)
      (Int 11155111) (Contracts.IDENTITY Contracts.sepoliaRegistries)
      Samples.wallet None = Ok token
    /\ signFeedbackAuth Samples.world (Int 42) (address Samples.wallet) (Int 8)
         (Int 11155111) (Contracts.IDENTITY Contracts.sepoliaRegistries)
         Samples.wallet (Some 24) = Ok token
    /\ default 24 None = default 24 (Some 24).
Proof.
  destruct (signFeedbackAuth Samples.world (Int 42) (address Samples.wallet)
              (Int 8) (Int 11155111)
              (Contracts.IDENTITY Contracts.sepoliaRegistries)
              Samples.wallet None) as [token|e] eqn:H1;
    [|vm_compute in H1; discriminate].
  assert (H2 : signFeedbackAuth Samples.world (Int 42)
                 (address Samples.wallet) (Int 8) (Int 11155111)
                 (Contracts.IDENTITY Contracts.sepoliaRegistries)
                 Samples.wallet (Some 24) = Ok token).
  { rewrite <- H1. reflexivity. }
  exists token. split; [reflexivity|]. split; [exact H2|].
  destruct (signFeedbackAuth_token_determines_fields Samples.world
              42 42 8 8 11155111 11155111
              (address Samples.wallet) (address Samples.wallet)
              (Contracts.IDENTITY Contracts.sepoliaRegistries)
              (Contracts.IDENTITY Contracts.sepoliaRegistries)
              Samples.wallet Samples.wallet None (Some 24) token H1 H2
              eq_refl eq_refl)
    as (_ & _ & _ & Hx & _).
  exact Hx.
Defined.

End TokenInjectivity.

(** ** stringToBytes32: the 32 bytes of a tag *)

Section Bytes32Facts.
Import Execution.

Lemma toUtf8Bytes_app (a b : string) :
  toUtf8Bytes (a +:+ b) = toUtf8Bytes a ++ toUtf8Bytes b.
Proof.
  unfold toUtf8Bytes, list_byte_of_string.
  induction a as [|c a IH]; [reflexivity|].
  rewrite append_String. cbn [list_ascii_of_string map app]. by rewrite IH.
Qed.

Lemma toUtf8Bytes_inj (a b : string) :
  toUtf8Bytes a = toUtf8Bytes b -> a = b.
Proof.
  unfold toUtf8Bytes. intros H. apply (f_equal string_of_list_byte) in H.
  by rewrite !string_of_list_byte_of_string in H.
Qed.

Lemma padded_take (encoded : list byte) :
  array_set (replicate 32 x00) (take (Nat.min (length encoded) 32) encoded)
  = take 32 (encoded ++ replicate 32 x00).
Proof.
  unfold array_set. rewrite length_take, drop_replicate.
  destruct (decide (length encoded <= 32)%nat) as [Hle|Hgt].
  - rewrite !Nat.min_l by lia. rewrite take_ge by lia.
    rewrite take_app_ge by done. rewrite take_replicate.
    do 2 f_equal. lia.
  - rewrite !Nat.min_r by lia. rewrite Nat.min_l by lia.
    rewrite take_app_le by lia.
    replace (32 - 32)%nat with 0%nat by lia.
    cbn [replicate]. by rewrite app_nil_r.
Qed.

(** One formula for every text, the empty one included. *)
Lemma stringToBytes32_hexlify (t : string) :
  stringToBytes32 t
  = Hex.hexlify (take 32 (toUtf8Bytes t ++ replicate 32 x00)).
Proof.
  unfold stringToBytes32. destruct (JsString.truthy t) eqn:Ht; cbn [negb].
  - by rewrite padded_take.
  - apply truthy_false_iff in Ht as ->. reflexivity.
Qed.

Lemma pad_inj (z : byte) (l1 l2 : list byte) (n1 n2 : nat) :
  z ∉ l1 -> z ∉ l2 ->
  l1 ++ replicate n1 z = l2 ++ replicate n2 z -> l1 = l2.
Proof.
  revert l2. induction l1 as [|x l1 IH]; intros l2 H1 H2 H.
  - destruct l2 as [|y l2]; [done|]. exfalso. apply H2.
    destruct n1 as [|n1]; [discriminate|]. cbn in H.
    injection H as <- _. by left.
  - destruct l2 as [|y l2].
    + exfalso. apply H1. destruct n2 as [|n2]; [discriminate|]. cbn in H.
      injection H as -> _. by left.
    + cbn in H. injection H as -> H. f_equal. apply IH; [| |done].
      * intros Hin. apply H1. by right.
      * intros Hin. apply H2. by right.
Qed.

(** stringToBytes32 always gives 32 bytes, which are the first 32 bytes
    of the text filled up with zero bytes: two texts with the same first
    32 bytes give the same tag, so a text longer than 32 bytes collides
    with its own first 32 bytes followed by anything, and the empty text
    gives the 32 zero bytes of a missing tag. *)
Theorem stringToBytes32_first_32_bytes :
  (forall t, exists bs,
     Hex.getBytes (stringToBytes32 t) = Ok bs /\ length bs = 32%nat
     /\ String.length (stringToBytes32 t) = 66%nat)
  /\ (forall t1 t2,
        take 32 (toUtf8Bytes t1) = take 32 (toUtf8Bytes t2) ->
        (32 <= length (toUtf8Bytes t1))%nat ->
        stringToBytes32 t1 = stringToBytes32 t2)
  /\ (forall p a b,
        length (toUtf8Bytes p) = 32%nat ->
        stringToBytes32 (p +:+ a) = stringToBytes32 (p +:+ b))
  /\ stringToBytes32 EmptyString = zeroHash.
Proof.
  split; [|split; [|split; [|reflexivity]]].
  - intros t. exists (take 32 (toUtf8Bytes t ++ replicate 32 x00)).
    rewrite stringToBytes32_hexlify, getBytes_hexlify.
    assert (length (take 32 (toUtf8Bytes t ++ replicate 32 x00)) = 32%nat)
      as Hlen.
    { rewrite length_take, length_app, length_replicate. lia. }
    split; [done|]. split; [done|].
    unfold Hex.hexlify. rewrite !append_String, append_Empty.
    cbn [String.length]. rewrite length_digits, Hlen. reflexivity.
  - intros t1 t2 Htake Hlen. rewrite !stringToBytes32_hexlify. f_equal.
    assert (32 <= length (toUtf8Bytes t2))%nat as Hlen2.
    { apply (f_equal length) in Htake. rewrite !length_take in Htake. lia. }
    by rewrite !take_app_le by lia.
  - intros p a b Hp. rewrite !stringToBytes32_hexlify, !toUtf8Bytes_app.
    f_equal. rewrite <- !app_assoc.
    rewrite !take_app_le by lia. reflexivity.
Qed.

(** A tag of 32 bytes followed by two different tails. *)
Lemma stringToBytes32_first_32_bytes_witness :
  stringToBytes32 "0123456789abcdef0123456789abcdef-first"
  = stringToBytes32 "0123456789abcdef0123456789abcdef-second".
Proof.
  destruct stringToBytes32_first_32_bytes as (_ & _ & H & _).
  apply (H "0123456789abcdef0123456789abcdef" "-first" "-second").
  reflexivity.
Defined.

(** On texts of at most 32 bytes that hold no zero byte, stringToBytes32
    loses nothing: two such texts with the same tag are equal. *)
Theorem stringToBytes32_injective_on_short_texts (t1 t2 : string) :
  (length (toUtf8Bytes t1) <= 32)%nat ->
  (length (toUtf8Bytes t2) <= 32)%nat ->
  x00 ∉ toUtf8Bytes t1 ->
  x00 ∉ toUtf8Bytes t2 ->
  stringToBytes32 t1 = stringToBytes32 t2 ->
  t1 = t2.
Proof.
  intros Hl1 Hl2 Hz1 Hz2 H. rewrite !stringToBytes32_hexlify in H.
  apply hexlify_inj in H.
  rewrite !take_app_ge, !take_replicate in H by done.
  apply pad_inj in H; [|done..]. by apply toUtf8Bytes_inj.
Qed.

(** The tags helpful and fast differ on the chain. *)
Lemma stringToBytes32_injective_on_short_texts_witness :
  stringToBytes32 "helpful" <> stringToBytes32 "fast".
Proof.
  intros H.
  apply (stringToBytes32_injective_on_short_texts "helpful" "fast") in H.
  - discriminate H.
  - cbn. lia.
  - cbn. lia.
  - intros Hin.
    repeat (apply elem_of_cons in Hin as [Hin|Hin]; [discriminate|]).
    by apply elem_of_nil in Hin.
  - intros Hin.
    repeat (apply elem_of_cons in Hin as [Hin|Hin]; [discriminate|]).
    by apply elem_of_nil in Hin.
Defined.

End Bytes32Facts.


(** ** The runs of giveFeedback *)

Section FeedbackRunFacts.
Import Execution.

Lemma lookupRegistries_err (chainId : Z) (e : error) :
  lookupRegistries chainId = Err e -> e = UnsupportedNetwork.
Proof.
  unfold lookupRegistries.
  destruct (Contracts.DEFAULT_REGISTRIES chainId) as [r|];
    [|by intros [= <-]].
  destruct (_ || _); [by intros [= <-] | discriminate].
Qed.

Lemma connectWallet_err (w : World) (signer : Signer) (e : error) :
  connectWallet w signer = Err e ->
  e = InvalidPrivateKey \/ e = UnsupportedSigner.
Proof.
  destruct signer as [key|wallet|]; cbn [connectWallet].
  - destruct (walletOfKey w key); cbn [of_option];
      [discriminate | intros [= <-]; by left].
  - discriminate.
  - intros [= <-]. by right.
Qed.

(** An identifier that passed giveFeedback's check passes the one of
    prepareFeedback. *)
Lemma prepareFeedback_checked (w : World) (agentId client : string)
    (chainId : number) (registry : string) (score : option Q)
    (tags : option (list string))
    (text capability name skill task : option string)
    (context proofOfPayment extra : option obj) (ids : number * number) :
  parseAgentId agentId = Ok ids ->
  exists file,
    prepareFeedback w agentId client chainId registry score tags text
      capability name skill task context proofOfPayment extra = Ok file.
Proof.
  unfold parseAgentId, prepareFeedback.
  destruct (JsString.split ":" agentId) as [|p0 [|p1 [|? ?]]];
    try discriminate.
  destruct (JsString.truthy p0), (JsString.truthy p1); cbn [negb orb];
    try discriminate.
  eauto.
Qed.

Lemma resolveIndex_cases (w : World) (tokenId : number) (client : string) :
  exists rlog idx,
    resolveIndex w tokenId client = mkM rlog (Ok idx)
    /\ (rlog = [] \/ exists t, rlog = [ReadLastIndex t client]).
Proof.
  unfold resolveIndex, try_catch, call.
  destruct tokenId as [|t]; cbn [BigInt lift mbind M_bind outcome log].
  - exists [], (Int 1). split; [reflexivity | by left].
  - destruct (getLastIndex w t client) as [l|];
      cbn [of_option outcome log mret M_ret app];
      eexists _, _; (split; [reflexivity | right; by exists t]).
Qed.

(** The three ways of the storage step. *)
Lemma storeFeedback_cases (w : World) (cc : ContractConfig) (file : obj) :
  exists slog uri hash,
    storeFeedback w cc file = mkM slog (Ok (uri, hash))
    /\ ((slog = [] /\ uri = EmptyString /\ hash = zeroHash
         /\ (cc_pinataJwt cc = None \/ cc_pinataJwt cc = Some EmptyString))
        \/ exists jwt,
             cc_pinataJwt cc = Some jwt /\ jwt <> EmptyString
             /\ slog = [UploadJson jwt file]
             /\ match uploadJson w jwt file with
                | None => uri = EmptyString /\ hash = zeroHash
                | Some cid =>
                    uri = "ipfs://" +:+ cid
                    /\ hash = match sortedJson file with
                              | Some json =>
                                  Hex.hexlify
                                    (keccak256 w (toUtf8Bytes json))
                              | None => zeroHash
                              end
                end).
Proof.
  unfold storeFeedback, try_catch, call.
  destruct (cc_pinataJwt cc) as [jwt|];
    [|exists [], EmptyString, zeroHash; split; [reflexivity|]; left; eauto].
  destruct jwt as [|a jwt]; cbn [JsString.truthy];
    [exists [], EmptyString, zeroHash; split; [reflexivity|]; left; eauto|].
  cbn [mbind M_bind outcome log].
  destruct (uploadJson w _ file) as [cid|] eqn:Hup;
    cbn [of_option outcome log].
  - destruct (sortedJson file) as [json|] eqn:Hjson;
      cbn [outcome log mret M_ret app];
      eexists _, _, _; (split; [reflexivity|]); right;
      eexists; (split; [reflexivity|]); (split; [discriminate|]);
      (split; [reflexivity|]); by rewrite Hup, ?Hjson.
  - cbn [outcome log mret M_ret app].
    eexists _, _, _; (split; [reflexivity|]); right;
      eexists; (split; [reflexivity|]); (split; [discriminate|]);
      (split; [reflexivity|]); by rewrite Hup.
Qed.

(** The ways of giveFeedback up to "Prepare on-chain data". *)
Lemma prepareSubmission_cases (w : World) (fp : FeedbackParams)
    (cc : ContractConfig) (signer : Signer) :
  (log (prepareSubmission w fp cc signer) = []
   /\ exists e,
        outcome (prepareSubmission w fp cc signer) = Err e
        /\ ((e = UnsupportedNetwork
             /\ lookupRegistries (cc_chainId cc) = Err e)
            \/ (e = InvalidIdentifier
                /\ parseAgentId (fp_agentId fp) = Err e)
            \/ ((e = InvalidPrivateKey \/ e = UnsupportedSigner)
                /\ connectWallet w signer = Err e)))
  \/ ((log (prepareSubmission w fp cc signer) = []
       \/ exists t c,
            log (prepareSubmission w fp cc signer) = [ReadLastIndex t c])
      /\ ((exists e,
             outcome (prepareSubmission w fp cc signer) = Err e
             /\ (e = RangeError \/ e = EncodingError))
          \/ exists p, outcome (prepareSubmission w fp cc signer) = Ok p)).
Proof.
  unfold prepareSubmission.
  destruct (lookupRegistries _) as [regs|e] eqn:Hregs;
    cbn [lift mbind M_bind outcome log].
  2:{ left. split; [reflexivity|]. exists e. split; [reflexivity|].
      left. by rewrite (lookupRegistries_err _ _ Hregs) in *. }
  destruct (parseAgentId _) as [[chainId tokenId]|e] eqn:Hparse;
    cbn [lift mbind M_bind outcome log].
  2:{ left. split; [reflexivity|]. exists e. split; [reflexivity|].
      right. left. by rewrite (parseAgentId_err _ _ Hparse) in *. }
  destruct (connectWallet w signer) as [wallet|e] eqn:Hwallet;
    cbn [lift mbind M_bind outcome log app].
  2:{ left. split; [reflexivity|]. exists e. split; [reflexivity|].
      right. right. split; [|reflexivity].
      by apply connectWallet_err in Hwallet. }
  right.
  destruct (resolveIndex_cases w tokenId (address wallet))
    as (rlog & idx & -> & Hrlog).
  cbn [lift mbind M_bind outcome log].
  destruct (prepareFeedback_checked w (fp_agentId fp) (address wallet)
              chainId (Contracts.IDENTITY regs) (fp_score fp) (fp_tags fp)
              (fp_text fp) (fp_capability fp) (fp_name fp) (fp_skill fp)
              (fp_task fp) (fp_context fp) (fp_proofOfPayment fp)
              (fp_extra fp) _ Hparse) as [file ->].
  cbn [lift mbind M_bind outcome log].
  destruct (signFeedbackAuth _ _ _ _ _ _ _ _) as [auth|e] eqn:Hsign;
    cbn [lift mbind M_bind outcome log mret M_ret];
    rewrite ?app_nil_r.
  - split; [|right; eauto].
    destruct Hrlog as [->|[t ->]]; [by left | right; eauto].
  - split; [|left; exists e; split; [reflexivity|];
              by apply signFeedbackAuth_err in Hsign].
    destruct Hrlog as [->|[t ->]]; [by left | right; eauto].
Qed.

(** A run of giveFeedback: it stops in the first part, or goes through
    storage and submission. *)
Lemma giveFeedback_run (w : World) (fp : FeedbackParams)
    (cc : ContractConfig) (signer : Signer) :
  (exists e,
     outcome (prepareSubmission w fp cc signer) = Err e
     /\ giveFeedback w fp cc signer
        = mkM (log (prepareSubmission w fp cc signer)) (Err e))
  \/ exists p t bs slog uri hash,
       outcome (prepareSubmission w fp cc signer) = Ok p
       /\ p_tokenId p = Int t
       /\ p_feedbackAuth p = Hex.hexlify bs
       /\ storeFeedback w cc (p_feedbackFile p) = mkM slog (Ok (uri, hash))
       /\ giveFeedback w fp cc signer
          = mkM (log (prepareSubmission w fp cc signer) ++ slog
                 ++ SubmitFeedback (submitArgs p t bs uri hash)
                    :: match sendGiveFeedback w (submitArgs p t bs uri hash)
                       with
                       | Some tx => [AwaitReceipt tx]
                       | None => []
                       end)
              (match sendGiveFeedback w (submitArgs p t bs uri hash) with
               | None => Err SubmissionRejected
               | Some tx =>
                   match waitReceipt w tx with
                   | None => Err ConfirmationFailed
                   | Some block =>
                       Ok {| transactionHash := tx;
                             blockNumber := block;
                             feedbackIndex := p_feedbackIndex p;
                             feedbackFile := p_feedbackFile p;
                             feedbackUri := uri |}
                   end
               end).
Proof.
  unfold giveFeedback.
  destruct (outcome (prepareSubmission w fp cc signer)) as [p|e] eqn:Hp.
  - right.
    destruct (prepareSubmission_inv _ _ _ _ _ Hp) as ((t & bs & Ht & Ha) & _).
    destruct (storeFeedback_cases w cc (p_feedbackFile p))
      as (slog & uri & hash & Hs & _).
    exists p, t, bs, slog, uri, hash.
    split; [reflexivity|]. split; [done|]. split; [done|]. split; [done|].
    rewrite (bind_ok _ _ _ Hp). cbn [log outcome]. rewrite Hs.
    cbn [mbind M_bind log outcome].
    unfold submitAndConfirm, call. rewrite Ht, Ha, getBytes_hexlify.
    cbn [BigInt lift mbind M_bind outcome log app].
    destruct (sendGiveFeedback w _) as [tx|]; cbn [of_option outcome log];
      [|reflexivity].
    destruct (waitReceipt w tx); cbn [of_option outcome log mret M_ret app];
      by rewrite ?app_nil_r.
  - left. exists e. split; [reflexivity|]. by rewrite (bind_err _ _ _ Hp).
Qed.

(** Every way in which giveFeedback can fail.  An unsupported network, a
    malformed identifier and a refused signer stop it before any outside
    call; a failure of the authorization (a number that is no integer, a
    value outside its ABI type) stops it after at most the registry read
    and before any upload or submission; the two remaining failures are
    the rejected transaction and the failed wait for its receipt.  A
    failed registry read, a failed upload and the identifier check of
    prepareFeedback never end a run. *)
Theorem giveFeedback_failures (w : World) (fp : FeedbackParams)
    (cc : ContractConfig) (signer : Signer) (e : error) :
  outcome (giveFeedback w fp cc signer) = Err e ->
  (e = UnsupportedNetwork
   /\ lookupRegistries (cc_chainId cc) = Err UnsupportedNetwork
   /\ log (giveFeedback w fp cc signer) = [])
  \/ (e = InvalidIdentifier
      /\ parseAgentId (fp_agentId fp) = Err InvalidIdentifier
      /\ log (giveFeedback w fp cc signer) = [])
  \/ ((e = InvalidPrivateKey \/ e = UnsupportedSigner)
      /\ connectWallet w signer = Err e
      /\ log (giveFeedback w fp cc signer) = [])
  \/ ((e = RangeError \/ e = EncodingError)
      /\ (log (giveFeedback w fp cc signer) = []
          \/ exists t c,
               log (giveFeedback w fp cc signer) = [ReadLastIndex t c]))
  \/ (e = SubmissionRejected
      /\ exists before args,
           log (giveFeedback w fp cc signer)
           = before ++ [SubmitFeedback args]
           /\ sendGiveFeedback w args = None)
  \/ (e = ConfirmationFailed
      /\ exists before args tx,
           log (giveFeedback w fp cc signer)
           = before ++ [SubmitFeedback args; AwaitReceipt tx]
           /\ sendGiveFeedback w args = Some tx
           /\ waitReceipt w tx = None).
Proof.
  destruct (giveFeedback_run w fp cc signer)
    as [(e' & Hp & ->)
       |(p & t & bs & slog & uri & hash & Hp & Ht & Ha & Hs & ->)];
    cbn [outcome log].
  - intros [= <-].
    destruct (prepareSubmission_cases w fp cc signer)
      as [[Hlog (e2 & He2 & Hc)]|[Hlog [(e2 & He2 & Hc)|[p Hp']]]].
    + rewrite Hp in He2. injection He2 as <-. rewrite Hlog.
      destruct Hc as [[-> Hc]|[[-> Hc]|[He Hc]]]; eauto 10.
    + rewrite Hp in He2. injection He2 as <-. eauto 10.
    + rewrite Hp in Hp'. discriminate.
  - destruct (sendGiveFeedback w _) as [tx|] eqn:Hsend.
    + destruct (waitReceipt w tx) as [block|] eqn:Hwait; [discriminate|].
      intros [= <-]. do 5 right. split; [reflexivity|].
      exists (log (prepareSubmission w fp cc signer) ++ slog),
        (submitArgs p t bs uri hash), tx.
      by rewrite <- app_assoc.
    + intros [= <-]. do 4 right. left. split; [reflexivity|].
      exists (log (prepareSubmission w fp cc signer) ++ slog),
        (submitArgs p t bs uri hash).
      by rewrite <- app_assoc.
Qed.

(** A signer that is neither a key nor a wallet: the run stops without
    an outside call. *)
Lemma giveFeedback_failures_witness :
  log (giveFeedback Samples.world Samples.params Samples.config SignerOther)
  = [].
Proof.
  destruct (giveFeedback_failures Samples.world Samples.params
              Samples.config SignerOther UnsupportedSigner)
    as [(He & _)|[(He & _)|[(_ & _ & Hlog)|[([He|He] & _)|[(He & _)|(He & _)]]]]];
    try discriminate He.
  - vm_compute. reflexivity.
  - exact Hlog.
Defined.

(** What a successful giveFeedback returns is what it submitted: the run
    ends with the registry call and the wait for its receipt, the
    returned transaction hash and block number are their answers, the
    returned URI is the one submitted, the returned record holds under
    feedbackAuth the authorization submitted and its score field is the
    score submitted, and a record uploaded on the way is the returned
    one.  The URI is empty with the zero hash, or it is ipfs:// followed
    by the identifier the pinning service answered for that record. *)
Theorem giveFeedback_result_matches_submission (w : World)
    (fp : FeedbackParams) (cc : ContractConfig) (signer : Signer)
    (r : FeedbackResult) :
  outcome (giveFeedback w fp cc signer) = Ok r ->
  exists before args,
    log (giveFeedback w fp cc signer)
    = before ++ [SubmitFeedback args; AwaitReceipt (transactionHash r)]
    /\ (forall jwt file,
          In (UploadJson jwt file) before -> file = feedbackFile r)
    /\ sendGiveFeedback w args = Some (transactionHash r)
    /\ waitReceipt w (transactionHash r) = Some (blockNumber r)
    /\ sub_feedbackUri args = feedbackUri r
    /\ obj_get "feedbackAuth" (feedbackFile r)
       = Some (VStr (Hex.hexlify (sub_feedbackAuth args)))
    /\ sub_score args = onChainScore w (feedbackFile r)
    /\ ((feedbackUri r = EmptyString /\ sub_feedbackHash args = zeroHash)
        \/ exists jwt cid,
             cc_pinataJwt cc = Some jwt
             /\ uploadJson w jwt (feedbackFile r) = Some cid
             /\ feedbackUri r = "ipfs://" +:+ cid).
Proof.
  destruct (giveFeedback_run w fp cc signer)
    as [(e' & Hp & ->)
       |(p & t & bs & slog & uri & hash & Hp & Ht & Ha & Hs & ->)];
    cbn [outcome log]; [discriminate|].
  destruct (sendGiveFeedback w _) as [tx|] eqn:Hsend; [|discriminate].
  destruct (waitReceipt w tx) as [block|] eqn:Hwait; [|discriminate].
  intros [= <-]. cbn [transactionHash blockNumber feedbackFile feedbackUri].
  exists (log (prepareSubmission w fp cc signer) ++ slog),
    (submitArgs p t bs uri hash).
  cbn [submitArgs sub_feedbackUri sub_feedbackAuth sub_score
       sub_feedbackHash].
  destruct (prepareSubmission_inv _ _ _ _ _ Hp) as (_ & _ & _ & Hscore).
  destruct (prepareSubmission_shape w fp cc signer) as [_ Hshape].
  destruct (Hshape p Hp) as (auth & cleaned & Hauth & Hfile & _).
  destruct (storeFeedback_cases w cc (p_feedbackFile p))
    as (slog' & uri' & hash' & Hs' & Hcases).
  rewrite Hs in Hs'. injection Hs' as <- <- <-.
  split; [by rewrite <- app_assoc|].
  split.
  { intros jwt file [Hin|Hin]%in_app_or.
    - destruct (prepareSubmission_cases w fp cc signer)
        as [[_ (e2 & He2 & _)]|[[Hlog|(t' & c & Hlog)] _]].
      + rewrite Hp in He2. discriminate.
      + rewrite Hlog in Hin. destruct Hin.
      + rewrite Hlog in Hin. destruct Hin as [Hin|[]]. discriminate.
    - destruct Hcases as [(-> & _)|(jwt' & _ & _ & -> & _)].
      + destruct Hin.
      + destruct Hin as [Hin|[]]. by injection Hin as _ <-. }
  split; [done|]. split; [done|]. split; [done|].
  split.
  { rewrite Hfile, obj_get_set_eq. by rewrite <- Ha, Hauth. }
  split; [done|].
  destruct Hcases as [(_ & -> & -> & _)|(jwt & Hjwt & _ & _ & Hup)];
    [by left|].
  destruct (uploadJson w jwt (p_feedbackFile p)) as [cid|] eqn:Hcid.
  - destruct Hup as [-> ->]. right. by exists jwt, cid.
  - destruct Hup as [-> ->]. by left.
Qed.

(** The sample run: the record returned holds the authorization. *)
Lemma giveFeedback_result_matches_submission_witness :
  exists r before args,
    outcome (giveFeedback Samples.world Samples.params Samples.config
               Samples.signer) = Ok r
    /\ log (giveFeedback Samples.world Samples.params Samples.config
              Samples.signer)
       = before ++ [SubmitFeedback args; AwaitReceipt (transactionHash r)]
    /\ obj_get "feedbackAuth" (feedbackFile r)
       = Some (VStr (Hex.hexlify (sub_feedbackAuth args))).
Proof.
  destruct (outcome (giveFeedback Samples.world Samples.params
                       Samples.config Samples.signer)) as [r|e] eqn:Hr;
    [|vm_compute in Hr; discriminate Hr].
  destruct (giveFeedback_result_matches_submission _ _ _ _ _ Hr)
    as (before & args & Hlog & _ & _ & _ & _ & Hauth & _).
  exists r, before, args. by repeat split.
Defined.

(** The outside calls of a run, in their order: at most one registry
    read, then at most one upload, then at most one submission followed
    by the wait for its receipt.  An upload happens only with a
    non-empty pinning token configured, and it is always followed by the
    submission; the receipt is awaited exactly when the submission was
    accepted. *)
Theorem giveFeedback_calls_in_order (w : World) (fp : FeedbackParams)
    (cc : ContractConfig) (signer : Signer) :
  exists reads uploads submits,
    log (giveFeedback w fp cc signer) = reads ++ uploads ++ submits
    /\ (reads = [] \/ exists t c, reads = [ReadLastIndex t c])
    /\ (uploads = []
        \/ exists jwt file,
             uploads = [UploadJson jwt file]
             /\ cc_pinataJwt cc = Some jwt /\ jwt <> EmptyString
             /\ submits <> [])
    /\ (submits = []
        \/ exists args,
             submits
             = SubmitFeedback args
               :: match sendGiveFeedback w args with
                  | Some tx => [AwaitReceipt tx]
                  | None => []
                  end).
Proof.
  assert (Hreads : log (prepareSubmission w fp cc signer) = []
                   \/ exists t c, log (prepareSubmission w fp cc signer)
                                  = [ReadLastIndex t c]).
  { destruct (prepareSubmission_cases w fp cc signer)
      as [[Hlog _]|[Hlog _]]; [by left | done]. }
  destruct (giveFeedback_run w fp cc signer)
    as [(e' & Hp & ->)
       |(p & t & bs & slog & uri & hash & Hp & Ht & Ha & Hs & ->)];
    cbn [log].
  - exists (log (prepareSubmission w fp cc signer)), [], [].
    rewrite !app_nil_r. split; [done|]. split; [done|]. split; by left.
  - eexists _, slog, _. split; [reflexivity|]. split; [done|].
    split; [|right; eauto].
    destruct (storeFeedback_cases w cc (p_feedbackFile p))
      as (slog' & uri' & hash' & Hs' & Hcases).
    rewrite Hs in Hs'. injection Hs' as <- <- <-.
    destruct Hcases as [(-> & _)|(jwt & Hjwt & Hne & -> & _)]; [by left|].
    right. exists jwt, (p_feedbackFile p). by repeat split.
Qed.

End FeedbackRunFacts.


(** ** The record that prepareFeedback builds *)

Section FeedbackRecordFacts.
Import Execution.

Lemma obj_get_split (k : string) (v : value) (l : obj) :
  obj_get k l = Some v ->
  exists l1 l2, l = l1 ++ (k, v) :: l2 /\ Forall (fun kv => fst kv <> k) l1.
Proof.
  induction l as [|[k' v'] l IH]; cbn [obj_get]; [discriminate|].
  destruct (String.eqb k k') eqn:Hk.
  - apply String.eqb_eq in Hk as <-. intros [= ->].
    exists [], l. split; [reflexivity | constructor].
  - intros (l1 & l2 & -> & Hl1)%IH.
    exists ((k', v') :: l1), l2. split; [reflexivity|].
    constructor; [|done]. cbn [fst]. apply String.eqb_neq in Hk. congruence.
Qed.

Lemma obj_get_None (k : string) (l : obj) :
  obj_get k l = None <-> Forall (fun kv => fst kv <> k) l.
Proof.
  induction l as [|[k' v'] l IH]; cbn [obj_get].
  - split; [constructor | done].
  - destruct (String.eqb k k') eqn:Hk.
    + apply String.eqb_eq in Hk as <-. split; [discriminate|].
      intros H. inversion H as [|? ? Hne _]; subst. by destruct Hne.
    + apply String.eqb_neq in Hk. rewrite IH. split.
      * intros H. constructor; [cbn [fst]; congruence | done].
      * intros H. by inversion H.
Qed.

(** What the cleaning loop leaves under a key, for a literal whose keys
    are distinct. *)
Lemma obj_get_clean (k : string) (l : obj) :
  NoDup (map fst l) ->
  obj_get k (clean l)
  = match obj_get k l with
    | Some VUndefined | Some VNull | None => None
    | Some v => Some v
    end.
Proof.
  intros Hnd. unfold clean.
  destruct (obj_get k l) as [v|] eqn:Hget.
  - apply obj_get_split in Hget as (l1 & l2 & -> & Hl1).
    assert (Hl2 : Forall (fun kv => fst kv <> k) l2).
    { rewrite map_app in Hnd. cbn [map fst] in Hnd.
      apply NoDup_app in Hnd as (_ & _ & Hnd).
      apply NoDup_cons in Hnd as [Hnotin _].
      apply Forall_forall. intros [k' v'] Hin Heq. cbn [fst] in Heq.
      subst k'. apply Hnotin.
      apply list_elem_of_fmap. by exists (k, v'). }
    rewrite fold_left_app. cbn [fold_left fst snd].
    rewrite (obj_get_clean_steps k l2) by done.
    destruct v; rewrite ?obj_get_set_eq; try reflexivity;
      by rewrite (obj_get_clean_steps k l1).
  - apply obj_get_None in Hget. by rewrite (obj_get_clean_steps k l).
Qed.

(** The loop keeps only entries of the literal, and none that is
    undefined or null. *)
Lemma clean_sound (l : obj) (k : string) (v : value) :
  obj_get k (clean l) = Some v ->
  In (k, v) l /\ v <> VUndefined /\ v <> VNull.
Proof.
  unfold clean.
  assert (Hgen : forall l' acc,
    (forall kv, In kv l' -> In kv l) ->
    (forall k v, obj_get k acc = Some v ->
                 In (k, v) l /\ v <> VUndefined /\ v <> VNull) ->
    forall k v,
      obj_get k
        (fold_left
           (fun cleaned kv =>
              match snd kv with
              | VUndefined | VNull => cleaned
              | v => obj_set (fst kv) v cleaned
              end) l' acc) = Some v ->
      In (k, v) l /\ v <> VUndefined /\ v <> VNull).
  { induction l' as [|[k' v'] l' IH]; intros acc Hsub Hacc; [exact Hacc|].
    cbn [fold_left fst snd]. apply IH.
    - intros kv Hin. apply Hsub. by right.
    - assert (Hin : In (k', v') l) by (apply Hsub; by left).
      assert (Hset : forall k0 v0,
        v' <> VUndefined -> v' <> VNull ->
        obj_get k0 (obj_set k' v' acc) = Some v0 ->
        In (k0, v0) l /\ v0 <> VUndefined /\ v0 <> VNull).
      { intros k0 v0 Hu Hn.
        destruct (String.eqb k0 k') eqn:Hk.
        - apply String.eqb_eq in Hk as ->. rewrite obj_get_set_eq.
          by intros [= <-].
        - apply String.eqb_neq in Hk. rewrite obj_get_set_ne by done.
          apply Hacc. }
      destruct v'; try exact Hacc; intros k0 v0; by apply Hset. }
  apply Hgen; [done | discriminate].
Qed.

(** Object.assign with a source whose keys are distinct. *)
Lemma obj_get_assign_nodup (k : string) (target source : obj) :
  NoDup (map fst source) ->
  obj_get k (obj_assign target source)
  = match obj_get k source with
    | Some v => Some v
    | None => obj_get k target
    end.
Proof.
  intros Hnd. destruct (obj_get k source) as [v|] eqn:Hget.
  - apply obj_get_split in Hget as (l1 & l2 & -> & Hl1).
    assert (Hl2 : obj_get k l2 = None).
    { rewrite map_app in Hnd. cbn [map fst] in Hnd.
      apply NoDup_app in Hnd as (_ & _ & Hnd).
      apply NoDup_cons in Hnd as [Hnotin _].
      apply obj_get_None, Forall_forall. intros [k' v'] Hin Heq.
      cbn [fst] in Heq. subst k'. apply Hnotin. apply list_elem_of_fmap. by exists (k, v'). }
    unfold obj_assign. rewrite fold_left_app. cbn [fold_left fst snd].
    fold (obj_assign (obj_set k v
      (fold_left (fun t kv => obj_set (fst kv) (snd kv) t) l1 target)) l2).
    by rewrite (obj_get_assign_other _ _ _ Hl2), obj_get_set_eq.
  - by apply obj_get_assign_other.
Qed.

Ltac decide_goal :=
  match goal with |- ?P => apply (bool_decide_unpack P) end;
  vm_compute; exact I.

Ltac record_field :=
  rewrite obj_get_clean by (cbn [map fst]; decide_goal);
  cbn [obj_get String.eqb Ascii.eqb Bool.eqb].

(** The record of a call without [extra], for a network id that is NaN
    or an integer of at most 2^53 in size, which the template prints
    digit by digit.  The four fixed fields, with
    the authorization still empty; the two tags, where an empty first
    tag is left out and an empty second tag is kept; the optional fields
    exactly when they are given; no field for the feedback text; no key
    beyond the fourteen of the literal and no value that is undefined or
    null. *)
Theorem prepareFeedback_record (w : World) (agentId client : string)
    (chainId : number) (registry : string) (score : option Q)
    (tags : option (list string))
    (text capability name skill task : option string)
    (context proofOfPayment : option obj) (file : obj) :
  prepareFeedback w agentId client chainId registry score tags text
    capability name skill task context proofOfPayment None = Ok file ->
  Double.exact_number chainId = true ->
  obj_get "agentRegistry" file
  = Some (VStr ("eip155:" +:+ toString chainId +:+ ":" +:+ registry))
  /\ obj_get "clientAddress" file
     = Some (VStr ("eip155:" +:+ toString chainId +:+ ":" +:+ client))
  /\ obj_get "createdAt" file = Some (VStr (now_iso w))
  /\ obj_get "feedbackAuth" file = Some (VStr EmptyString)
  /\ obj_get "tag1" file
     = match tags with
       | Some (t :: _) => if JsString.truthy t then Some (VStr t) else None
       | _ => None
       end
  /\ obj_get "tag2" file
     = match tags with
       | Some (_ :: t :: _) => Some (VStr t)
       | _ => None
       end
  /\ obj_get "skill" file = VStr <$> skill
  /\ obj_get "task" file = VStr <$> task
  /\ obj_get "capability" file = VStr <$> capability
  /\ obj_get "name" file = VStr <$> name
  /\ obj_get "context" file = VObj <$> context
  /\ obj_get "proofOfPayment" file = VObj <$> proofOfPayment
  /\ obj_get "text" file = None
  /\ forall k v,
       obj_get k file = Some v ->
       v <> VUndefined /\ v <> VNull
       /\ In k ["agentRegistry"; "agentId"; "clientAddress"; "createdAt";
                "feedbackAuth"; "score"; "tag1"; "tag2"; "skill";
                "context"; "task"; "capability"; "name"; "proofOfPayment"].
Proof.
  unfold prepareFeedback.
  destruct (JsString.split ":" agentId) as [|p0 [|p1 [|? ?]]];
    try discriminate.
  destruct (negb (JsString.truthy p1)); [discriminate|].
  intros [= <-] _.
  repeat match goal with |- _ /\ _ => split end.
  - by record_field.
  - by record_field.
  - by record_field.
  - by record_field.
  - record_field. destruct tags as [[|t ?]|]; cbn [default]; unfold id;
      try done.
    by destruct (JsString.truthy t).
  - record_field. by destruct tags as [[|? [|t ?]]|]; cbn [default]; unfold id.
  - record_field. by destruct skill.
  - record_field. by destruct task.
  - record_field. by destruct capability.
  - record_field. by destruct name.
  - record_field. by destruct context.
  - record_field. by destruct proofOfPayment.
  - by record_field.
  - intros k v (Hin & Hu & Hn)%clean_sound.
    split; [done|]. split; [done|].
    apply (in_map fst) in Hin. exact Hin.
Qed.

(** A feedback with two tags, the first of them empty. *)
Lemma prepareFeedback_record_witness :
  exists file,
    prepareFeedback Samples.world "11155111:42" "0xaa" (Int 11155111) "0xbb"
      None (Some [EmptyString; EmptyString]) (Some "well done") None None
      None None None None None = Ok file
    /\ obj_get "tag1" file = None
    /\ obj_get "tag2" file = Some (VStr EmptyString)
    /\ obj_get "text" file = None.
Proof.
  eexists. split; [reflexivity|].
  destruct (prepareFeedback_record Samples.world "11155111:42" "0xaa"
              (Int 11155111) "0xbb" None (Some [EmptyString; EmptyString])
              (Some "well done") None None None None None None _ eq_refl
              eq_refl)
    as (_ & _ & _ & _ & H1 & H2 & _ & _ & _ & _ & _ & _ & Ht & _).
  by repeat split.
Defined.

(** [extra] has the last word on every key it holds, a fixed field such
    as agentId or clientAddress and a value undefined included; the
    other keys keep what the call without [extra] stores. *)
Theorem prepareFeedback_extra_wins (w : World) (agentId client : string)
    (chainId : number) (registry : string) (score : option Q)
    (tags : option (list string))
    (text capability name skill task : option string)
    (context proofOfPayment : option obj) (e file : obj) :
  NoDup (obj_keys e) ->
  prepareFeedback w agentId client chainId registry score tags text
    capability name skill task context proofOfPayment (Some e) = Ok file ->
  exists cleaned,
    prepareFeedback w agentId client chainId registry score tags text
      capability name skill task context proofOfPayment None = Ok cleaned
    /\ forall k,
         obj_get k file
         = match obj_get k e with
           | Some v => Some v
           | None => obj_get k cleaned
           end.
Proof.
  intros Hnd. rewrite prepareFeedback_extra.
  destruct (prepareFeedback _ _ _ _ _ _ _ _ _ _ _ _ _ _ None)
    as [cleaned|]; [|discriminate].
  intros [= <-]. exists cleaned. split; [reflexivity|].
  intros k. by apply obj_get_assign_nodup.
Qed.

(** An [extra] that replaces the agent id and voids the score. *)
Lemma prepareFeedback_extra_wins_witness :
  exists file,
    prepareFeedback Samples.world "11155111:42" "0xaa" (Int 11155111) "0xbb"
      (Some (97 # 1)) None None None None None None None None
      (Some [("agentId", VStr "other"); ("score", VUndefined)]) = Ok file
    /\ obj_get "agentId" file = Some (VStr "other")
    /\ obj_get "score" file = Some VUndefined
    /\ obj_get "createdAt" file = Some (VStr (now_iso Samples.world)).
Proof.
  destruct (prepareFeedback Samples.world "11155111:42" "0xaa"
              (Int 11155111) "0xbb" (Some (97 # 1)) None None None None None
              None None None
              (Some [("agentId", VStr "other"); ("score", VUndefined)]))
    as [file|err] eqn:Hfile; [|vm_compute in Hfile; discriminate Hfile].
  exists file. split; [reflexivity|].
  assert (Hnd : NoDup (obj_keys [("agentId", VStr "other");
                                  ("score", VUndefined)]))
    by decide_goal.
  destruct (prepareFeedback_extra_wins _ _ _ _ _ _ _ _ _ _ _ _ _ _ _ _
              Hnd Hfile) as (cleaned & Hc & Hk).
  rewrite !Hk. vm_compute in Hc. injection Hc as <-. by repeat split.
Defined.

(** The identifier check of prepareFeedback.  It accepts exactly the
    strings with one colon and something after it, an empty network part
    included, and fails in no other way; so every identifier that passed
    the check of giveFeedback is accepted, and the agentId field of the
    record is then the token id that giveFeedback parsed. *)
Theorem prepareFeedback_identifier_check (w : World)
    (agentId client : string) (chainId : number) (registry : string)
    (score : option Q) (tags : option (list string))
    (text capability name skill task : option string)
    (context proofOfPayment extra : option obj) :
  (is_ok (prepareFeedback w agentId client chainId registry score tags text
            capability name skill task context proofOfPayment extra) = true
   <-> exists p0 p1,
         agentId = p0 +:+ String ":" p1 /\ p1 <> EmptyString
         /\ JsString.occurs ":" p0 = false
         /\ JsString.occurs ":" p1 = false)
  /\ (forall e,
        prepareFeedback w agentId client chainId registry score tags text
          capability name skill task context proofOfPayment extra = Err e ->
        e = InvalidIdentifierInPrepare)
  /\ (forall network tokenId,
        parseAgentId agentId = Ok (network, tokenId) ->
        exists cleaned,
          prepareFeedback w agentId client chainId registry score tags text
            capability name skill task context proofOfPayment None
          = Ok cleaned
          /\ obj_get "agentId" cleaned = Some (VNum tokenId)).
Proof.
  split; [|split].
  - unfold prepareFeedback. split.
    + destruct (JsString.split ":" agentId) as [|p0 [|p1 [|? ?]]] eqn:Hs;
        try discriminate.
      apply split_two in Hs as (Hs & H0 & H1).
      destruct p1 as [|a1 r1]; [discriminate|]. intros _.
      exists p0, (String a1 r1). by repeat split.
    + intros (p0 & p1 & Hs & Hp1 & H0 & H1).
      assert (JsString.split ":" agentId = [p0; p1]) as ->
        by (by apply split_two).
      by destruct p1.
  - unfold prepareFeedback.
    destruct (JsString.split ":" agentId) as [|p0 [|p1 [|? ?]]];
      try (by intros e [= <-]).
    destruct (negb (JsString.truthy p1)); [by intros e [= <-]|discriminate].
  - unfold parseAgentId, prepareFeedback.
    destruct (JsString.split ":" agentId) as [|p0 [|p1 [|? ?]]];
      try discriminate.
    destruct (JsString.truthy p0), (JsString.truthy p1); cbn [negb orb];
      try discriminate.
    intros network tokenId [= <- <-]. eexists. split; [reflexivity|].
    by record_field.
Qed.

End FeedbackRecordFacts.


(** ** Paid tasks with feedback *)

Section TaskFacts.
Import Execution ExecutionTasks.

(** executeTaskWithFeedback makes the paid request first and once, and
    carries the result of executeAgentTask in every answer.  When the
    request failed, nothing follows: no registry read, no upload, no
    submission.  When it succeeded, the calls of giveFeedback follow, and
    an exception of giveFeedback becomes an answer that still carries the
    task result. *)
Theorem executeTaskWithFeedback_outcomes
    (paidGet : string -> string -> obj -> Signer -> Paid) (w : World)
    (agentEndpoint mcpServerUrl : string) (parameters : obj)
    (signer : Signer) (fp : FeedbackParams) (cc : ContractConfig) :
  let task :=
    snd (executeAgentTask paidGet agentEndpoint mcpServerUrl parameters
           signer) in
  let run := giveFeedback w fp cc signer in
  let answer :=
    executeTaskWithFeedback paidGet w agentEndpoint mcpServerUrl parameters
      signer fp cc in
  exists rest,
    fst answer = PaidGet mcpServerUrl agentEndpoint parameters :: rest
    /\ (forall ev, In (Feedback ev) (fst answer) ->
                   success task = true /\ In ev (log run))
    /\ (forall u e p, ~ In (PaidGet u e p) rest)
    /\ match snd answer with
       | FeedbackNotSubmitted t =>
           t = task /\ success task = false /\ rest = []
       | FeedbackSubmitted t r =>
           t = task /\ success task = true /\ outcome run = Ok r
           /\ rest = map Feedback (log run)
       | FeedbackFailed t e =>
           t = task /\ success task = true /\ outcome run = Err e
           /\ rest = map Feedback (log run)
       end.
Proof.
  cbn zeta. unfold executeTaskWithFeedback, executeAgentTask, executeTask.
  cbn [snd].
  destruct (paidGet mcpServerUrl agentEndpoint parameters signer)
    as [data|responseData message]; cbn [success negb fst snd app].
  - eexists. split; [reflexivity|]. split; [|split].
    + intros ev [Hin|Hin]; [discriminate|].
      apply in_map_iff in Hin as (ev' & [= ->] & Hin). done.
    + intros u e p Hin. by apply in_map_iff in Hin as (ev' & ? & _).
    + by destruct (outcome (giveFeedback w fp cc signer)).
  - exists []. split; [reflexivity|]. split; [|split].
    + intros ev [Hin|[]]. discriminate.
    + intros u e p [].
    + done.
Qed.

End TaskFacts.

(** ** The crawler's lists and cascades *)

Section CrawlerRunFacts.
Import Http EndpointCrawler.

Lemma nonEmpty_false {A} (l : list A) : nonEmpty l = false <-> l = [].
Proof. by destruct l. Qed.

Lemma nonEmpty_true {A} (l : list A) : nonEmpty l = true <-> l <> [].
Proof. by destruct l. Qed.

Lemma collect_not_object (v : value) (key : string) :
  (forall o, v <> VObj o) -> collect v key = [].
Proof. intros H. destruct v; try reflexivity. by destruct (H props). Qed.

Lemma containerLoop_find (data : value) (key : string)
    (containerKeys : list string) :
  containerLoop data key containerKeys []
  = default []
      (List.find nonEmpty
         (map (fun c => collect (get data c) key) containerKeys)).
Proof.
  induction containerKeys as [|c rest IH];
    cbn [containerLoop map List.find]; [reflexivity|].
  destruct (hasKey c data && isObjectLike (get data c)) eqn:Hc.
  - cbn [app]. destruct (nonEmpty (collect (get data c) key)) eqn:Hne;
      [reflexivity|].
    apply nonEmpty_false in Hne. rewrite Hne. exact IH.
  - assert (collect (get data c) key = []) as ->; [|exact IH].
    apply collect_not_object. intros o Ho. rewrite Ho in Hc.
    cbn [isObjectLike truthy typeof_object andb] in Hc.
    rewrite andb_true_r in Hc.
    destruct data as [| | | | | |props]; try discriminate Ho.
    cbn [get hasKey] in *. destruct (obj_get c props); [|discriminate Ho].
    by rewrite bool_decide_eq_false in Hc; destruct Hc.
Qed.

(** _extractList looks for the list under the key in four places, the
    data itself and then what it holds under capabilities, abilities and
    features, and returns the names of the first place that gives any;
    names of different places are never mixed, and with none the list is
    empty.  On a value that is no object and no array the test of the
    key throws. *)
Theorem extractList_first_non_empty_source (data : value) (key : string) :
  match data with
  | VObj _ | VArr _ =>
      _extractList data key
      = Ok (default []
              (List.find nonEmpty
                 [ collect data key;
                   collect (get data "capabilities") key;
                   collect (get data "abilities") key;
                   collect (get data "features") key ]))
  | _ => _extractList data key = Err TypeError
  end.
Proof.
  destruct data; try reflexivity; unfold _extractList;
    cbn [has mbind result_bind mret result_ret]; f_equal;
    (destruct (collect _ key) as [|x l] eqn:Hc;
     cbn [length Nat.eqb]; [|reflexivity]);
    by rewrite containerLoop_find.
Qed.

(** The loop over the agent cards. *)
Lemma tryAgentcards_first (net : Net) (urls : list string) :
  let answers u skills :=
    exists response data,
      fetch net (GET u) = Some response /\ ok response = true
      /\ JSON_parse net (text response) = Some data
      /\ _extractList data "skills" = Ok skills /\ skills <> [] in
  match snd (tryAgentcards net urls) with
  | Some caps =>
      exists i u,
        urls !! i = Some u
        /\ fst (tryAgentcards net urls) = map GET (take (S i) urls)
        /\ answers u (a2aSkills caps)
        /\ forall j u' s, (j < i)%nat -> urls !! j = Some u' ->
                          ~ answers u' s
  | None =>
      fst (tryAgentcards net urls) = map GET urls
      /\ forall u s, u ∈ urls -> ~ answers u s
  end.
Proof.
  cbn zeta. induction urls as [|u rest IH]; cbn [tryAgentcards].
  - cbn [snd fst map]. split; [done|].
    intros u s Hu. by apply elem_of_nil in Hu.
  - set (found := match fetch net (GET u) with
                  | Some response => _
                  | None => None
                  end).
    assert (Hfound : match found with
                     | Some r =>
                         exists response data,
                           fetch net (GET u) = Some response
                           /\ ok response = true
                           /\ JSON_parse net (text response) = Some data
                           /\ _extractList data "skills" = Ok (a2aSkills r)
                           /\ a2aSkills r <> []
                     | None =>
                         forall s,
                           ~ exists response data,
                               fetch net (GET u) = Some response
                               /\ ok response = true
                               /\ JSON_parse net (text response) = Some data
                               /\ _extractList data "skills" = Ok s
                               /\ s <> []
                     end).
    { subst found.
      destruct (fetch net (GET u)) as [response|] eqn:Hf;
        [|by intros s (? & ? & ? & _)].
      destruct (ok response) eqn:Hok;
        [|intros s (r' & d' & [= <-] & Hok' & _); congruence].
      destruct (JSON_parse net (text response)) as [data|] eqn:Hp;
        [|intros s (r' & d' & [= <-] & _ & Hp' & _); congruence].
      destruct (_extractList data "skills") as [skills|e] eqn:Hl;
        [|intros s (r' & d' & [= <-] & _ & Hp' & Hl' & _); congruence].
      destruct (nonEmpty skills) eqn:Hne.
      - exists response, data. cbn [a2aSkills].
        by apply nonEmpty_true in Hne.
      - apply nonEmpty_false in Hne.
        intros s (r' & d' & [= <-] & _ & Hp' & Hl' & Hs).
        rewrite Hp in Hp'. injection Hp' as <-. congruence. }
    destruct found as [r|].
    + cbn [snd fst]. exists 0%nat, u. split; [done|]. split; [done|].
      split; [done|]. intros j u' s Hj. lia.
    + destruct (tryAgentcards net rest) as [reqs r] eqn:Hrest.
      cbn [snd fst] in *. destruct r as [caps|].
      * destruct IH as (i & u0 & Hi & Hreqs & Hans & Hbefore).
        exists (S i), u0. split; [done|].
        split; [by rewrite firstn_cons, Hreqs|]. split; [done|].
        intros [|j] u' s Hj Hu'.
        -- injection Hu' as <-. apply Hfound.
        -- apply (Hbefore j); [lia | done].
      * destruct IH as (Hreqs & Hall). split; [by rewrite Hreqs|].
        intros u' s [->|Hu']%elem_of_cons; [apply Hfound | by apply Hall].
Qed.

(** fetchA2aCapabilities asks for up to three agent cards in a fixed
    order and stops at the first that answers with a non-empty skills
    list, which it returns; it gives null after the third, and makes no
    request at all for an endpoint that is no http or https URL.  For
    an endpoint without a trailing slash the third request repeats the
    second. *)
Theorem fetchA2aCapabilities_attempts (net : Net) (endpoint : string) :
  let urls :=
    [ endpoint +:+ "/agentcard.json";
      endpoint +:+ "/.well-known/agent.json";
      JsString.stripTrailingSlash endpoint +:+ "/.well-known/agent.json" ] in
  let answers u skills :=
    exists response data,
      fetch net (GET u) = Some response /\ ok response = true
      /\ JSON_parse net (text response) = Some data
      /\ _extractList data "skills" = Ok skills /\ skills <> [] in
  (isHttpUrl endpoint = false -> fetchA2aCapabilities net endpoint = ([], None))
  /\ (isHttpUrl endpoint = true ->
      match snd (fetchA2aCapabilities net endpoint) with
      | Some caps =>
          exists i u,
            urls !! i = Some u
            /\ fst (fetchA2aCapabilities net endpoint)
               = map GET (take (S i) urls)
            /\ answers u (a2aSkills caps)
            /\ forall j u' s, (j < i)%nat -> urls !! j = Some u' ->
                              ~ answers u' s
      | None =>
          fst (fetchA2aCapabilities net endpoint) = map GET urls
          /\ (forall u s, u ∈ urls -> ~ answers u s)
          /\ (JsString.stripTrailingSlash endpoint = endpoint ->
              fst (fetchA2aCapabilities net endpoint)
              = [ GET (endpoint +:+ "/agentcard.json");
                  GET (endpoint +:+ "/.well-known/agent.json");
                  GET (endpoint +:+ "/.well-known/agent.json") ])
      end).
Proof.
  cbn zeta. unfold fetchA2aCapabilities. split.
  - by intros ->.
  - intros ->. cbn [negb].
    pose proof (tryAgentcards_first net
      [ endpoint +:+ "/agentcard.json";
        endpoint +:+ "/.well-known/agent.json";
        JsString.stripTrailingSlash endpoint +:+ "/.well-known/agent.json" ])
      as H.
    cbn zeta in H.
    destruct (snd (tryAgentcards net _)) as [caps|]; [exact H|].
    destruct H as [Hreqs Hall]. split; [done|]. split; [done|].
    intros Hstrip. rewrite Hreqs. cbn [map]. by rewrite Hstrip.
Qed.

Lemma someIfNonEmpty_not_empty {A} (l : list A) :
  someIfNonEmpty l <> Some [].
Proof. by destruct l. Qed.

Lemma someIfNonEmpty_is_Some {A} (l : list A) :
  nonEmpty l = true -> is_Some (someIfNonEmpty l).
Proof. destruct l; [discriminate | by eexists]. Qed.

Lemma probes_requests (net : Net) (base : string) (paths : list string) :
  let reqs := concat (map (fun p => fst (probe net (base +:+ p))) paths) in
  length reqs = (3 * length paths)%nat
  /\ Forall (fun req => method req = "POST") reqs.
Proof.
  cbn zeta. induction paths as [|p rest [IHl IHf]]; cbn [map concat].
  - split; [reflexivity | constructor].
  - destruct (probe_requests net (base +:+ p)) as [-> _].
    cbn [app length]. split; [rewrite IHl; lia|].
    by repeat constructor.
Qed.

(** Where the capabilities that fetchMcpCapabilities returns come from.
    Either from the JSON-RPC probe of the first of the paths root, /mcp,
    /sse whose probe finds any, the paths before it having found
    nothing, after the three POST requests of each path tried, in the
    order of the paths, and no other request; a list that came back
    empty is then absent from the answer.  Or from
    the agent card, asked for only after all nine POST requests found
    nothing; the answer then has all three lists, empty ones included.
    In both cases one list at least is not empty.  Without an answer
    the endpoint was no http or https URL and nothing was requested, or
    all ten requests were made. *)
Theorem fetchMcpCapabilities_sources (net : Net) (endpoint : string) :
  let base := JsString.stripTrailingSlash endpoint in
  let reqs := fst (fetchMcpCapabilities net endpoint) in
  let card := GET (endpoint +:+ "/agentcard.json") in
  match snd (fetchMcpCapabilities net endpoint) with
  | Some caps =>
      isHttpUrl endpoint = true
      /\ ((exists i path,
             endpointPaths !! i = Some path
             /\ snd (probe net (base +:+ path)) = Some caps
             /\ (forall j p, (j < i)%nat -> endpointPaths !! j = Some p ->
                             snd (probe net (base +:+ p)) = None)
             /\ reqs
                = concat (map (fun p => fst (probe net (base +:+ p)))
                            (take (S i) endpointPaths))
             /\ length reqs = (3 * S i)%nat
             /\ Forall (fun req => method req = "POST") reqs
             /\ mcpTools caps <> Some []
             /\ mcpPrompts caps <> Some []
             /\ mcpResources caps <> Some []
             /\ (is_Some (mcpTools caps) \/ is_Some (mcpPrompts caps)
                 \/ is_Some (mcpResources caps)))
          \/ ((forall p, p ∈ endpointPaths ->
                         snd (probe net (base +:+ p)) = None)
              /\ exists posts response data tools prompts resources,
                   reqs = posts ++ [card]
                   /\ length posts = 9%nat
                   /\ Forall (fun req => method req = "POST") posts
                   /\ fetch net card = Some response
                   /\ ok response = true
                   /\ JSON_parse net (text response) = Some data
                   /\ _extractList data "tools" = Ok tools
                   /\ _extractList data "prompts" = Ok prompts
                   /\ _extractList data "resources" = Ok resources
                   /\ caps = {| mcpTools := Some (VStr <$> tools);
                                mcpPrompts := Some (VStr <$> prompts);
                                mcpResources := Some (VStr <$> resources) |}
                   /\ (tools <> [] \/ prompts <> [] \/ resources <> [])))
  | None =>
      (isHttpUrl endpoint = false /\ reqs = [])
      \/ (isHttpUrl endpoint = true
          /\ (forall p, p ∈ endpointPaths ->
                        snd (probe net (base +:+ p)) = None)
          /\ exists posts,
               reqs = posts ++ [card] /\ length posts = 9%nat
               /\ Forall (fun req => method req = "POST") posts)
  end.
Proof.
  cbn zeta. unfold fetchMcpCapabilities.
  destruct (isHttpUrl endpoint); cbn [negb fst snd]; [|by left].
  unfold _fetchViaJsonRpc.
  pose proof (tryPaths_first net (JsString.stripTrailingSlash endpoint)
                endpointPaths) as H.
  destruct (tryPaths net (JsString.stripTrailingSlash endpoint)
              endpointPaths) as [reqs found].
  cbn [fst snd] in H. destruct found as [caps|].
  - cbn [fst snd]. split; [done|]. left.
    destruct H as (i & path & Hi & Hp & Hbefore & ->).
    exists i, path. split; [done|]. split; [done|].
    split; [done|]. split; [done|].
    destruct (probes_requests net (JsString.stripTrailingSlash endpoint)
                (take (S i) endpointPaths)) as [Hlen Hposts].
    cbn zeta in Hlen, Hposts.
    split.
    { rewrite Hlen, length_take. apply lookup_lt_Some in Hi. lia. }
    split; [done|].
    rewrite probe_result in Hp. cbn zeta in Hp.
    destruct (nonEmpty _ || nonEmpty _ || nonEmpty _) eqn:Hany;
      [|discriminate].
    injection Hp as <-. cbn [mcpTools mcpPrompts mcpResources].
    split; [apply someIfNonEmpty_not_empty|].
    split; [apply someIfNonEmpty_not_empty|].
    split; [apply someIfNonEmpty_not_empty|].
    apply orb_true_iff in Hany as [[Hn|Hn]%orb_true_iff|Hn].
    + left. by apply someIfNonEmpty_is_Some.
    + right. right. by apply someIfNonEmpty_is_Some.
    + right. left. by apply someIfNonEmpty_is_Some.
  - destruct H as [Hall ->].
    destruct (probes_requests net (JsString.stripTrailingSlash endpoint)
                endpointPaths) as [Hlen Hposts].
    cbn zeta in Hlen, Hposts.
    unfold agentcardCapabilities.
    set (card := GET (endpoint +:+ "/agentcard.json")).
    assert (Hnone :
         (true = true
          /\ (forall p, p ∈ endpointPaths ->
                snd (probe net (JsString.stripTrailingSlash endpoint +:+ p))
                = None)
          /\ exists posts,
               concat (map (fun p => fst (probe net
                         (JsString.stripTrailingSlash endpoint +:+ p)))
                       endpointPaths) ++ [card] = posts ++ [card]
               /\ length posts = 9%nat
               /\ Forall (fun req => method req = "POST") posts)).
    { split; [done|]. split; [done|]. eexists. split; [reflexivity|].
      by split. }
    destruct (fetch net card) as [response|] eqn:Hf; cbn [fst snd];
      [|by right].
    destruct (ok response) eqn:Hok; [|by right].
    destruct (JSON_parse net (text response)) as [data|] eqn:Hparse;
      [|by right].
    destruct (_extractList data "tools") as [tools|] eqn:Ht; [|by right].
    destruct (_extractList data "prompts") as [prompts|] eqn:Hpr;
      [|by right].
    destruct (_extractList data "resources") as [resources|] eqn:Hr;
      [|by right].
    destruct (nonEmpty tools || nonEmpty prompts || nonEmpty resources)
      eqn:Hany; [|by right].
    split; [done|]. right. split; [done|].
    eexists _, response, data, tools, prompts, resources.
    split; [reflexivity|]. split; [done|]. split; [done|].
    split; [done|]. split; [done|]. split; [done|]. split; [done|].
    split; [done|]. split; [done|]. split; [done|].
    apply orb_true_iff in Hany as [[Hn|Hn]%orb_true_iff|Hn];
      apply nonEmpty_true in Hn; eauto.
Qed.

End CrawlerRunFacts.


(** ** The IPFS client *)

Section IpfsClientFacts.
Import Ipfs IpfsClient.

(** add resolves with the identifier of the JSON upload when the text
    parses and that upload succeeds; in every other case, a failed parse
    and a failed JSON upload alike, it uploads the text as the file
    data.txt, and its answer is the answer of that upload.  So add
    throws only after the file upload was tried and failed, and never
    makes more than these two calls. *)
Theorem add_falls_back_to_file (pinata : Pinata)
    (JSON_parse : string -> option value) (config : IPFSClientConfig)
    (data : string) :
  let jwt := pinataJwt config in
  let file := CallUploadFile jwt "data.txt" "text/plain" data in
  let run := add pinata JSON_parse config data in
  let jsonUploaded :=
    match JSON_parse data with
    | Some jsonData => uploadJson pinata jwt jsonData
    | None => None
    end in
  match jsonUploaded with
  | Some cid =>
      snd run = Returned cid
      /\ exists jsonData,
           JSON_parse data = Some jsonData
           /\ fst run = [CallUploadJson jwt jsonData]
  | None =>
      last (fst run) = Some file
      /\ snd run
         = match uploadFile pinata jwt "data.txt" "text/plain" data with
           | Some cid => Returned cid
           | None => Thrown FailedToPin
           end
      /\ match JSON_parse data with
         | Some jsonData => fst run = [CallUploadJson jwt jsonData; file]
         | None => fst run = [file]
         end
  end.
Proof.
  cbn zeta. unfold add.
  destruct (JSON_parse data) as [jsonData|]; [|done].
  destruct (uploadJson pinata _ jsonData) as [cid|]; [|done].
  split; [done|]. by exists jsonData.
Qed.

(** getJson parses the text that get returns, which is the body of the
    first gateway, in list order, whose fetch was fulfilled.  When that
    body is no JSON the call throws: the bodies of the later gateways
    are not tried.  It throws the retrieval error exactly when every
    gateway failed.  getRegistrationFile is the same call. *)
Theorem getJson_first_gateway_decides (GW : list string)
    (fetch : string -> Fetched) (JSON_parse : string -> option value)
    (config : IPFSClientConfig) (cid : string) :
  let cid' := if JsString.startsWith cid "ipfs://"
              then JsString.slice 7 cid else cid in
  let gateways := gatewayUrls GW config cid' in
  let first t :=
    exists i g,
      gateways !! i = Some g
      /\ settlement (fetchText fetch g) = Fulfilled t
      /\ forall j g', (j < i)%nat -> gateways !! j = Some g' ->
                      settlement (fetchText fetch g') = Rejected in
  fst (getJson GW fetch JSON_parse config cid) = gateways
  /\ getRegistrationFile GW fetch JSON_parse config cid
     = getJson GW fetch JSON_parse config cid
  /\ match snd (getJson GW fetch JSON_parse config cid) with
     | Returned v => exists t, first t /\ JSON_parse t = Some v
     | Thrown e =>
         (e = RetrievalFailed
          /\ forall g, g ∈ gateways ->
                       settlement (fetchText fetch g) = Rejected)
         \/ (e = JsonSyntaxError
             /\ exists t, first t /\ JSON_parse t = None)
     end.
Proof.
  cbn zeta. unfold getRegistrationFile, getJson.
  rewrite get_unfold. cbn zeta. cbn [fst snd].
  split; [done|]. split; [done|].
  destruct (firstFulfilled _) as [t|] eqn:Hfirst; cbn [of_option].
  - apply firstFulfilled_Some in Hfirst.
    destruct (JSON_parse t) as [v|] eqn:Hparse; [by exists t|].
    right. split; [done|]. by exists t.
  - left. split; [done|]. by apply firstFulfilled_None.
Qed.

Lemma stripTrailingSlash_slash (g : string) :
  JsString.stripTrailingSlash (g +:+ "/") = g.
Proof.
  induction g as [|a g IH]; [reflexivity|].
  rewrite append_String. cbn [JsString.stripTrailingSlash].
  rewrite IH. destruct g; reflexivity.
Qed.

(** get takes an identifier with or without the ipfs:// prefix, and a
    configured gateway with or without one trailing slash: the fetches
    issued and the answer are the same. *)
Theorem get_normalises_its_input (GW : list string)
    (fetch : string -> Fetched) (jwt : option string) (g cid : string) :
  JsString.startsWith cid "ipfs://" = false ->
  g <> EmptyString ->
  JsString.stripTrailingSlash g = g ->
  get GW fetch {| pinataJwt := jwt; pinataGateway := Some (g +:+ "/") |}
    ("ipfs://" +:+ cid)
  = get GW fetch {| pinataJwt := jwt; pinataGateway := Some g |} cid
  /\ fst (get GW fetch {| pinataJwt := jwt; pinataGateway := Some g |} cid)
     = (g +:+ "/ipfs/" +:+ cid)
       :: map (fun gw => JsString.stripTrailingSlash gw +:+ "/ipfs/" +:+ cid)
            GW.
Proof.
  intros Hcid Hg Hstrip.
  assert (Hget : forall c,
    get GW fetch {| pinataJwt := jwt; pinataGateway := Some c |} cid
    = get GW fetch {| pinataJwt := jwt; pinataGateway := Some c |}
        ("ipfs://" +:+ cid)).
  { intros c. unfold get. rewrite Hcid.
    assert (JsString.startsWith ("ipfs://" +:+ cid) "ipfs://" = true) as ->
      by (by destruct cid).
    by change (JsString.slice 7 ("ipfs://" +:+ cid)) with cid. }
  rewrite <- Hget. unfold get. rewrite Hcid. cbn [fst].
  unfold gatewayUrls. cbn [pinataGateway].
  assert (JsString.truthy (g +:+ "/") = true) as -> by (by destruct g).
  assert (JsString.truthy g = true) as -> by (by destruct g).
  cbn [map]. by rewrite stripTrailingSlash_slash, Hstrip.
Qed.

(** The sample gateways, asked with a URI and a gateway that ends in a
    slash. *)
Lemma get_normalises_its_input_witness :
  get NetSamples.fallbackGateways NetSamples.gatewayFetch
    {| pinataJwt := Some "jwt"; pinataGateway := Some "https://a.example/" |}
    "ipfs://cid"
  = get NetSamples.fallbackGateways NetSamples.gatewayFetch
      {| pinataJwt := Some "jwt"; pinataGateway := Some "https://a.example" |}
      "cid".
Proof.
  apply (get_normalises_its_input NetSamples.fallbackGateways
           NetSamples.gatewayFetch (Some "jwt") "https://a.example" "cid");
    [reflexivity | discriminate | reflexivity].
Defined.

End IpfsClientFacts.

(** ** The subgraph queries *)

Section AgentQueryFacts.
Import Http AgentQueries.

Lemma getGraphQLEndpoint_ok (chainId : option number) (url : string) :
  getGraphQLEndpoint chainId = QOk url ->
  (chainId = Some (Int 11155111) \/ chainId = Some (Int 84532)
   \/ chainId = Some (Int 80002))
  /\ url = "https://api.studio.thegraph.com/query/1715584/fluidsdk/version/latest".
Proof.
  unfold getGraphQLEndpoint.
  destruct chainId as [[|z]|]; cbn [truthy]; try discriminate.
  destruct (z =? 0) eqn:H0; cbn [negb]; [discriminate|].
  unfold DEFAULT_SUBGRAPH_URLS.
  destruct (z =? 11155111) eqn:H1;
    [apply Z.eqb_eq in H1 as ->; intros [= <-]; eauto|].
  destruct (z =? 84532) eqn:H2;
    [apply Z.eqb_eq in H2 as ->; intros [= <-]; eauto|].
  destruct (z =? 80002) eqn:H3;
    [apply Z.eqb_eq in H3 as ->; intros [= <-]; eauto 6|].
  discriminate.
Qed.

(** getGraphQLEndpoint knows three networks, Ethereum Sepolia, Base
    Sepolia and Polygon Amoy, and gives the same URL for each.  A call
    without chain id, or with 0 or NaN, falls on the default 97, which
    has no URL, and throws.  Every network with a URL has its
    registries; Linea Sepolia has registries and no URL. *)
Theorem getGraphQLEndpoint_supported_chains (chainId : option number) :
  (forall url,
     getGraphQLEndpoint chainId = QOk url <->
     (chainId = Some (Int 11155111) \/ chainId = Some (Int 84532)
      \/ chainId = Some (Int 80002))
     /\ url = "https://api.studio.thegraph.com/query/1715584/fluidsdk/version/latest")
  /\ (chainId = None \/ chainId = Some (Int 0) \/ chainId = Some NaN ->
      getGraphQLEndpoint chainId = QErr (NoSubgraphUrl (Int 97)))
  /\ (forall url,
        getGraphQLEndpoint chainId = QOk url ->
        exists z,
          chainId = Some (Int z)
          /\ is_ok (Execution.lookupRegistries z) = true)
  /\ is_ok (Execution.lookupRegistries 59141) = true
  /\ getGraphQLEndpoint (Some (Int 59141))
     = QErr (NoSubgraphUrl (Int 59141)).
Proof.
  split; [|split; [|split; [|split]]].
  - intros url. split; [apply getGraphQLEndpoint_ok|].
    by intros [[-> | [-> | ->]] ->].
  - by intros [-> | [-> | ->]].
  - intros url [[-> | [-> | ->]] _]%getGraphQLEndpoint_ok; by eexists.
  - reflexivity.
  - reflexivity.
Qed.

(** The chain id has no part in a query beyond the choice of the URL,
    and the three URLs are one: fetchAgents and fetchAgentById send the
    same request and give the same answer for any two supported
    networks.  For a network without URL they throw before any
    request. *)
Theorem fetches_do_not_depend_on_the_chain (net : Net)
    (charAt0 : string -> value) (first : option number)
    (orderBy orderDirection : option string) (agentId : string)
    (chain1 chain2 : option number) (url1 url2 : string) :
  getGraphQLEndpoint chain1 = QOk url1 ->
  getGraphQLEndpoint chain2 = QOk url2 ->
  fetchAgents net first orderBy orderDirection chain1
  = fetchAgents net first orderBy orderDirection chain2
  /\ fetchAgentById net charAt0 agentId chain1
     = fetchAgentById net charAt0 agentId chain2
  /\ length (fst (fetchAgents net first orderBy orderDirection chain1))
     = 1%nat
  /\ forall chain e,
       getGraphQLEndpoint chain = QErr e ->
       fetchAgents net first orderBy orderDirection chain = ([], QErr e)
       /\ fetchAgentById net charAt0 agentId chain = ([], QErr e).
Proof.
  intros H1 H2.
  destruct (getGraphQLEndpoint_ok _ _ H1) as [_ ->].
  destruct (getGraphQLEndpoint_ok _ _ H2) as [_ ->].
  unfold fetchAgents, fetchAgentById. rewrite H1, H2.
  split; [done|]. split; [done|]. split; [done|].
  by intros chain e ->.
Qed.

(** Ethereum Sepolia and Base Sepolia. *)
Lemma fetches_do_not_depend_on_the_chain_witness :
  fetchAgents (QuerySamples.subgraphNet QuerySamples.replyWithEmptyErrors)
    None None None (Some (Int 11155111))
  = fetchAgents (QuerySamples.subgraphNet QuerySamples.replyWithEmptyErrors)
      None None None (Some (Int 84532)).
Proof.
  apply (fetches_do_not_depend_on_the_chain
           (QuerySamples.subgraphNet QuerySamples.replyWithEmptyErrors)
           (fun _ => VUndefined)
           None None None "1" (Some (Int 11155111)) (Some (Int 84532))
           _ _ eq_refl eq_refl).
Defined.

(** A reply with an errors field that is an array is refused, the empty
    array included, whatever data it carries. *)
Theorem fetches_refuse_any_errors_array (net : Net)
    (charAt0 : string -> value) (first : option number)
    (orderBy orderDirection : option string) (agentId : string)
    (chainId : option number) (endpoint : string)
    (response : HttpResponse) (result : obj) (errors : list value) :
  getGraphQLEndpoint chainId = QOk endpoint ->
  (forall req, url req = endpoint -> fetch net req = Some response) ->
  ok response = true ->
  JSON_parse net (text response) = Some (VObj result) ->
  obj_get "errors" result = Some (VArr errors) ->
  snd (fetchAgents net first orderBy orderDirection chainId)
  = QErr GraphQLErrors
  /\ snd (fetchAgentById net charAt0 agentId chainId) = QErr GraphQLErrors.
Proof.
  intros Hurl Hfetch Hok Hparse Herrors.
  unfold fetchAgents, fetchAgentById. rewrite Hurl. cbn [snd].
  rewrite !Hfetch by reflexivity.
  unfold resultData. rewrite Hok, Hparse. cbn [negb prop get].
  by rewrite Herrors.
Qed.

(** A reply that carries one agent and an empty errors array. *)
Lemma fetches_refuse_any_errors_array_witness :
  snd (fetchAgents
         (QuerySamples.subgraphNet QuerySamples.replyWithEmptyErrors)
         None None None (Some (Int 84532)))
  = QErr GraphQLErrors.
Proof.
  apply (fetches_refuse_any_errors_array
           (QuerySamples.subgraphNet QuerySamples.replyWithEmptyErrors)
           (fun _ => VUndefined) None None None "7" (Some (Int 84532))
           "https://api.studio.thegraph.com/query/1715584/fluidsdk/version/latest"
           {| ok := true; contentType := Some "application/json";
              text := "reply" |}
           [ ("data", VObj [("agents", VArr [VObj [("agentId", VStr "7")]])]);
             ("errors", VArr []) ]
           []);
    reflexivity.
Defined.

(** fetchAgentById answers with the first agent of the reply when there
    is one, whatever its id, and with null when the list is empty; it
    never answers undefined. *)
Theorem fetchAgentById_first_or_null (net : Net)
    (charAt0 : string -> value) (agentId : string)
    (chainId : option number) :
  (forall v,
     snd (fetchAgentById net charAt0 agentId chainId) = QOk v ->
     v <> VUndefined /\ (v = VNull \/ truthy v = true))
  /\ (forall url response result data agents,
        getGraphQLEndpoint chainId = QOk url ->
        fetch net (graphqlRequest url GET_AGENT_BY_ID_QUERY
                     [("agentId", VStr agentId)]) = Some response ->
        ok response = true ->
        JSON_parse net (text response) = Some (VObj result) ->
        obj_get "errors" result = None ->
        obj_get "data" result = Some (VObj data) ->
        obj_get "agents" data = Some (VArr agents) ->
        snd (fetchAgentById net charAt0 agentId chainId)
        = QOk match agents with
              | agent :: _ => if truthy agent then agent else VNull
              | [] => VNull
              end).
Proof.
  split.
  - unfold fetchAgentById.
    destruct (getGraphQLEndpoint chainId); [|discriminate]. cbn [snd].
    destruct (resultData _ _) as [data|]; [|discriminate].
    destruct (prop data "agents") as [agents|]; [|discriminate].
    destruct (index0 charAt0 agents) as [agent|]; [|discriminate].
    intros v [= <-]. destruct (truthy agent) eqn:Ht.
    + split; [by destruct agent | by right].
    + split; [done | by left].
  - intros url response result data agents Hurl Hfetch Hok Hparse He Hd Ha.
    unfold fetchAgentById. rewrite Hurl. cbn [snd]. rewrite Hfetch.
    unfold resultData. rewrite Hok, Hparse. cbn [negb prop get].
    rewrite He, Hd. cbn [default truthy]. unfold id. cbn [prop get].
    rewrite Ha. cbn [default]. unfold id. cbn [index0]. by destruct agents.
Qed.

End AgentQueryFacts.


(** ** The crawler's transport *)

Section TransportFacts.
Import Http EndpointCrawler.

Lemma occurs_app (c : ascii) (a b : string) :
  JsString.occurs c (a +:+ b) = JsString.occurs c a || JsString.occurs c b.
Proof.
  induction a as [|x a IH]; [reflexivity|].
  rewrite append_String. cbn [JsString.occurs]. by rewrite IH, orb_assoc.
Qed.

(** The lines of an event that carries [j] as its data. *)
Lemma firstDataLine_event (j : string) :
  JsString.occurs newline j = false ->
  firstDataLine
    (JsString.split newline
       ("event: message"
        +:+ String newline
              (("data: " +:+ j)
               +:+ String newline (String newline EmptyString))))
  = Some j.
Proof.
  intros Hj.
  rewrite split_app_sep by reflexivity.
  rewrite split_app_sep by (by rewrite occurs_app, Hj).
  cbn [firstDataLine].
  change (JsString.startsWith "event: message" "data: ") with false.
  assert (JsString.startsWith ("data: " +:+ j) "data: " = true) as ->
    by (by destruct j).
  reflexivity.
Qed.

(** A reply framed as a server-sent event.  Whatever the content type,
    the body is taken as an event because it holds the event line;
    the JSON of its data line is parsed and its result field, when it
    has one, is the answer.  When that answer is falsy (0, false, the
    empty string) the whole body is parsed as JSON in its place, which
    gives null unless the body as a whole is JSON.  A reply with an
    error status is null. *)
Theorem jsonRpcCall_reads_the_event (net : Net) (u rpcMethod j : string)
    (response : HttpResponse) (doc answer : value) :
  fetch net (fst (_jsonRpcCall net u rpcMethod)) = Some response ->
  text response
  = "event: message"
    +:+ String newline
          (("data: " +:+ j)
           +:+ String newline (String newline EmptyString)) ->
  JsString.occurs newline j = false ->
  JSON_parse net j = Some doc ->
  unwrapResult doc = Some answer ->
  snd (_jsonRpcCall net u rpcMethod)
  = if negb (ok response) then VNull
    else if truthy answer then answer
    else match JSON_parse net (text response) with
         | Some whole => default VNull (unwrapResult whole)
         | None => VNull
         end.
Proof.
  intros Hfetch Htext Hj Hparse Hanswer.
  unfold _jsonRpcCall in *. cbn [fst snd] in *. rewrite Hfetch.
  destruct (ok response); cbn [negb]; [|reflexivity].
  assert (Hincl : JsString.includes (text response) "event: message" = true)
    by (by rewrite Htext).
  rewrite Hincl, orb_true_r.
  assert (Hsse : _parseSseResponse net (text response) = answer).
  { unfold _parseSseResponse.
    rewrite Htext, (firstDataLine_event j Hj), Hparse, Hanswer.
    reflexivity. }
  by rewrite Hsse.
Qed.

(** The sample server: the tools of its event. *)
Lemma jsonRpcCall_reads_the_event_witness :
  snd (_jsonRpcCall TransportSamples.sseNet "https://agent.example"
         "tools/list")
  = VObj [("tools", VArr [VObj [("name", VStr "search")]])].
Proof.
  apply (jsonRpcCall_reads_the_event TransportSamples.sseNet
           "https://agent.example" "tools/list" TransportSamples.toolsJson
           {| ok := true; contentType := Some "text/event-stream";
              text := TransportSamples.sseBody |}
           TransportSamples.toolsDoc
           (VObj [("tools", VArr [VObj [("name", VStr "search")]])]));
    reflexivity.
Defined.

(** The second copy of the crawler never looks at the status of a
    reply: its _fetchViaJsonRpc depends on the bodies alone, so a server
    that answers the three GETs with an error status and a JSON body is
    taken at its word.  It asks for /tools, /resources and /prompts one
    after the other, stops at the first request that fails or whose body
    is no JSON, and otherwise answers with the three documents as they
    are.  In the first copy a reply with an error status is null. *)
Theorem second_copy_never_checks_the_status (net net' : Net)
    (httpUrl : string) :
  (forall s, JSON_parse net' s = JSON_parse net s) ->
  (forall req, text <$> fetch net' req = text <$> fetch net req) ->
  EndpointCrawlerGet._fetchViaJsonRpc net' httpUrl
  = EndpointCrawlerGet._fetchViaJsonRpc net httpUrl
  /\ (forall caps,
        snd (EndpointCrawlerGet._fetchViaJsonRpc net httpUrl) = Some caps <->
        EndpointCrawlerGet.getJson net (httpUrl +:+ "/tools")
        = Some (EndpointCrawlerGet.mcpTools caps)
        /\ EndpointCrawlerGet.getJson net (httpUrl +:+ "/resources")
           = Some (EndpointCrawlerGet.mcpResources caps)
        /\ EndpointCrawlerGet.getJson net (httpUrl +:+ "/prompts")
           = Some (EndpointCrawlerGet.mcpPrompts caps))
  /\ (exists n,
        (1 <= n <= 3)%nat
        /\ fst (EndpointCrawlerGet._fetchViaJsonRpc net httpUrl)
           = take n [ GET (httpUrl +:+ "/tools");
                      GET (httpUrl +:+ "/resources");
                      GET (httpUrl +:+ "/prompts") ])
  /\ (forall u rpcMethod response,
        fetch net (fst (_jsonRpcCall net u rpcMethod)) = Some response ->
        ok response = false ->
        snd (_jsonRpcCall net u rpcMethod) = VNull).
Proof.
  intros Hparse Hfetch.
  assert (Hget : forall u,
    EndpointCrawlerGet.getJson net' u = EndpointCrawlerGet.getJson net u).
  { intros u. unfold EndpointCrawlerGet.getJson.
    specialize (Hfetch (GET u)).
    destruct (fetch net' (GET u)) as [r'|], (fetch net (GET u)) as [r|];
      try discriminate Hfetch; [|reflexivity].
    injection Hfetch as ->. apply Hparse. }
  split; [|split; [|split]].
  - unfold EndpointCrawlerGet._fetchViaJsonRpc. by rewrite !Hget.
  - intros caps. unfold EndpointCrawlerGet._fetchViaJsonRpc.
    destruct (EndpointCrawlerGet.getJson net (httpUrl +:+ "/tools"))
      as [t|]; [|split; [discriminate | by intros [? _]]].
    destruct (EndpointCrawlerGet.getJson net (httpUrl +:+ "/resources"))
      as [r|]; [|split; [discriminate | by intros (_ & ? & _)]].
    destruct (EndpointCrawlerGet.getJson net (httpUrl +:+ "/prompts"))
      as [p|]; [|split; [discriminate | by intros (_ & _ & ?)]].
    cbn [snd]. split.
    + by intros [= <-].
    + destruct caps as [t' r' p']. cbn.
      by intros ([= ->] & [= ->] & [= ->]).
  - unfold EndpointCrawlerGet._fetchViaJsonRpc.
    destruct (EndpointCrawlerGet.getJson net (httpUrl +:+ "/tools"));
      [|exists 1%nat; split; [lia | reflexivity]].
    destruct (EndpointCrawlerGet.getJson net (httpUrl +:+ "/resources"));
      [|exists 2%nat; split; [lia | reflexivity]].
    destruct (EndpointCrawlerGet.getJson net (httpUrl +:+ "/prompts"));
      exists 3%nat; (split; [lia | reflexivity]).
  - intros u rpcMethod response Hf Hok.
    unfold _jsonRpcCall in *. cbn [fst snd] in *. by rewrite Hf, Hok.
Qed.

(** The sample server and its twin that answers with an error status. *)
Lemma second_copy_never_checks_the_status_witness :
  EndpointCrawlerGet._fetchViaJsonRpc
    (TransportSamples.withErrorStatus NetSamples.mcpNetWithLists)
    NetSamples.endpoint
  = EndpointCrawlerGet._fetchViaJsonRpc NetSamples.mcpNetWithLists
      NetSamples.endpoint.
Proof.
  apply (second_copy_never_checks_the_status NetSamples.mcpNetWithLists
           (TransportSamples.withErrorStatus NetSamples.mcpNetWithLists)
           NetSamples.endpoint).
  - reflexivity.
  - intros req. cbn [TransportSamples.withErrorStatus fetch].
    by destruct (fetch NetSamples.mcpNetWithLists req).
Defined.

End TransportFacts.
